(** * Blockchain voting system: the ledger, proof of work and vote admission

    A shallow embedding of [blockchain.py], [voting_system.py] and the
    ledger and voting classes of [app.py].  Python objects are records,
    dictionaries are finite maps, the [while] loop of the proof of work is
    a fuel-indexed function, and [time.time()] is an argument of every
    operation that reads the clock.  A call runs to its end before the next
    one starts.  Of the console output only the lines [is_chain_valid]
    prints are kept; the web routes of [app.py] are left out. *)

From Stdlib Require Import ZArith String Ascii List PrimFloat Lia.
From stdpp Require Import gmap strings list pretty.

Import ListNotations.
Local Open Scope string_scope.
Local Open Scope list_scope.
Local Open Scope Z_scope.

(** ** Python values and library functions *)

(** The JSON documents [json.dumps] is applied to. *)
#[local] Unset Elimination Schemes.
Inductive json : Type :=
| JInt (n : Z)
| JFloat (x : float)
| JStr (s : string)
| JList (l : list json)
| JDict (d : list (string * json)).
#[local] Set Elimination Schemes.

(** What the code takes from Python's standard library: [hashlib],
    [json] and the rendering of a float inside an f-string. *)
Class Externals : Type := {
  (** [hashlib.sha256(s.encode()).hexdigest()] *)
  sha256_hexdigest : string -> string;
  (** [json.dumps(d, sort_keys=True)] *)
  json_dumps_sorted : json -> string;
  (** [f"{x}"] for a float [x] *)
  str_of_float : float -> string;
  (** [s.encode()] returns: the string has a UTF-8 encoding, which one
      with a lone surrogate has not (the call raises [UnicodeEncodeError]) *)
  str_encodes : string -> bool;
  (** a SHA-256 digest in hexadecimal has 64 characters *)
  sha256_hexdigest_length : forall s, String.length (sha256_hexdigest s) = 64%nat
}.

(** [s[:d]]: a negative bound counts from the end, a bound beyond the end
    stops at the end. *)
Definition py_slice_to (s : string) (d : Z) : string :=
  let n := Z.of_nat (String.length s) in
  let stop := if d <? 0 then Z.max 0 (n + d) else Z.min d n in
  substring 0 (Z.to_nat stop) s.

(** [s * d]: the empty string when [d <= 0]. *)
Fixpoint str_repeat (s : string) (k : nat) : string :=
  match k with
  | O => ""
  | S k' => s +:+ str_repeat s k'
  end.

Definition py_str_mul (s : string) (d : Z) : string := str_repeat s (Z.to_nat d).

(** [", ".join(l)] *)
Fixpoint py_join (sep : string) (l : list string) : string :=
  match l with
  | [] => ""
  | [x] => x
  | x :: rest => x +:+ sep +:+ py_join sep rest
  end.

(** The number of leading ["0"] characters of a string. *)
Fixpoint leading_zeros (s : string) : nat :=
  match s with
  | String c rest => if Ascii.eqb c "0" then S (leading_zeros rest) else O
  | EmptyString => O
  end.

(** How a call ends: with a value, with a raised exception, or not within
    the given number of loop iterations. *)
Inductive exn : Type :=
| Exception (msg : string)
| IndexError
| UnicodeEncodeError.

Inductive outcome (A : Type) : Type :=
| Ret (a : A)
| Raise (e : exn)
| OutOfFuel.
Arguments Ret {A} a.
Arguments Raise {A} e.
Arguments OutOfFuel {A}.

#[global] Instance outcome_bind : MBind outcome := fun A B k m =>
  match m with
  | Ret a => k a
  | Raise e => Raise e
  | OutOfFuel => OutOfFuel
  end.

(** ** Transactions *)

(** The elements of a block's [transactions] list: the bare string of
    [blockchain.py]'s genesis block, the [{"message": m}] dictionary of
    [app.py]'s genesis block, and the vote dictionary
    [{"type": "vote", "voter_id": v, "candidate": c, "timestamp": t}]. *)
Inductive Transaction : Type :=
| TStr (s : string)
| TMessage (m : string)
| TVote (voter_id candidate : string) (timestamp : float).

Definition tx_json (t : Transaction) : json :=
  match t with
  | TStr s => JStr s
  | TMessage m => JDict [("message", JStr m)]
  | TVote v c ts =>
      JDict [("type", JStr "vote"); ("voter_id", JStr v);
             ("candidate", JStr c); ("timestamp", JFloat ts)]
  end.

(** [isinstance(t, dict) and 'voter_id' in t], giving [t['voter_id']] *)
Definition tx_voter_id (t : Transaction) : option string :=
  match t with
  | TVote v _ _ => Some v
  | _ => None
  end.

(** [isinstance(t, dict) and 'candidate' in t], giving [t['candidate']] *)
Definition tx_candidate (t : Transaction) : option string :=
  match t with
  | TVote _ c _ => Some c
  | _ => None
  end.

(** What [to_dict] takes from [datetime]:
    [datetime.fromtimestamp(x).strftime('%H:%M:%S')]. *)
Class Datetime : Type := {
  strftime_hms : float -> string
}.

(** ** class Block (the same in [blockchain.py] and [app.py]) *)

Module Block.

Record t : Type := mk {
  index : Z;
  transactions : list Transaction;
  timestamp : float;
  previous_hash : string;
  nonce : Z;
  hash : string
}.

Definition set_nonce (n : Z) (b : t) : t :=
  mk (index b) (transactions b) (timestamp b) (previous_hash b) n (hash b).

Definition set_hash (h : string) (b : t) : t :=
  mk (index b) (transactions b) (timestamp b) (previous_hash b) (nonce b) h.

Section WithExternals.
Context `{Externals}.

Definition block_dict (b : t) : json :=
  JDict [("index", JInt (index b));
         ("transactions", JList (map tx_json (transactions b)));
         ("timestamp", JFloat (timestamp b));
         ("previous_hash", JStr (previous_hash b));
         ("nonce", JInt (nonce b))].

Definition calculate_hash (b : t) : string :=
  sha256_hexdigest (json_dumps_sorted (block_dict b)).

(** [Block(index, transactions, timestamp, previous_hash)] *)
Definition init (i : Z) (txs : list Transaction) (ts : float) (prev : string) : t :=
  let b := mk i txs ts prev 0 "" in
  set_hash (calculate_hash b) b.

(** The loop test of [mine_block], negated: the hash meets the target. *)
Definition meets_target (difficulty : Z) (b : t) : bool :=
  String.eqb (py_slice_to (hash b) difficulty) (py_str_mul "0" difficulty).

(** One pass through the body of the [while] loop. *)
Definition mine_step (b : t) : t :=
  let b1 := set_nonce (nonce b + 1) b in
  set_hash (calculate_hash b1) b1.

(** [mine_block]: at most [fuel] passes through the loop body. *)
Fixpoint mine_block (fuel : nat) (difficulty : Z) (b : t) : outcome t :=
  if meets_target difficulty b then Ret b
  else match fuel with
       | O => OutOfFuel
       | S fuel' => mine_block fuel' difficulty (mine_step b)
       end.

(** The loop of [mine_block] ends: after some number of passes the hash
    meets the target. *)
Definition solvable (difficulty : Z) (b : t) : Prop :=
  exists n : nat, meets_target difficulty (Nat.iter n mine_step b) = true.

End WithExternals.

(** The dictionary [to_dict] returns. *)
Record dict : Type := mk_dict {
  dict_index : Z;
  dict_transactions : list Transaction;
  dict_timestamp : string;
  dict_previous_hash : string;
  dict_hash : string;
  dict_nonce : Z
}.

Definition to_dict `{Datetime} (b : t) : dict :=
  mk_dict (index b) (transactions b) (strftime_hms (timestamp b))
          (py_slice_to (previous_hash b) 16 +:+ "...")
          (py_slice_to (hash b) 16 +:+ "...")
          (nonce b).

(** The block with nonce [k] and the hash of that nonce: what the loop of
    [mine_block] holds after the pass that sets the nonce to [k]. *)
Definition with_nonce `{Externals} (k : Z) (b : t) : t :=
  set_hash (calculate_hash (set_nonce k b)) (set_nonce k b).

End Block.

(** All transactions of a list of blocks, in chain order. *)
Definition chain_transactions (chain : list Block.t) : list Transaction :=
  concat (map Block.transactions chain).

(** [counts[candidate] = counts.get(candidate, 0) + 1] for a transaction
    that is a dictionary with a ['candidate'] key. *)
Definition count_transaction (counts : gmap string nat) (t : Transaction) : gmap string nat :=
  match tx_candidate t with
  | Some candidate => <[candidate := (default 0%nat (counts !! candidate) + 1)%nat]> counts
  | None => counts
  end.

(** ** blockchain.py: class Blockchain *)

Module Standalone.

Module Blockchain.

Record t : Type := mk {
  chain : list Block.t;
  difficulty : Z;
  pending_transactions : list Transaction
}.

(** The messages [is_chain_valid] prints. *)
Definition msg_hash_invalid (i : nat) : string :=
  "Block " +:+ pretty i +:+ " hash is invalid!".
Definition msg_previous_hash (i : nat) : string :=
  "Block " +:+ pretty i +:+ " previous hash doesn't match!".

Section WithExternals.
Context `{Externals}.

Definition create_genesis_block (fuel : nat) (now : float) (bc : t) : outcome t :=
  let genesis_block := Block.init 0 [TStr "Genesis Block"] now "0" in
  mined ← Block.mine_block fuel (difficulty bc) genesis_block;
  Ret (mk (chain bc ++ [mined]) (difficulty bc) (pending_transactions bc)).

(** [Blockchain()] *)
Definition init (fuel : nat) (now : float) : outcome t :=
  create_genesis_block fuel now (mk [] 2 []).

(** [self.chain[-1]] *)
Definition get_latest_block (bc : t) : outcome Block.t :=
  match last (chain bc) with
  | Some b => Ret b
  | None => Raise IndexError
  end.

Definition add_transaction (transaction : Transaction) (bc : t) : t * bool :=
  (mk (chain bc) (difficulty bc) (pending_transactions bc ++ [transaction]), true).

Definition mine_pending_transactions (fuel : nat) (now : float) (bc : t) : outcome (t * bool) :=
  match pending_transactions bc with
  | [] => Ret (bc, false)
  | _ :: _ =>
      latest ← get_latest_block bc;
      let block := Block.init (Z.of_nat (length (chain bc)))
                              (pending_transactions bc) now (Block.hash latest) in
      mined ← Block.mine_block fuel (difficulty bc) block;
      Ret (mk (chain bc ++ [mined]) (difficulty bc) [], true)
  end.

(** The body of [is_chain_valid]'s loop at index [i]: [Some msg] when the
    loop returns [False] there, after printing [msg]. *)
Definition check_block (chain : list Block.t) (i : nat) : option string :=
  match chain !! i, chain !! (i - 1)%nat with
  | Some current, Some previous =>
      if negb (String.eqb (Block.hash current) (Block.calculate_hash current))
      then Some (msg_hash_invalid i)
      else if negb (String.eqb (Block.previous_hash current) (Block.hash previous))
      then Some (msg_previous_hash i)
      else None
  | _, _ => None
  end.

Fixpoint is_chain_valid_loop (chain : list Block.t) (range : list nat) : bool * list string :=
  match range with
  | [] => (true, [])
  | i :: rest =>
      match check_block chain i with
      | Some msg => (false, [msg])
      | None => is_chain_valid_loop chain rest
      end
  end.

(** [is_chain_valid]: the returned boolean and the lines printed. *)
Definition is_chain_valid (bc : t) : bool * list string :=
  is_chain_valid_loop (chain bc) (seq 1 (length (chain bc) - 1)).

End WithExternals.

(** [votes[t['voter_id']] = t.get('candidate', 'Unknown')] over every
    transaction of every block. *)
Definition get_voter_votes (bc : t) : gmap string string :=
  foldl (fun votes t =>
           match tx_voter_id t with
           | Some v => <[v := default "Unknown" (tx_candidate t)]> votes
           | None => votes
           end) ∅ (chain_transactions (chain bc)).

Definition get_vote_counts (bc : t) : gmap string nat :=
  foldl count_transaction ∅ (chain_transactions (chain bc)).

Definition has_voter_voted (voter_id : string) (bc : t) : bool :=
  bool_decide (is_Some (get_voter_votes bc !! voter_id)).

End Blockchain.

(** ** voting_system.py: class VotingSystem *)

Module VotingSystem.

(** An entry of [self.voters]: [{'token': token, 'voted': voted}]. *)
Record Voter : Type := mkVoter {
  token : string;
  voted : bool
}.

Record t : Type := mk {
  blockchain : Blockchain.t;
  voters : gmap string Voter;
  candidates : list string;
  pending_votes : gmap string Transaction
}.

Definition msg_not_registered : string := "Voter not registered".
Definition msg_invalid_token : string := "Invalid token".
Definition msg_invalid_candidate : string := "Invalid candidate".
Definition msg_already_voted : string := "Voter has already cast a vote".
Definition msg_vote_cast : string :=
  "Vote cast successfully! It will be added to blockchain when mined.".
Definition msg_mined : string := "Votes mined successfully!".
Definition msg_no_votes : string := "No votes to mine".

Definition verify_token (voter_id token_ : string) (vs : t) : bool :=
  match voters vs !! voter_id with
  | Some v => String.eqb (token v) token_
  | None => false
  end.

Definition get_results (vs : t) : gmap string nat :=
  Blockchain.get_vote_counts (blockchain vs).

Definition get_pending_votes_count (vs : t) : nat := size (pending_votes vs).

(** An entry of the dictionary [get_voter_status] returns. *)
Module Status.
Record t : Type := mk {
  registered : bool;
  has_voted : bool;
  voted_for : string;
  token : string
}.
End Status.

Definition get_voter_status (vs : t) : gmap string Status.t :=
  let votes := Blockchain.get_voter_votes (blockchain vs) in
  map_imap (fun voter_id data =>
              Some (Status.mk true
                      (voted data || bool_decide (is_Some (votes !! voter_id))
                       || bool_decide (is_Some (pending_votes vs !! voter_id)))
                      (default "Not voted yet" (votes !! voter_id))
                      (py_slice_to (token data) 4 +:+ "...")))
           (voters vs).

Definition cast_vote (now : float) (voter_id token_ candidate : string) (vs : t) : t * string :=
  match voters vs !! voter_id with
  | None => (vs, msg_not_registered)
  | Some v =>
      if negb (verify_token voter_id token_ vs) then (vs, msg_invalid_token)
      else if negb (bool_decide (candidate ∈ candidates vs)) then (vs, msg_invalid_candidate)
      else
        let has_voted_in_blockchain := Blockchain.has_voter_voted voter_id (blockchain vs) in
        let has_voted_pending := bool_decide (is_Some (pending_votes vs !! voter_id)) in
        if voted v || has_voted_in_blockchain || has_voted_pending
        then (vs, msg_already_voted)
        else
          let vote_transaction := TVote voter_id candidate now in
          (mk (fst (Blockchain.add_transaction vote_transaction (blockchain vs)))
              (<[voter_id := mkVoter (token v) true]> (voters vs))
              (candidates vs)
              (<[voter_id := vote_transaction]> (pending_votes vs)),
           msg_vote_cast)
  end.

Section WithExternals.
Context `{Externals}.

(** [VotingSystem()] *)
Definition init (fuel : nat) (now : float) : outcome t :=
  bc ← Blockchain.init fuel now;
  Ret (mk bc ∅ ["Alice"; "Bob"; "Charlie"; "Diana"] ∅).

Definition register_voter (now : float) (voter_id : string) (vs : t) : outcome (t * string) :=
  match voters vs !! voter_id with
  | Some _ => Raise (Exception "Voter already registered")
  | None =>
      if str_encodes (voter_id +:+ str_of_float now)
      then
        let token_ := py_slice_to (sha256_hexdigest (voter_id +:+ str_of_float now)) 12 in
        Ret (mk (blockchain vs) (<[voter_id := mkVoter token_ false]> (voters vs))
                (candidates vs) (pending_votes vs),
             token_)
      else Raise UnicodeEncodeError
  end.

Definition mine_votes (fuel : nat) (now : float) (vs : t) : outcome (t * string) :=
  '(bc, success) ← Blockchain.mine_pending_transactions fuel now (blockchain vs);
  if success : bool
  then Ret (mk bc (voters vs) (candidates vs) ∅, msg_mined)
  else Ret (mk bc (voters vs) (candidates vs) (pending_votes vs), msg_no_votes).

End WithExternals.
End VotingSystem.
End Standalone.

(** ** app.py: class Blockchain and class VotingSystem *)

Module App.

Module Blockchain.

Record t : Type := mk {
  chain : list Block.t;
  difficulty : Z;
  pending_transactions : list Transaction;
  voted_voters : gset string
}.

Definition msg_already_voted : string := "This voter has already voted".
Definition msg_vote_added : string := "Vote added successfully".
Definition msg_no_votes : string := "No votes to mine".
Definition msg_mined (mined_count : nat) (index : Z) : string :=
  "Mined " +:+ pretty mined_count +:+ " votes into block #" +:+ pretty index.

Definition add_vote (now : float) (voter_id candidate : string) (bc : t) : t * (bool * string) :=
  if bool_decide (voter_id ∈ voted_voters bc) then (bc, (false, msg_already_voted))
  else
    let transaction := TVote voter_id candidate now in
    (mk (chain bc) (difficulty bc) (pending_transactions bc ++ [transaction])
        ({[voter_id]} ∪ voted_voters bc),
     (true, msg_vote_added)).

(** The mined blocks after the genesis block, then the pending votes. *)
Definition get_results (bc : t) : gmap string nat :=
  foldl count_transaction
    (foldl count_transaction ∅ (chain_transactions (drop 1 (chain bc))))
    (pending_transactions bc).

Definition validate_voter (voter_id : string) (bc : t) : bool :=
  negb (bool_decide (voter_id ∈ voted_voters bc)).

(** The dictionary [get_chain_data] returns. *)
Record chain_data : Type := mk_chain_data {
  blocks : list Block.dict;
  pending_count : nat;
  total_votes : nat
}.

Definition get_chain_data `{Datetime} (bc : t) : chain_data :=
  mk_chain_data
    (map Block.to_dict (chain bc))
    (length (pending_transactions bc))
    (sum_list (map (fun block => length (Block.transactions block)) (drop 1 (chain bc)))
     + length (pending_transactions bc))%nat.

Section WithExternals.
Context `{Externals}.

Definition create_genesis_block (fuel : nat) (now : float) (bc : t) : outcome t :=
  let genesis := Block.init 0 [TMessage "Genesis Block"] now "0" in
  mined ← Block.mine_block fuel (difficulty bc) genesis;
  Ret (mk (chain bc ++ [mined]) (difficulty bc) (pending_transactions bc) (voted_voters bc)).

(** [Blockchain()] *)
Definition init (fuel : nat) (now : float) : outcome t :=
  create_genesis_block fuel now (mk [] 2 [] ∅).

(** [self.chain[-1]] *)
Definition get_latest_block (bc : t) : outcome Block.t :=
  match last (chain bc) with
  | Some b => Ret b
  | None => Raise IndexError
  end.

Definition mine_pending_transactions (fuel : nat) (now : float) (bc : t)
  : outcome (t * (bool * string)) :=
  match pending_transactions bc with
  | [] => Ret (bc, (false, msg_no_votes))
  | _ :: _ =>
      latest ← get_latest_block bc;
      let new_block := Block.init (Z.of_nat (length (chain bc)))
                                  (pending_transactions bc) now (Block.hash latest) in
      mined ← Block.mine_block fuel (difficulty bc) new_block;
      let mined_count := length (pending_transactions bc) in
      Ret (mk (chain bc ++ [mined]) (difficulty bc) [] (voted_voters bc),
           (true, msg_mined mined_count (Block.index mined)))
  end.

(** The body of [is_chain_valid]'s loop at index [i]: [true] when the loop
    returns [False] there. *)
Definition block_fails (chain : list Block.t) (i : nat) : bool :=
  match chain !! i, chain !! (i - 1)%nat with
  | Some current, Some previous =>
      if negb (String.eqb (Block.hash current) (Block.calculate_hash current)) then true
      else negb (String.eqb (Block.previous_hash current) (Block.hash previous))
  | _, _ => false
  end.

Fixpoint is_chain_valid_loop (chain : list Block.t) (range : list nat) : bool :=
  match range with
  | [] => true
  | i :: rest => if block_fails chain i then false else is_chain_valid_loop chain rest
  end.

Definition is_chain_valid (bc : t) : bool :=
  is_chain_valid_loop (chain bc) (seq 1 (length (chain bc) - 1)).

End WithExternals.
End Blockchain.

Module VotingSystem.

Record t : Type := mk {
  blockchain : Blockchain.t;
  registered_voters : gmap string string;
  candidates : list string
}.

Definition msg_already_registered : string := "Voter already registered".
Definition msg_registered : string := "Registration successful".
Definition msg_not_registered : string := "Voter not registered".
Definition msg_invalid_token : string := "Invalid token".
Definition msg_verified : string := "Verification successful".
Definition msg_invalid_candidate (candidates : list string) : string :=
  "Invalid candidate. Choose from: " +:+ py_join ", " candidates.

Definition verify_voter (voter_id token : string) (vs : t) : bool * string :=
  match registered_voters vs !! voter_id with
  | None => (false, msg_not_registered)
  | Some stored =>
      if negb (String.eqb stored token) then (false, msg_invalid_token)
      else (true, msg_verified)
  end.

Definition cast_vote (now : float) (voter_id token candidate : string) (vs : t)
  : t * (bool * string) :=
  let '(is_valid, message) := verify_voter voter_id token vs in
  if negb is_valid then (vs, (false, message))
  else if negb (bool_decide (candidate ∈ candidates vs))
  then (vs, (false, msg_invalid_candidate (candidates vs)))
  else
    let '(bc, (success, message)) := Blockchain.add_vote now voter_id candidate (blockchain vs) in
    (mk bc (registered_voters vs) (candidates vs), (success, message)).

Definition get_results (vs : t) : gmap string nat :=
  Blockchain.get_results (blockchain vs).

(** An entry of the dictionary [get_voter_status] returns. *)
Module Status.
Record t : Type := mk {
  registered : bool;
  has_voted : bool;
  token_preview : string;
  voted_at : string
}.
End Status.

(** [t.get('voter_id')]: [None] when [t] is a string, which has no [get]
    (the call raises [AttributeError]); [Some None] when the dictionary has
    no such key. *)
Definition tx_get_voter_id (t : Transaction) : option (option string) :=
  match t with
  | TStr _ => None
  | TMessage _ => Some None
  | TVote v _ _ => Some (Some v)
  end.

(** The entry for one voter; [None] when building it raises. *)
Definition voter_status (bc : Blockchain.t) (voter_id token : string) : option Status.t :=
  let has_voted := negb (Blockchain.validate_voter voter_id bc) in
  voted_at ← (if has_voted
              then ids ← mapM tx_get_voter_id (Blockchain.pending_transactions bc);
                   Some (if bool_decide (Some voter_id ∈ ids) then "Pending" else "Mined")
              else Some "Not voted");
  Some (Status.mk true has_voted (py_slice_to token 4 +:+ "****") voted_at).

(** [get_voter_status]; [None] when the entry of some voter raises. *)
Definition get_voter_status (vs : t) : option (gmap string Status.t) :=
  let entries := map_imap (fun voter_id token =>
                             Some (voter_status (blockchain vs) voter_id token))
                          (registered_voters vs) in
  if bool_decide (map_Forall (fun _ entry => is_Some entry) entries)
  then Some (omap id entries)
  else None.

Section WithExternals.
Context `{Externals}.

(** [VotingSystem()] *)
Definition init (fuel : nat) (now : float) : outcome t :=
  bc ← Blockchain.init fuel now;
  Ret (mk bc ∅ ["Alice"; "Bob"; "Charlie"; "Diana"; "Edward"]).

Definition register_voter (now : float) (voter_id : string) (vs : t)
  : outcome (t * (bool * string * option string)) :=
  match registered_voters vs !! voter_id with
  | Some _ => Ret (vs, (false, msg_already_registered, None))
  | None =>
      if str_encodes (voter_id +:+ str_of_float now)
      then
        let token := py_slice_to (sha256_hexdigest (voter_id +:+ str_of_float now)) 12 in
        Ret (mk (blockchain vs) (<[voter_id := token]> (registered_voters vs)) (candidates vs),
             (true, msg_registered, Some token))
      else Raise UnicodeEncodeError
  end.

Definition mine_votes (fuel : nat) (now : float) (vs : t) : outcome (t * (bool * string)) :=
  '(bc, r) ← Blockchain.mine_pending_transactions fuel now (blockchain vs);
  Ret (mk bc (registered_voters vs) (candidates vs), r).

End WithExternals.
End VotingSystem.
End App.

(** ** Reachable states *)

(** The states of [voting_system.py]'s [VotingSystem] reached from a new
    system by calls of [register_voter], [cast_vote] and [mine_votes]
    that end (a call that raises or does not end leaves no new state). *)
Inductive standalone_reachable `{Externals} : Standalone.VotingSystem.t -> Prop :=
| sr_init fuel now vs :
    Standalone.VotingSystem.init fuel now = Ret vs ->
    standalone_reachable vs
| sr_register now voter_id vs vs' token :
    standalone_reachable vs ->
    Standalone.VotingSystem.register_voter now voter_id vs = Ret (vs', token) ->
    standalone_reachable vs'
| sr_cast_vote now voter_id token candidate vs :
    standalone_reachable vs ->
    standalone_reachable (fst (Standalone.VotingSystem.cast_vote now voter_id token candidate vs))
| sr_mine_votes fuel now vs vs' msg :
    standalone_reachable vs ->
    Standalone.VotingSystem.mine_votes fuel now vs = Ret (vs', msg) ->
    standalone_reachable vs'.

(** The same for [app.py]'s [VotingSystem]. *)
Inductive app_reachable `{Externals} : App.VotingSystem.t -> Prop :=
| ar_init fuel now vs :
    App.VotingSystem.init fuel now = Ret vs ->
    app_reachable vs
| ar_register now voter_id vs vs' r :
    app_reachable vs ->
    App.VotingSystem.register_voter now voter_id vs = Ret (vs', r) ->
    app_reachable vs'
| ar_cast_vote now voter_id token candidate vs :
    app_reachable vs ->
    app_reachable (fst (App.VotingSystem.cast_vote now voter_id token candidate vs))
| ar_mine_votes fuel now vs vs' r :
    app_reachable vs ->
    App.VotingSystem.mine_votes fuel now vs = Ret (vs', r) ->
    app_reachable vs'.

(** The vote records of a voter in a list of transactions. *)
Definition votes_of (voter_id : string) (txs : list Transaction) : list Transaction :=
  filter (fun t => tx_voter_id t = Some voter_id) txs.

(** The vote records naming a candidate in a list of transactions. *)
Definition votes_for (candidate : string) (txs : list Transaction) : nat :=
  length (filter (fun t => tx_candidate t = Some candidate) txs).

(** One call that returns, from one state to the next. *)
Inductive standalone_step `{Externals}
  : Standalone.VotingSystem.t -> Standalone.VotingSystem.t -> Prop :=
| ss_register now voter_id vs vs' token :
    Standalone.VotingSystem.register_voter now voter_id vs = Ret (vs', token) ->
    standalone_step vs vs'
| ss_cast_vote now voter_id token candidate vs :
    standalone_step vs
      (fst (Standalone.VotingSystem.cast_vote now voter_id token candidate vs))
| ss_mine_votes fuel now vs vs' msg :
    Standalone.VotingSystem.mine_votes fuel now vs = Ret (vs', msg) ->
    standalone_step vs vs'.

Inductive app_step `{Externals} : App.VotingSystem.t -> App.VotingSystem.t -> Prop :=
| as_register now voter_id vs vs' r :
    App.VotingSystem.register_voter now voter_id vs = Ret (vs', r) ->
    app_step vs vs'
| as_cast_vote now voter_id token candidate vs :
    app_step vs (fst (App.VotingSystem.cast_vote now voter_id token candidate vs))
| as_mine_votes fuel now vs vs' r :
    App.VotingSystem.mine_votes fuel now vs = Ret (vs', r) ->
    app_step vs vs'.

(** ** Vocabulary of the statements *)

Section Vocabulary.
Context `{Externals}.




(** What a mined genesis block [g] with the given marker looks like. *)
Definition is_genesis (d : Z) (marker : Transaction) (g : Block.t) : Prop :=
  Block.index g = 0 /\
  Block.previous_hash g = "0" /\
  Block.transactions g = [marker] /\
  Block.hash g = Block.calculate_hash g /\
  d <= Z.of_nat (leading_zeros (Block.hash g)).

(** The two checks of [is_chain_valid] at index [i] of a chain. *)
Definition hash_mismatch (chain : list Block.t) (i : nat) : Prop :=
  exists current, chain !! i = Some current /\
                  Block.hash current <> Block.calculate_hash current.

Definition link_mismatch (chain : list Block.t) (i : nat) : Prop :=
  exists current previous,
    chain !! i = Some current /\ chain !! (i - 1)%nat = Some previous /\
    Block.previous_hash current <> Block.hash previous.

Definition fails_at (chain : list Block.t) (i : nat) : Prop :=
  hash_mismatch chain i \/ link_mismatch chain i.

(** [i] is the first index from 1 on at which a check fails. *)
Definition first_failing_index (chain : list Block.t) (i : nat) : Prop :=
  (1 <= i < length chain)%nat /\
  fails_at chain i /\
  forall j, (1 <= j < i)%nat -> ~ fails_at chain j.

(** Every block of the chain sits at its index, carries the digest of its
    fields with [d] leading zeros, and links to the block before it. *)
Definition chain_well_formed (d : Z) (chain : list Block.t) : Prop :=
  forall i b,
    chain !! i = Some b ->
    Block.index b = Z.of_nat i /\
    Block.hash b = Block.calculate_hash b /\
    d <= Z.of_nat (leading_zeros (Block.hash b)) /\
    match i with
    | O => Block.previous_hash b = "0"
    | S j => exists previous, chain !! j = Some previous /\
                              Block.previous_hash b = Block.hash previous
    end.

End Vocabulary.

(** Every record a ledger holds: the transactions of the mined blocks, then
    the pending pool. *)
Definition standalone_records (vs : Standalone.VotingSystem.t) : list Transaction :=
  chain_transactions (Standalone.Blockchain.chain (Standalone.VotingSystem.blockchain vs))
  ++ Standalone.Blockchain.pending_transactions (Standalone.VotingSystem.blockchain vs).

Definition app_records (vs : App.VotingSystem.t) : list Transaction :=
  chain_transactions (App.Blockchain.chain (App.VotingSystem.blockchain vs))
  ++ App.Blockchain.pending_transactions (App.VotingSystem.blockchain vs).

(** At most one record per voter, and whoever has a record is marked as
    having voted. *)
Definition standalone_one_vote (vs : Standalone.VotingSystem.t) : Prop :=
  forall voter_id,
    (length (votes_of voter_id (standalone_records vs)) <= 1)%nat /\
    (votes_of voter_id (standalone_records vs) <> [] ->
     exists v, Standalone.VotingSystem.voters vs !! voter_id = Some v /\
               Standalone.VotingSystem.voted v = true).

Definition app_one_vote (vs : App.VotingSystem.t) : Prop :=
  forall voter_id,
    (length (votes_of voter_id (app_records vs)) <= 1)%nat /\
    (votes_of voter_id (app_records vs) <> [] ->
     voter_id ∈ App.Blockchain.voted_voters (App.VotingSystem.blockchain vs)).

(** [pending_votes] and the pool hold the same records under the same
    voter ids. *)
Definition pending_in_sync (vs : Standalone.VotingSystem.t) : Prop :=
  forall voter_id tx,
    Standalone.VotingSystem.pending_votes vs !! voter_id = Some tx <->
    tx ∈ Standalone.Blockchain.pending_transactions (Standalone.VotingSystem.blockchain vs) /\
    tx_voter_id tx = Some voter_id.

(** The entry of a tally dictionary for a candidate with [n] votes: no key
    at all when there is none. *)
Definition tally_entry (n : nat) : option nat :=
  match n with
  | O => None
  | S _ => Some n
  end.

(** A vote record of a registered voter for a configured candidate. *)
Definition is_vote (cands : list string) (ids : gset string) (t : Transaction) : Prop :=
  exists voter_id candidate ts,
    t = TVote voter_id candidate ts /\ candidate ∈ cands /\ voter_id ∈ ids.

(** The pool holds votes only, and so do the mined blocks apart from the
    genesis marker. *)
Definition records_are_votes (marker : Transaction) (cands : list string) (ids : gset string)
    (chain : list Block.t) (pool : list Transaction) : Prop :=
  (forall t, t ∈ pool -> is_vote cands ids t) /\
  (forall t, t ∈ chain_transactions chain -> t = marker \/ is_vote cands ids t).

(** ** A small instance of the library functions, to run the code on *)

Fixpoint demo_dumps (j : json) : string :=
  match j with
  | JInt n => pretty n
  | JFloat _ => "0.0"
  | JStr s => s
  | JList l =>
      "[" +:+ (fix go (l : list json) : string :=
                 match l with
                 | [] => ""
                 | x :: r => demo_dumps x +:+ "," +:+ go r
                 end) l +:+ "]"
  | JDict d =>
      "{" +:+ (fix go (d : list (string * json)) : string :=
                 match d with
                 | [] => ""
                 | (k, v) :: r => k +:+ ":" +:+ demo_dumps v +:+ "," +:+ go r
                 end) d +:+ "}"
  end.

Fixpoint char_sum (s : string) : nat :=
  match s with
  | EmptyString => O
  | String c rest => (nat_of_ascii c + char_sum rest)%nat
  end.

(** A 64-character digest whose first two characters are ["00"] for one
    input in four. *)
Definition demo_digest (s : string) : string :=
  String "0" (String (ascii_of_nat (48 + char_sum s mod 4))
    "abcdefabcdefabcdefabcdefabcdefabcdefabcdefabcdefabcdefabcdefab").

(** A string in which byte 237 is followed by a byte from 160 on holds a
    surrogate in its three-byte form and has no UTF-8 encoding. *)
Fixpoint demo_encodes (s : string) : bool :=
  match s with
  | String c ((String c' _) as rest) =>
      if Nat.eqb (nat_of_ascii c) 237 && Nat.leb 160 (nat_of_ascii c') then false
      else demo_encodes rest
  | _ => true
  end.

(** The voter id that is the lone surrogate U+D800. *)
Definition demo_surrogate : string :=
  String (ascii_of_nat 237) (String (ascii_of_nat 160) (String (ascii_of_nat 128) "")).

#[local] Instance demo_externals : Externals := {|
  sha256_hexdigest := demo_digest;
  json_dumps_sorted := demo_dumps;
  str_of_float := fun _ => "0.0";
  str_encodes := demo_encodes;
  sha256_hexdigest_length := fun _ => eq_refl
|}.

#[local] Instance demo_datetime : Datetime := {|
  strftime_hms := fun _ => "12:00:00"
|}.

(** A ledger of each implementation after construction and one vote. *)
Definition demo_genesis (marker : Transaction) : Block.t :=
  Block.mk 0 [marker] 1.5%float "0" (match marker with TStr _ => 3 | _ => 0 end)
    "00abcdefabcdefabcdefabcdefabcdefabcdefabcdefabcdefabcdefabcdefab".

Definition demo_standalone_ledger : Standalone.Blockchain.t :=
  Standalone.Blockchain.mk [demo_genesis (TStr "Genesis Block")] 2
    [TVote "V1" "Alice" 3.5%float].

Definition demo_app_ledger : App.Blockchain.t :=
  App.Blockchain.mk [demo_genesis (TMessage "Genesis Block")] 2
    [TVote "V1" "Alice" 3.5%float] {["V1"]}.

(** The voting systems after construction, and after registering [V1]. *)
Definition demo_standalone_fresh : Standalone.VotingSystem.t :=
  Standalone.VotingSystem.mk
    (Standalone.Blockchain.mk [demo_genesis (TStr "Genesis Block")] 2 [])
    ∅ ["Alice"; "Bob"; "Charlie"; "Diana"] ∅.

Definition demo_standalone_registered : Standalone.VotingSystem.t :=
  Standalone.VotingSystem.mk
    (Standalone.Blockchain.mk [demo_genesis (TStr "Genesis Block")] 2 [])
    {["V1" := Standalone.VotingSystem.mkVoter "01abcdefabcd" false]}
    ["Alice"; "Bob"; "Charlie"; "Diana"] ∅.

Definition demo_app_fresh : App.VotingSystem.t :=
  App.VotingSystem.mk
    (App.Blockchain.mk [demo_genesis (TMessage "Genesis Block")] 2 [] ∅)
    ∅ ["Alice"; "Bob"; "Charlie"; "Diana"; "Edward"].

Definition demo_app_registered : App.VotingSystem.t :=
  App.VotingSystem.mk
    (App.Blockchain.mk [demo_genesis (TMessage "Genesis Block")] 2 [] ∅)
    {["V1" := "01abcdefabcd"]} ["Alice"; "Bob"; "Charlie"; "Diana"; "Edward"].

(** The voting systems around these ledgers: voter [V1] is registered and
    has voted for Alice; the vote is pending. *)
Definition demo_standalone_system : Standalone.VotingSystem.t :=
  Standalone.VotingSystem.mk demo_standalone_ledger
    {["V1" := Standalone.VotingSystem.mkVoter "01abcdefabcd" true]}
    ["Alice"; "Bob"; "Charlie"; "Diana"]
    {["V1" := TVote "V1" "Alice" 3.5%float]}.

Definition demo_app_system : App.VotingSystem.t :=
  App.VotingSystem.mk demo_app_ledger {["V1" := "01abcdefabcd"]}
    ["Alice"; "Bob"; "Charlie"; "Diana"; "Edward"].

(** The same systems after the pending vote has been mined into block 1. *)
Definition demo_vote_block : Block.t :=
  Block.mk 1 [TVote "V1" "Alice" 3.5%float] 4.5%float
    "00abcdefabcdefabcdefabcdefabcdefabcdefabcdefabcdefabcdefabcdefab" 2
    "00abcdefabcdefabcdefabcdefabcdefabcdefabcdefabcdefabcdefabcdefab".

Definition demo_standalone_mined : Standalone.VotingSystem.t :=
  Standalone.VotingSystem.mk
    (Standalone.Blockchain.mk [demo_genesis (TStr "Genesis Block"); demo_vote_block] 2 [])
    {["V1" := Standalone.VotingSystem.mkVoter "01abcdefabcd" true]}
    ["Alice"; "Bob"; "Charlie"; "Diana"] ∅.

Definition demo_app_mined : App.VotingSystem.t :=
  App.VotingSystem.mk
    (App.Blockchain.mk [demo_genesis (TMessage "Genesis Block"); demo_vote_block] 2 []
       {["V1"]})
    {["V1" := "01abcdefabcd"]}
    ["Alice"; "Bob"; "Charlie"; "Diana"; "Edward"].

(** Chains for the validation examples: block 1 with its nonce overwritten,
    the genesis block with its nonce overwritten, and a third block with
    its nonce overwritten after two blocks that are intact. *)
Definition demo_second_block : Block.t :=
  Block.init (H := demo_externals) 2 [TVote "V2" "Bob" 7.5%float] 8.5%float
    (Block.hash demo_vote_block).

Definition demo_chain_bad_1 (marker : Transaction) : list Block.t :=
  [demo_genesis marker; Block.set_nonce 5 demo_vote_block].

Definition demo_chain_bad_2 (marker : Transaction) : list Block.t :=
  [demo_genesis marker; demo_vote_block; Block.set_nonce 5 demo_second_block].

Definition demo_chain_bad_genesis (marker : Transaction) : list Block.t :=
  [Block.set_nonce 5 (demo_genesis marker); demo_vote_block].

(** * Properties *)

(** ** Strings *)

Lemma str_append_length (s1 s2 : string) :
  String.length (s1 +:+ s2) = (String.length s1 + String.length s2)%nat.
Proof. induction s1 as [|c s1 IH]; simpl; [reflexivity | now rewrite IH]. Qed.

Lemma str_repeat_length (s : string) (k : nat) :
  String.length (str_repeat s k) = (k * String.length s)%nat.
Proof.
  induction k as [|k IH]; simpl; [reflexivity|].
  rewrite str_append_length, IH. lia.
Qed.

Lemma substring_0_length (k : nat) (s : string) :
  String.length (substring 0 k s) = Nat.min k (String.length s).
Proof.
  revert s; induction k as [|k IH]; intros [|c s]; simpl; try reflexivity.
  now rewrite IH.
Qed.

Lemma substring_zeros (k : nat) (s : string) :
  substring 0 k s = str_repeat "0" k -> (k <= leading_zeros s)%nat.
Proof.
  revert s; induction k as [|k IH]; intros s Hs; [lia|].
  destruct s as [|c s]; simpl in Hs; [discriminate|].
  injection Hs as -> Hs. simpl. apply IH in Hs. lia.
Qed.

(** A slice [h[:d]] that equals ["0" * d], for [d >= 0], is a run of [d]
    leading zeros of [h]. *)
Lemma slice_zeros (h : string) (d : Z) :
  0 <= d ->
  py_slice_to h d = py_str_mul "0" d ->
  d <= Z.of_nat (leading_zeros h).
Proof.
  intros Hd Heq. unfold py_slice_to, py_str_mul in Heq.
  destruct (Z.ltb_spec d 0) as [?|_]; [lia|].
  assert (Hlen := f_equal String.length Heq).
  rewrite substring_0_length, str_repeat_length in Hlen. simpl in Hlen.
  assert (Z.to_nat (Z.min d (Z.of_nat (String.length h))) = Z.to_nat d) as Hmin by lia.
  rewrite Hmin in Heq. apply substring_zeros in Heq. lia.
Qed.

(** ** The proof of work *)

Section BlockFacts.
Context `{Externals}.

Lemma mine_step_frame (b : Block.t) :
  Block.index (Block.mine_step b) = Block.index b /\
  Block.transactions (Block.mine_step b) = Block.transactions b /\
  Block.timestamp (Block.mine_step b) = Block.timestamp b /\
  Block.previous_hash (Block.mine_step b) = Block.previous_hash b.
Proof. repeat split. Qed.

Lemma mine_step_hash (b : Block.t) :
  Block.hash (Block.mine_step b) = Block.calculate_hash (Block.mine_step b).
Proof. reflexivity. Qed.

Lemma init_hash i txs ts prev :
  Block.hash (Block.init i txs ts prev) = Block.calculate_hash (Block.init i txs ts prev).
Proof. reflexivity. Qed.

Lemma mine_block_no_raise fuel d b e : Block.mine_block fuel d b <> Raise e.
Proof.
  revert b; induction fuel as [|fuel IH]; intros b; simpl;
    destruct (Block.meets_target d b); try discriminate. apply IH.
Qed.

(** What a finished [mine_block] has done to the block. *)
Lemma mine_block_ret fuel d b b' :
  Block.mine_block fuel d b = Ret b' ->
  Block.index b' = Block.index b /\
  Block.transactions b' = Block.transactions b /\
  Block.timestamp b' = Block.timestamp b /\
  Block.previous_hash b' = Block.previous_hash b /\
  Block.meets_target d b' = true /\
  Block.nonce b <= Block.nonce b' /\
  (b' = b \/ Block.hash b' = Block.calculate_hash b').
Proof.
  revert b; induction fuel as [|fuel IH]; intros b; simpl;
    destruct (Block.meets_target d b) eqn:Ht; intros Hr; try discriminate.
  - injection Hr as <-. repeat split; auto; lia.
  - injection Hr as <-. repeat split; auto; lia.
  - apply IH in Hr as (Hi & Htx & Hts & Hp & Hm & Hn & Hh).
    repeat split; auto.
    + simpl in Hn. lia.
    + right. destruct Hh as [-> | Hh]; [apply mine_step_hash | exact Hh].
Qed.

Lemma mine_block_hash fuel d b b' :
  Block.mine_block fuel d b = Ret b' ->
  Block.hash b = Block.calculate_hash b ->
  Block.hash b' = Block.calculate_hash b'.
Proof.
  intros Hr Hb. apply mine_block_ret in Hr as (_ & _ & _ & _ & _ & _ & [-> | Hh]); auto.
Qed.

Lemma mine_block_leading_zeros fuel d b b' :
  0 <= d ->
  Block.mine_block fuel d b = Ret b' ->
  d <= Z.of_nat (leading_zeros (Block.hash b')).
Proof.
  intros Hd Hr. apply mine_block_ret in Hr as (_ & _ & _ & _ & Hm & _).
  unfold Block.meets_target in Hm. apply String.eqb_eq in Hm.
  now apply slice_zeros.
Qed.

(** A block whose hash meets the target on entry is returned as it is. *)
Lemma mine_block_met fuel d b :
  Block.meets_target d b = true -> Block.mine_block fuel d b = Ret b.
Proof. intros Ht. destruct fuel; simpl; now rewrite Ht. Qed.


(** A solvable block is mined with enough fuel. *)
Lemma mine_block_solvable d b :
  Block.solvable d b ->
  exists fuel b', Block.mine_block fuel d b = Ret b'.
Proof.
  intros [n Hn]. revert b Hn; induction n as [|n IH]; intros b Hn.
  - exists O, b. simpl in *. now rewrite Hn.
  - destruct (Block.meets_target d b) eqn:Ht.
    + exists O, b. simpl. now rewrite Ht.
    + rewrite Nat.iter_succ_r in Hn. apply IH in Hn as (fuel & b' & Hr).
      exists (S fuel), b'. simpl. now rewrite Ht.
Qed.

(** A block that is mined is solvable. *)
Lemma mine_block_ret_solvable fuel d b b' :
  Block.mine_block fuel d b = Ret b' -> Block.solvable d b.
Proof.
  revert b; induction fuel as [|fuel IH]; intros b; simpl;
    destruct (Block.meets_target d b) eqn:Ht; intros Hr; try discriminate.
  - now exists O.
  - now exists O.
  - apply IH in Hr as [n Hn]. exists (S n). now rewrite Nat.iter_succ_r.
Qed.

End BlockFacts.

(** ** Mining the pending pool *)

Section LedgerFacts.
Context `{Externals}.

Lemma standalone_mine_empty fuel now (bc : Standalone.Blockchain.t) :
  Standalone.Blockchain.pending_transactions bc = [] ->
  Standalone.Blockchain.mine_pending_transactions fuel now bc = Ret (bc, false).
Proof.
  intros Hp. unfold Standalone.Blockchain.mine_pending_transactions. now rewrite Hp.
Qed.

Lemma app_mine_empty fuel now (bc : App.Blockchain.t) :
  App.Blockchain.pending_transactions bc = [] ->
  App.Blockchain.mine_pending_transactions fuel now bc
  = Ret (bc, (false, App.Blockchain.msg_no_votes)).
Proof.
  intros Hp. unfold App.Blockchain.mine_pending_transactions. now rewrite Hp.
Qed.






End LedgerFacts.

(** ** Claims on mining and on the genesis block *)

(** C5. [mine_pending_transactions] on an empty pending pool returns the
    failure result ([False] in [blockchain.py], [(False, "No votes to mine")]
    in [app.py]) and the ledger it leaves is the ledger it found: chain,
    chain length and pending pool are unchanged.  [mine_votes] passes the
    failure on and leaves the voting system unchanged. *)
Theorem mine_empty_pool_is_noop `{Externals} (fuel : nat) (now : float)
    (svs : Standalone.VotingSystem.t) (avs : App.VotingSystem.t) :
  (Standalone.Blockchain.pending_transactions (Standalone.VotingSystem.blockchain svs) = [] ->
   Standalone.Blockchain.mine_pending_transactions fuel now (Standalone.VotingSystem.blockchain svs)
   = Ret (Standalone.VotingSystem.blockchain svs, false) /\
   Standalone.VotingSystem.mine_votes fuel now svs
   = Ret (svs, Standalone.VotingSystem.msg_no_votes)) /\
  (App.Blockchain.pending_transactions (App.VotingSystem.blockchain avs) = [] ->
   App.Blockchain.mine_pending_transactions fuel now (App.VotingSystem.blockchain avs)
   = Ret (App.VotingSystem.blockchain avs, (false, "No votes to mine")) /\
   App.VotingSystem.mine_votes fuel now avs = Ret (avs, (false, "No votes to mine"))).
Proof.
  split; intros Hp.
  - pose proof (standalone_mine_empty fuel now _ Hp) as Hm. split; [exact Hm|].
    unfold Standalone.VotingSystem.mine_votes. rewrite Hm. simpl. now destruct svs.
  - pose proof (app_mine_empty fuel now _ Hp) as Hm. split; [exact Hm|].
    unfold App.VotingSystem.mine_votes. rewrite Hm. simpl. now destruct avs.
Qed.

Lemma mine_empty_pool_is_noop_witness :
  Standalone.VotingSystem.mine_votes (H := demo_externals) 5 2.5%float demo_standalone_fresh
  = Ret (demo_standalone_fresh, "No votes to mine") /\
  App.VotingSystem.mine_votes (H := demo_externals) 5 2.5%float demo_app_fresh
  = Ret (demo_app_fresh, (false, "No votes to mine")).
Proof.
  destruct (mine_empty_pool_is_noop (H := demo_externals) 5 2.5%float
              demo_standalone_fresh demo_app_fresh) as [Hs Ha].
  split; [apply Hs | apply Ha]; reflexivity.
Defined.



Lemma mine_genesis `{Externals} fuel marker now g :
  Block.mine_block fuel 2 (Block.init 0 [marker] now "0") = Ret g ->
  is_genesis 2 marker g /\ Block.timestamp g = now.
Proof.
  intros Hm. unfold is_genesis.
  pose proof (mine_block_hash _ _ _ _ Hm (init_hash _ _ _ _)) as Hh.
  assert (0 <= 2) as Hd by lia.
  pose proof (mine_block_leading_zeros _ _ _ _ Hd Hm) as Hz.
  apply mine_block_ret in Hm as (Hi & Htx & Hts & Hp & _).
  repeat split; auto.
Qed.

(** C8. A ledger that has just been constructed holds exactly one block,
    the genesis block: index 0, [previous_hash] ["0"], the genesis marker
    as its only transaction (the string ["Genesis Block"] in [blockchain.py],
    [{"message": "Genesis Block"}] in [app.py]), and a hash that is the digest
    of its fields with the two leading zeros of difficulty 2.  The pool is
    empty.  Construction returns, with enough fuel, as soon as the search
    for the genesis nonce ends, and it never raises. *)
Theorem genesis_block_after_construction `{Externals} (now : float) :
  (forall fuel bc,
     Standalone.Blockchain.init fuel now = Ret bc ->
     exists g,
       bc = Standalone.Blockchain.mk [g] 2 [] /\
       Block.timestamp g = now /\
       is_genesis 2 (TStr "Genesis Block") g) /\
  (forall fuel bc,
     App.Blockchain.init fuel now = Ret bc ->
     exists g,
       bc = App.Blockchain.mk [g] 2 [] ∅ /\
       Block.timestamp g = now /\
       is_genesis 2 (TMessage "Genesis Block") g) /\
  (Block.solvable 2 (Block.init 0 [TStr "Genesis Block"] now "0") ->
   exists fuel bc, Standalone.Blockchain.init fuel now = Ret bc) /\
  (Block.solvable 2 (Block.init 0 [TMessage "Genesis Block"] now "0") ->
   exists fuel bc, App.Blockchain.init fuel now = Ret bc) /\
  (forall fuel e, Standalone.Blockchain.init fuel now <> Raise e /\
                  App.Blockchain.init fuel now <> Raise e).
Proof.
  repeat split.
  - intros fuel bc. unfold Standalone.Blockchain.init, Standalone.Blockchain.create_genesis_block.
    simpl. destruct (Block.mine_block _ _ _) as [g| |] eqn:Hm; simpl; try discriminate.
    intros [= <-]. exists g. split; [reflexivity|].
    apply and_comm. now apply mine_genesis in Hm.
  - intros fuel bc. unfold App.Blockchain.init, App.Blockchain.create_genesis_block.
    simpl. destruct (Block.mine_block _ _ _) as [g| |] eqn:Hm; simpl; try discriminate.
    intros [= <-]. exists g. split; [reflexivity|].
    apply and_comm. now apply mine_genesis in Hm.
  - intros Hs. apply mine_block_solvable in Hs as (fuel & g & Hm).
    exists fuel. eexists. unfold Standalone.Blockchain.init,
      Standalone.Blockchain.create_genesis_block. simpl. rewrite Hm. reflexivity.
  - intros Hs. apply mine_block_solvable in Hs as (fuel & g & Hm).
    exists fuel. eexists. unfold App.Blockchain.init,
      App.Blockchain.create_genesis_block. simpl. rewrite Hm. reflexivity.
  - unfold Standalone.Blockchain.init, Standalone.Blockchain.create_genesis_block. simpl.
    destruct (Block.mine_block _ _ _) as [g| |] eqn:Hm; simpl; try discriminate.
    exfalso. eapply mine_block_no_raise, Hm.
  - unfold App.Blockchain.init, App.Blockchain.create_genesis_block. simpl.
    destruct (Block.mine_block _ _ _) as [g| |] eqn:Hm; simpl; try discriminate.
    exfalso. eapply mine_block_no_raise, Hm.
Qed.

Lemma genesis_block_after_construction_witness :
  (exists fuel bc, Standalone.Blockchain.init (H := demo_externals) fuel 1.5%float = Ret bc) /\
  (exists fuel bc, App.Blockchain.init (H := demo_externals) fuel 1.5%float = Ret bc) /\
  (exists g, Standalone.Blockchain.mk [demo_genesis (TStr "Genesis Block")] 2 []
             = Standalone.Blockchain.mk [g] 2 [] /\
             Block.timestamp g = 1.5%float /\
             is_genesis (H := demo_externals) 2 (TStr "Genesis Block") g).
Proof.
  destruct (genesis_block_after_construction (H := demo_externals) 1.5%float)
    as (Hs & _ & Hse & Hae & _).
  split; [|split].
  - apply Hse. exists 3%nat. vm_compute. reflexivity.
  - apply Hae. exists 0%nat. vm_compute. reflexivity.
  - apply (Hs 3%nat (Standalone.Blockchain.mk [demo_genesis (TStr "Genesis Block")] 2 [])).
    vm_compute. reflexivity.
Defined.

(** C9, as the code has it.  [mine_block] changes only [nonce] and
    [hash]: whatever the block and the difficulty, after every pass
    through the loop and in the block a finished call leaves, [index],
    [transactions], [timestamp] and [previous_hash] are what they were.
    The hash of the resulting block is [calculate_hash()] of its final
    fields when the hash was the digest of the fields as the call started
    (as the constructor leaves it) or the loop body ran at least once; a
    block whose hash meets the target already is returned as it is,
    whatever its hash.  The call returns, with enough fuel, whenever the
    search ends. *)
Theorem mine_block_changes_only_nonce_and_hash `{Externals} (d : Z) (b : Block.t) :
  (forall n,
     let b' := Nat.iter n Block.mine_step b in
     Block.index b' = Block.index b /\
     Block.transactions b' = Block.transactions b /\
     Block.timestamp b' = Block.timestamp b /\
     Block.previous_hash b' = Block.previous_hash b) /\
  (forall fuel b',
     Block.mine_block fuel d b = Ret b' ->
     Block.index b' = Block.index b /\
     Block.transactions b' = Block.transactions b /\
     Block.timestamp b' = Block.timestamp b /\
     Block.previous_hash b' = Block.previous_hash b /\
     (Block.hash b = Block.calculate_hash b -> Block.hash b' = Block.calculate_hash b') /\
     (b' = b \/ Block.hash b' = Block.calculate_hash b')) /\
  (Block.meets_target d b = true -> forall fuel, Block.mine_block fuel d b = Ret b) /\
  (forall i txs ts prev fuel b',
     b = Block.init i txs ts prev ->
     Block.mine_block fuel d b = Ret b' ->
     Block.hash b' = Block.calculate_hash b') /\
  (Block.solvable d b -> exists fuel b', Block.mine_block fuel d b = Ret b').
Proof.
  split; [|split; [|split; [|split]]].
  - intros n. cbv zeta. induction n as [|n IH]; [now repeat split|].
    simpl. destruct IH as (? & ? & ? & ?). now repeat split.
  - intros fuel b' Hm. pose proof (mine_block_hash _ _ _ _ Hm) as Hh.
    apply mine_block_ret in Hm as (? & ? & ? & ? & _ & _ & Hor). now repeat split.
  - intros Hmeets fuel. now apply mine_block_met.
  - intros i txs ts prev fuel b' -> Hm.
    apply (mine_block_hash _ _ _ _ Hm), init_hash.
  - apply mine_block_solvable.
Qed.

Lemma mine_block_changes_only_nonce_and_hash_witness :
  let b := Block.init (H := demo_externals) 1 [TVote "V1" "Alice" 3.5%float] 4.5%float
             "00abcdefabcdefabcdefabcdefabcdefabcdefabcdefabcdefabcdefabcdefab" in
  let b' := Block.mk 1 [TVote "V1" "Alice" 3.5%float] 4.5%float
              "00abcdefabcdefabcdefabcdefabcdefabcdefabcdefabcdefabcdefabcdefab" 2
              "00abcdefabcdefabcdefabcdefabcdefabcdefabcdefabcdefabcdefabcdefab" in
  Block.mine_block (H := demo_externals) 5 2 b = Ret b' /\
  Block.hash b' = Block.calculate_hash (H := demo_externals) b' /\
  exists fuel b'', Block.mine_block (H := demo_externals) fuel 2 b = Ret b''.
Proof.
  intros b b'.
  destruct (mine_block_changes_only_nonce_and_hash (H := demo_externals) 2 b)
    as (_ & Hret & _ & _ & Hsolv).
  assert (Block.mine_block (H := demo_externals) 5 2 b = Ret b') as Hm
    by (vm_compute; reflexivity).
  split; [exact Hm|]. split.
  - apply (Hret 5%nat b' Hm). reflexivity.
  - apply Hsolv. exists 2%nat. vm_compute. reflexivity.
Defined.

(** C9, against the claim as written.  Block 1 of the mined chain with
    its nonce overwritten still has a hash that meets the target:
    [mine_block] returns it as it is, and its hash is not the digest of
    its fields.  The same holds, whatever the digest function, for a
    block whose hash has been set to ["00"]. *)
Lemma mine_block_returns_stale_hash :
  (Block.mine_block (H := demo_externals) 5 2 (Block.set_nonce 5 demo_vote_block)
   = Ret (Block.set_nonce 5 demo_vote_block) /\
   Block.hash (Block.set_nonce 5 demo_vote_block)
   <> Block.calculate_hash (H := demo_externals) (Block.set_nonce 5 demo_vote_block)) /\
  (exists b : Block.t,
     forall (E : Externals) (fuel : nat),
       @Block.mine_block E fuel 2 b = Ret b /\
       Block.hash b <> @Block.calculate_hash E b).
Proof.
  split.
  - split; [vm_compute; reflexivity|]. intros Heq. vm_compute in Heq. discriminate.
  - exists (Block.mk 1 [TVote "V1" "Alice" 3.5%float] 4.5%float "0" 7 "00").
    intros E fuel. split.
    + destruct fuel; reflexivity.
    + intros Heq. apply (f_equal String.length) in Heq.
      unfold Block.calculate_hash in Heq. rewrite sha256_hexdigest_length in Heq.
      discriminate.
Qed.

(** ** Casting a vote and registering *)

(** C6. A rejected [cast_vote] changes nothing.  In [voting_system.py]
    every result other than the success message is one of the four
    rejections and comes with the system as it was (registry, pending
    votes, pool and chain); in [app.py] a result with [success = False]
    comes with the system as it was. *)
Theorem rejected_cast_vote_changes_nothing (now : float) (voter_id token candidate : string)
    (svs : Standalone.VotingSystem.t) (avs : App.VotingSystem.t) :
  (snd (Standalone.VotingSystem.cast_vote now voter_id token candidate svs)
     <> Standalone.VotingSystem.msg_vote_cast ->
   fst (Standalone.VotingSystem.cast_vote now voter_id token candidate svs) = svs /\
   snd (Standalone.VotingSystem.cast_vote now voter_id token candidate svs)
     ∈ ["Voter not registered"; "Invalid token"; "Invalid candidate";
        "Voter has already cast a vote"]) /\
  (fst (snd (App.VotingSystem.cast_vote now voter_id token candidate avs)) = false ->
   fst (App.VotingSystem.cast_vote now voter_id token candidate avs) = avs).
Proof.
  split.
  - unfold Standalone.VotingSystem.cast_vote.
    destruct (Standalone.VotingSystem.voters svs !! voter_id) as [v|];
      [|intros _; split; [reflexivity | set_solver]].
    destruct (negb (Standalone.VotingSystem.verify_token _ _ _));
      [intros _; split; [reflexivity | set_solver]|].
    destruct (negb (bool_decide _)); [intros _; split; [reflexivity | set_solver]|].
    destruct (_ || _ || _); [intros _; split; [reflexivity | set_solver]|].
    simpl. intros Hne. now contradiction Hne.
  - unfold App.VotingSystem.cast_vote, App.VotingSystem.verify_voter, App.Blockchain.add_vote.
    destruct (App.VotingSystem.registered_voters avs !! voter_id) as [stored|]; [|reflexivity].
    destruct (negb (stored =? token)%string); [reflexivity|]. simpl.
    destruct (negb (bool_decide (candidate ∈ _))); [reflexivity|].
    destruct (bool_decide (voter_id ∈ _)); simpl; [|discriminate].
    intros _. now destruct avs.
Qed.

Lemma rejected_cast_vote_changes_nothing_witness :
  Standalone.VotingSystem.cast_vote 5.5%float "V1" "01abcdefabcd" "Bob" demo_standalone_system
  = (demo_standalone_system, "Voter has already cast a vote") /\
  fst (App.VotingSystem.cast_vote 5.5%float "V1" "wrong-token" "Alice" demo_app_system)
  = demo_app_system.
Proof.
  destruct (rejected_cast_vote_changes_nothing 5.5%float "V1" "01abcdefabcd" "Bob"
              demo_standalone_system demo_app_system) as [Hs _].
  destruct (rejected_cast_vote_changes_nothing 5.5%float "V1" "wrong-token" "Alice"
              demo_standalone_system demo_app_system) as [_ Ha].
  split.
  - destruct Hs as [Hs _]; [vm_compute; discriminate|].
    rewrite <- Hs at 2. reflexivity.
  - apply Ha. reflexivity.
Defined.

(** C7, as the code has it.  On a voter id that is already registered,
    [app.py]'s [register_voter] returns the failure
    [(False, "Voter already registered", None)] and the system unchanged,
    while [voting_system.py]'s [register_voter] raises
    [Exception("Voter already registered")] to its caller before any
    assignment.  On a fresh voter id that has a UTF-8 encoding both store
    the token for the voter (in [voting_system.py] with [voted = False])
    and return it; no other entry of the registry changes.  On a fresh
    voter id without one (a lone surrogate) the [encode()] of the token
    derivation raises [UnicodeEncodeError] in both, before anything is
    stored. *)
Theorem register_voter_results `{Externals} (now : float) (voter_id : string)
    (svs : Standalone.VotingSystem.t) (avs : App.VotingSystem.t) :
  let token := py_slice_to (sha256_hexdigest (voter_id +:+ str_of_float now)) 12 in
  let encodes := str_encodes (voter_id +:+ str_of_float now) in
  (is_Some (Standalone.VotingSystem.voters svs !! voter_id) ->
   Standalone.VotingSystem.register_voter now voter_id svs
   = Raise (Exception "Voter already registered")) /\
  (Standalone.VotingSystem.voters svs !! voter_id = None ->
   encodes = true ->
   exists svs',
     Standalone.VotingSystem.register_voter now voter_id svs = Ret (svs', token) /\
     Standalone.VotingSystem.voters svs' !! voter_id
     = Some (Standalone.VotingSystem.mkVoter token false) /\
     (forall other, other <> voter_id ->
        Standalone.VotingSystem.voters svs' !! other
        = Standalone.VotingSystem.voters svs !! other) /\
     Standalone.VotingSystem.blockchain svs' = Standalone.VotingSystem.blockchain svs /\
     Standalone.VotingSystem.pending_votes svs' = Standalone.VotingSystem.pending_votes svs) /\
  (Standalone.VotingSystem.voters svs !! voter_id = None ->
   encodes = false ->
   Standalone.VotingSystem.register_voter now voter_id svs = Raise UnicodeEncodeError) /\
  (is_Some (App.VotingSystem.registered_voters avs !! voter_id) ->
   App.VotingSystem.register_voter now voter_id avs
   = Ret (avs, (false, "Voter already registered", None))) /\
  (App.VotingSystem.registered_voters avs !! voter_id = None ->
   encodes = true ->
   exists avs',
     App.VotingSystem.register_voter now voter_id avs
     = Ret (avs', (true, "Registration successful", Some token)) /\
     App.VotingSystem.registered_voters avs' !! voter_id = Some token /\
     (forall other, other <> voter_id ->
        App.VotingSystem.registered_voters avs' !! other
        = App.VotingSystem.registered_voters avs !! other) /\
     App.VotingSystem.blockchain avs' = App.VotingSystem.blockchain avs) /\
  (App.VotingSystem.registered_voters avs !! voter_id = None ->
   encodes = false ->
   App.VotingSystem.register_voter now voter_id avs = Raise UnicodeEncodeError).
Proof.
  cbv zeta. repeat apply conj.
  - intros [v Hv]. unfold Standalone.VotingSystem.register_voter. now rewrite Hv.
  - intros Hv He. unfold Standalone.VotingSystem.register_voter. rewrite Hv, He.
    eexists. split; [reflexivity|]. simpl. split; [apply lookup_insert_eq|].
    split; [|done]. intros other Hne. now apply lookup_insert_ne.
  - intros Hv He. unfold Standalone.VotingSystem.register_voter. now rewrite Hv, He.
  - intros [v Hv]. unfold App.VotingSystem.register_voter. now rewrite Hv.
  - intros Hv He. unfold App.VotingSystem.register_voter. rewrite Hv, He.
    eexists. split; [reflexivity|]. simpl. split; [apply lookup_insert_eq|].
    split; [|done]. intros other Hne. now apply lookup_insert_ne.
  - intros Hv He. unfold App.VotingSystem.register_voter. now rewrite Hv, He.
Qed.

Lemma register_voter_results_witness :
  Standalone.VotingSystem.register_voter (H := demo_externals) 6.5%float "V1"
    demo_standalone_system
  = Raise (Exception "Voter already registered") /\
  App.VotingSystem.register_voter (H := demo_externals) 6.5%float "V1" demo_app_system
  = Ret (demo_app_system, (false, "Voter already registered", None)) /\
  (exists svs', Standalone.VotingSystem.register_voter (H := demo_externals) 6.5%float "V2"
                  demo_standalone_system = Ret (svs', "02abcdefabcd")) /\
  (exists avs', App.VotingSystem.register_voter (H := demo_externals) 6.5%float "V2"
                  demo_app_system
                = Ret (avs', (true, "Registration successful", Some "02abcdefabcd"))) /\
  Standalone.VotingSystem.register_voter (H := demo_externals) 6.5%float demo_surrogate
    demo_standalone_system
  = Raise UnicodeEncodeError /\
  App.VotingSystem.register_voter (H := demo_externals) 6.5%float demo_surrogate
    demo_app_system
  = Raise UnicodeEncodeError.
Proof.
  destruct (register_voter_results (H := demo_externals) 6.5%float "V1"
              demo_standalone_system demo_app_system) as (Hs & _ & _ & Ha & _).
  destruct (register_voter_results (H := demo_externals) 6.5%float "V2"
              demo_standalone_system demo_app_system) as (_ & Hs2 & _ & _ & Ha2 & _).
  destruct (register_voter_results (H := demo_externals) 6.5%float demo_surrogate
              demo_standalone_system demo_app_system) as (_ & _ & Hs3 & _ & _ & Ha3).
  split; [|split; [|split; [|split; [|split]]]].
  - apply Hs. vm_compute. eexists. reflexivity.
  - apply Ha. vm_compute. eexists. reflexivity.
  - destruct Hs2 as (svs' & Hr & _); [vm_compute; reflexivity | vm_compute; reflexivity |].
    exists svs'. exact Hr.
  - destruct Ha2 as (avs' & Hr & _); [vm_compute; reflexivity | vm_compute; reflexivity |].
    exists avs'. exact Hr.
  - apply Hs3; vm_compute; reflexivity.
  - apply Ha3; vm_compute; reflexivity.
Defined.

(** C7, against the claim as written: in [voting_system.py] a second
    registration of the same voter does not return a failure value, it
    raises. *)
Lemma register_voter_twice_raises :
  exists vs : Standalone.VotingSystem.t,
    Standalone.VotingSystem.voters vs !! "V1"
    = Some (Standalone.VotingSystem.mkVoter "01abcdefabcd" true) /\
    forall (E : Externals) (now : float),
      @Standalone.VotingSystem.register_voter E now "V1" vs
      = Raise (Exception "Voter already registered") /\
      forall r, @Standalone.VotingSystem.register_voter E now "V1" vs <> Ret r.
Proof.
  exists demo_standalone_system. split; [vm_compute; reflexivity|].
  intros E now.
  assert (@Standalone.VotingSystem.register_voter E now "V1" demo_standalone_system
          = Raise (Exception "Voter already registered")) as Hr.
  { unfold Standalone.VotingSystem.register_voter.
    replace (Standalone.VotingSystem.voters demo_standalone_system !! "V1")
      with (Some (Standalone.VotingSystem.mkVoter "01abcdefabcd" true))
      by (vm_compute; reflexivity).
    reflexivity. }
  split; [exact Hr|]. intros r. rewrite Hr. discriminate.
Qed.

(** ** Induction over the reachable states *)

Section Reachability.
Context `{Externals}.

(** The reachable states of [voting_system.py], by the changes the calls
    make: a property that holds after construction and survives a
    registration, an admitted vote and a mined block holds in all of them. *)
Lemma standalone_reachable_cases (P : Standalone.VotingSystem.t -> Prop) :
  (forall g, is_genesis 2 (TStr "Genesis Block") g ->
     P (Standalone.VotingSystem.mk (Standalone.Blockchain.mk [g] 2 []) ∅
          ["Alice"; "Bob"; "Charlie"; "Diana"] ∅)) ->
  (forall bc voters cands pv voter_id token,
     P (Standalone.VotingSystem.mk bc voters cands pv) ->
     voters !! voter_id = None ->
     P (Standalone.VotingSystem.mk bc
          (<[voter_id := Standalone.VotingSystem.mkVoter token false]> voters) cands pv)) ->
  (forall chain d pool voters cands pv voter_id candidate now v,
     let bc := Standalone.Blockchain.mk chain d pool in
     P (Standalone.VotingSystem.mk bc voters cands pv) ->
     voters !! voter_id = Some v ->
     Standalone.VotingSystem.voted v = false ->
     Standalone.Blockchain.has_voter_voted voter_id bc = false ->
     pv !! voter_id = None ->
     candidate ∈ cands ->
     P (Standalone.VotingSystem.mk
          (Standalone.Blockchain.mk chain d (pool ++ [TVote voter_id candidate now]))
          (<[voter_id := Standalone.VotingSystem.mkVoter (Standalone.VotingSystem.token v) true]>
             voters)
          cands (<[voter_id := TVote voter_id candidate now]> pv))) ->
  (forall chain d pool voters cands pv tail blk,
     P (Standalone.VotingSystem.mk (Standalone.Blockchain.mk chain d pool) voters cands pv) ->
     pool <> [] ->
     last chain = Some tail ->
     Block.index blk = Z.of_nat (length chain) ->
     Block.previous_hash blk = Block.hash tail ->
     Block.transactions blk = pool ->
     Block.hash blk = Block.calculate_hash blk ->
     Block.meets_target d blk = true ->
     P (Standalone.VotingSystem.mk (Standalone.Blockchain.mk (chain ++ [blk]) d [])
          voters cands ∅)) ->
  forall vs, standalone_reachable vs -> P vs.
Proof.
  intros Hinit Hreg Hcast Hmine vs Hr.
  induction Hr as [fuel now vs Hi | now voter_id vs vs' token Hr IH Hreg'
                  | now voter_id token candidate vs Hr IH
                  | fuel now vs vs' msg Hr IH Hm].
  - unfold Standalone.VotingSystem.init, Standalone.Blockchain.init,
      Standalone.Blockchain.create_genesis_block in Hi. simpl in Hi.
    destruct (Block.mine_block _ _ _) as [g| |] eqn:Hg; simpl in Hi; try discriminate.
    injection Hi as <-. apply Hinit. now apply mine_genesis in Hg.
  - unfold Standalone.VotingSystem.register_voter in Hreg'.
    destruct (Standalone.VotingSystem.voters vs !! voter_id) eqn:Hv; [discriminate|].
    destruct (str_encodes _); [|discriminate].
    injection Hreg' as <- _. destruct vs as [bc voters cands pv]. now apply Hreg.
  - unfold Standalone.VotingSystem.cast_vote.
    destruct (Standalone.VotingSystem.voters vs !! voter_id) as [v|] eqn:Hv; [|exact IH].
    destruct (negb (Standalone.VotingSystem.verify_token _ _ _)); [exact IH|].
    destruct (bool_decide (candidate ∈ _)) eqn:Hc; simpl; [|exact IH].
    apply bool_decide_eq_true in Hc.
    destruct (Standalone.VotingSystem.voted v) eqn:Hvoted; simpl; [exact IH|].
    destruct (Standalone.Blockchain.has_voter_voted _ _) eqn:Hbc; simpl; [exact IH|].
    destruct (bool_decide (is_Some _)) eqn:Hpv; simpl; [exact IH|].
    apply bool_decide_eq_false in Hpv. rewrite <- eq_None_not_Some in Hpv.
    destruct vs as [[chain d pool] voters cands pv]. simpl in *.
    now apply (Hcast chain d pool voters cands pv voter_id candidate now v).
  - unfold Standalone.VotingSystem.mine_votes in Hm.
    destruct vs as [[chain d pool] voters cands pv]. simpl in Hm.
    destruct pool as [|t0 pool].
    + simpl in Hm. injection Hm as <- _. exact IH.
    + unfold Standalone.Blockchain.mine_pending_transactions,
        Standalone.Blockchain.get_latest_block in Hm. simpl in Hm.
      destruct (last chain) as [tail|] eqn:Hl; simpl in Hm; [|discriminate].
      destruct (Block.mine_block _ _ _) as [blk| |] eqn:Hb; simpl in Hm; try discriminate.
      injection Hm as <- _.
      pose proof (mine_block_hash _ _ _ _ Hb (init_hash _ _ _ _)) as Hh.
      apply mine_block_ret in Hb as (Hi & Htx & _ & Hp & Hmt & _).
      now apply (Hmine chain d (t0 :: pool) voters cands pv tail blk).
Qed.

(** The same for [app.py]. *)
Lemma app_reachable_cases (P : App.VotingSystem.t -> Prop) :
  (forall g, is_genesis 2 (TMessage "Genesis Block") g ->
     P (App.VotingSystem.mk (App.Blockchain.mk [g] 2 [] ∅) ∅
          ["Alice"; "Bob"; "Charlie"; "Diana"; "Edward"])) ->
  (forall bc voters cands voter_id token,
     P (App.VotingSystem.mk bc voters cands) ->
     voters !! voter_id = None ->
     P (App.VotingSystem.mk bc (<[voter_id := token]> voters) cands)) ->
  (forall chain d pool voted voters cands voter_id candidate now,
     P (App.VotingSystem.mk (App.Blockchain.mk chain d pool voted) voters cands) ->
     is_Some (voters !! voter_id) ->
     voter_id ∉ voted ->
     candidate ∈ cands ->
     P (App.VotingSystem.mk
          (App.Blockchain.mk chain d (pool ++ [TVote voter_id candidate now])
             ({[voter_id]} ∪ voted))
          voters cands)) ->
  (forall chain d pool voted voters cands tail blk,
     P (App.VotingSystem.mk (App.Blockchain.mk chain d pool voted) voters cands) ->
     pool <> [] ->
     last chain = Some tail ->
     Block.index blk = Z.of_nat (length chain) ->
     Block.previous_hash blk = Block.hash tail ->
     Block.transactions blk = pool ->
     Block.hash blk = Block.calculate_hash blk ->
     Block.meets_target d blk = true ->
     P (App.VotingSystem.mk (App.Blockchain.mk (chain ++ [blk]) d [] voted) voters cands)) ->
  forall vs, app_reachable vs -> P vs.
Proof.
  intros Hinit Hreg Hcast Hmine vs Hr.
  induction Hr as [fuel now vs Hi | now voter_id vs vs' r Hr IH Hreg'
                  | now voter_id token candidate vs Hr IH
                  | fuel now vs vs' r Hr IH Hm].
  - unfold App.VotingSystem.init, App.Blockchain.init,
      App.Blockchain.create_genesis_block in Hi. simpl in Hi.
    destruct (Block.mine_block _ _ _) as [g| |] eqn:Hg; simpl in Hi; try discriminate.
    injection Hi as <-. apply Hinit. now apply mine_genesis in Hg.
  - unfold App.VotingSystem.register_voter in Hreg'.
    destruct (App.VotingSystem.registered_voters vs !! voter_id) eqn:Hv;
      [now injection Hreg' as <- _|].
    destruct (str_encodes _); [|discriminate].
    injection Hreg' as <- _. destruct vs as [bc voters cands]. now apply Hreg.
  - unfold App.VotingSystem.cast_vote, App.VotingSystem.verify_voter, App.Blockchain.add_vote.
    destruct (App.VotingSystem.registered_voters vs !! voter_id) as [stored|] eqn:Hv;
      [|exact IH].
    destruct (negb (stored =? token)%string); [exact IH|]. simpl.
    destruct (bool_decide (candidate ∈ _)) eqn:Hc; simpl; [|exact IH].
    apply bool_decide_eq_true in Hc.
    destruct (bool_decide (voter_id ∈ _)) eqn:Hvd; simpl;
      [destruct vs as [[chain d pool voted] voters cands]; exact IH|].
    apply bool_decide_eq_false in Hvd.
    destruct vs as [[chain d pool voted] voters cands]. simpl in *.
    now apply (Hcast chain d pool voted voters cands voter_id candidate now).
  - unfold App.VotingSystem.mine_votes in Hm.
    destruct vs as [[chain d pool voted] voters cands]. simpl in Hm.
    destruct pool as [|t0 pool].
    + simpl in Hm. injection Hm as <- _. exact IH.
    + unfold App.Blockchain.mine_pending_transactions,
        App.Blockchain.get_latest_block in Hm. simpl in Hm.
      destruct (last chain) as [tail|] eqn:Hl; simpl in Hm; [|discriminate].
      destruct (Block.mine_block _ _ _) as [blk| |] eqn:Hb; simpl in Hm; try discriminate.
      injection Hm as <- _.
      pose proof (mine_block_hash _ _ _ _ Hb (init_hash _ _ _ _)) as Hh.
      apply mine_block_ret in Hb as (Hi & Htx & _ & Hp & Hmt & _).
      now apply (Hmine chain d (t0 :: pool) voted voters cands tail blk).
Qed.

End Reachability.

(** Every reachable ledger has a tail block and difficulty 2, which is
    what mining a new block asks of it. *)
Lemma standalone_reachable_ledger `{Externals} (vs : Standalone.VotingSystem.t) :
  standalone_reachable vs ->
  (exists tail, last (Standalone.Blockchain.chain (Standalone.VotingSystem.blockchain vs))
                = Some tail) /\
  Standalone.Blockchain.difficulty (Standalone.VotingSystem.blockchain vs) = 2.
Proof.
  revert vs. apply standalone_reachable_cases; simpl; auto.
  - intros g _. split; [now exists g | reflexivity].
  - intros chain d pool voters cands pv tail blk [_ Hd] _ _ _ _ _ _ _.
    split; [exists blk; apply last_snoc | exact Hd].
Qed.

Lemma app_reachable_ledger `{Externals} (vs : App.VotingSystem.t) :
  app_reachable vs ->
  (exists tail, last (App.Blockchain.chain (App.VotingSystem.blockchain vs)) = Some tail) /\
  App.Blockchain.difficulty (App.VotingSystem.blockchain vs) = 2.
Proof.
  revert vs. apply app_reachable_cases; simpl; auto.
  - intros g _. split; [now exists g | reflexivity].
  - intros chain d pool voted voters cands tail blk [_ Hd] _ _ _ _ _ _ _.
    split; [exists blk; apply last_snoc | exact Hd].
Qed.

(** ** The tally *)

Lemma chain_transactions_app (chain : list Block.t) (blk : Block.t) :
  chain_transactions (chain ++ [blk]) = chain_transactions chain ++ Block.transactions blk.
Proof.
  unfold chain_transactions. rewrite map_app, concat_app. simpl. now rewrite app_nil_r.
Qed.

Lemma votes_for_app c (l1 l2 : list Transaction) :
  votes_for c (l1 ++ l2) = (votes_for c l1 + votes_for c l2)%nat.
Proof. unfold votes_for. now rewrite filter_app, length_app. Qed.

Lemma votes_for_cons c (t : Transaction) (l : list Transaction) :
  votes_for c (t :: l)
  = ((if decide (tx_candidate t = Some c) then 1 else 0) + votes_for c l)%nat.
Proof.
  unfold votes_for. destruct (decide (tx_candidate t = Some c)) as [Heq|Hne].
  - now rewrite filter_cons_True.
  - now rewrite filter_cons_False.
Qed.

(** Folding [count_transaction] adds to each entry the votes naming it. *)
Lemma count_fold (txs : list Transaction) (counts : gmap string nat) (c : string) :
  foldl count_transaction counts txs !! c
  = match votes_for c txs with
    | O => counts !! c
    | S k => Some (default 0 (counts !! c) + S k)%nat
    end.
Proof.
  revert counts; induction txs as [|t txs IH]; intros counts; [reflexivity|].
  simpl. rewrite IH, votes_for_cons. unfold count_transaction.
  destruct (tx_candidate t) as [c'|] eqn:Hc.
  - destruct (decide (Some c' = Some c)) as [[= ->]|Hne].
    + rewrite lookup_insert_eq. simpl.
      destruct (votes_for c txs); [f_equal; lia | f_equal; lia].
    + rewrite lookup_insert_ne by congruence. reflexivity.
  - destruct (decide (None = Some c)); [discriminate|]. reflexivity.
Qed.

Lemma count_fold_empty (txs : list Transaction) (c : string) :
  foldl count_transaction ∅ txs !! c = tally_entry (votes_for c txs).
Proof.
  rewrite count_fold, lookup_empty. unfold tally_entry. simpl.
  destruct (votes_for c txs); reflexivity.
Qed.

Lemma app_get_results_lookup (bc : App.Blockchain.t) (c : string) :
  App.Blockchain.get_results bc !! c
  = tally_entry (votes_for c (chain_transactions (drop 1 (App.Blockchain.chain bc)))
                 + votes_for c (App.Blockchain.pending_transactions bc)).
Proof.
  unfold App.Blockchain.get_results. rewrite <- foldl_app, count_fold_empty.
  now rewrite votes_for_app.
Qed.

Lemma standalone_get_vote_counts_lookup (bc : Standalone.Blockchain.t) (c : string) :
  Standalone.Blockchain.get_vote_counts bc !! c
  = tally_entry (votes_for c (chain_transactions (Standalone.Blockchain.chain bc))).
Proof. apply count_fold_empty. Qed.

(** The first block of a reachable chain is the genesis block, and it
    names no candidate. *)
Lemma standalone_reachable_genesis `{Externals} (vs : Standalone.VotingSystem.t) :
  standalone_reachable vs ->
  exists g rest,
    Standalone.Blockchain.chain (Standalone.VotingSystem.blockchain vs) = g :: rest /\
    Block.transactions g = [TStr "Genesis Block"].
Proof.
  revert vs. apply standalone_reachable_cases; simpl.
  - intros g Hg. exists g, []. split; [reflexivity | apply Hg].
  - auto.
  - auto.
  - intros chain d pool voters cands pv tail blk (g & rest & -> & Hg) _ _ _ _ _ _ _.
    exists g, (rest ++ [blk]). now split.
Qed.

(** C2, as the code has it.  [app.py]'s [get_results] gives each candidate
    the number of vote records naming it in the blocks after the genesis
    block plus the number in the pending pool, and no entry to a candidate
    with none.  [voting_system.py]'s [get_results] ([get_vote_counts])
    gives each candidate the number of vote records naming it in the mined
    blocks only (the genesis marker names none): the pending pool is not
    counted. *)
Theorem tally_counts `{Externals} (c : string)
    (svs : Standalone.VotingSystem.t) (avs : App.VotingSystem.t) :
  App.VotingSystem.get_results avs !! c
  = tally_entry
      (votes_for c (chain_transactions
                      (drop 1 (App.Blockchain.chain (App.VotingSystem.blockchain avs))))
       + votes_for c (App.Blockchain.pending_transactions (App.VotingSystem.blockchain avs))) /\
  Standalone.VotingSystem.get_results svs !! c
  = tally_entry
      (votes_for c (chain_transactions
                      (Standalone.Blockchain.chain (Standalone.VotingSystem.blockchain svs)))) /\
  (standalone_reachable svs ->
   Standalone.VotingSystem.get_results svs !! c
   = tally_entry
       (votes_for c (chain_transactions
                       (drop 1 (Standalone.Blockchain.chain
                                  (Standalone.VotingSystem.blockchain svs)))))).
Proof.
  split; [apply app_get_results_lookup|].
  split; [apply standalone_get_vote_counts_lookup|].
  intros Hr. unfold Standalone.VotingSystem.get_results.
  rewrite standalone_get_vote_counts_lookup.
  destruct (standalone_reachable_genesis svs Hr) as (g & rest & -> & Hg).
  simpl. unfold chain_transactions at 1. simpl. fold (chain_transactions rest).
  rewrite Hg. reflexivity.
Qed.

(** The demonstration systems are reachable: construct, register [V1],
    cast the vote, mine. *)
Lemma demo_standalone_system_reachable :
  standalone_reachable (H := demo_externals) demo_standalone_system.
Proof.
  assert (standalone_reachable (H := demo_externals) demo_standalone_fresh) as H0.
  { apply (sr_init 3 1.5%float). vm_compute. reflexivity. }
  assert (standalone_reachable (H := demo_externals) demo_standalone_registered) as H1.
  { apply (sr_register 2.5%float "V1" demo_standalone_fresh _ "01abcdefabcd" H0).
    vm_compute. reflexivity. }
  pose proof (sr_cast_vote 3.5%float "V1" "01abcdefabcd" "Alice" _ H1) as H2.
  replace (fst _) with demo_standalone_system in H2 by (vm_compute; reflexivity).
  exact H2.
Qed.

Lemma demo_standalone_mined_reachable :
  standalone_reachable (H := demo_externals) demo_standalone_mined.
Proof.
  apply (sr_mine_votes 5 4.5%float demo_standalone_system _ "Votes mined successfully!").
  - apply demo_standalone_system_reachable.
  - vm_compute. reflexivity.
Qed.

Lemma demo_app_registered_reachable :
  app_reachable (H := demo_externals) demo_app_registered.
Proof.
  apply (ar_register 2.5%float "V1" demo_app_fresh _
           (true, "Registration successful", Some "01abcdefabcd")).
  - apply (ar_init 3 1.5%float). vm_compute. reflexivity.
  - vm_compute. reflexivity.
Qed.

Lemma demo_app_system_reachable :
  app_reachable (H := demo_externals) demo_app_system.
Proof.
  pose proof (ar_cast_vote 3.5%float "V1" "01abcdefabcd" "Alice" _
                demo_app_registered_reachable) as H2.
  replace (fst _) with demo_app_system in H2 by (vm_compute; reflexivity).
  exact H2.
Qed.

Lemma demo_app_mined_reachable :
  app_reachable (H := demo_externals) demo_app_mined.
Proof.
  apply (ar_mine_votes 5 4.5%float demo_app_system _ (true, "Mined 1 votes into block #1")).
  - apply demo_app_system_reachable.
  - vm_compute. reflexivity.
Qed.

Lemma tally_counts_witness :
  App.VotingSystem.get_results demo_app_system !! "Alice" = Some 1%nat /\
  Standalone.VotingSystem.get_results demo_standalone_mined !! "Alice" = Some 1%nat /\
  Standalone.VotingSystem.get_results demo_standalone_mined !! "Bob" = None.
Proof.
  destruct (tally_counts (H := demo_externals) "Alice" demo_standalone_mined demo_app_system)
    as (Ha & _ & Hs).
  destruct (tally_counts (H := demo_externals) "Bob" demo_standalone_mined demo_app_system)
    as (_ & _ & Hb).
  split; [|split].
  - rewrite Ha. reflexivity.
  - rewrite Hs; [reflexivity | apply demo_standalone_mined_reachable].
  - rewrite Hb; [reflexivity | apply demo_standalone_mined_reachable].
Defined.

(** C2, against the claim as written: in [voting_system.py], after [V1]
    has voted for Alice and before mining, the vote is in the pending pool
    and the tally has no entry for Alice. *)
Lemma standalone_tally_misses_pending_vote :
  standalone_reachable (H := demo_externals) demo_standalone_system /\
  Standalone.Blockchain.pending_transactions
    (Standalone.VotingSystem.blockchain demo_standalone_system)
  = [TVote "V1" "Alice" 3.5%float] /\
  Standalone.VotingSystem.get_results demo_standalone_system !! "Alice" = None /\
  Standalone.VotingSystem.get_results demo_standalone_system = ∅.
Proof.
  split; [apply demo_standalone_system_reachable|].
  split; [reflexivity|]. split; vm_compute; reflexivity.
Qed.

(** ** One vote per voter *)

Lemma votes_of_app v (l1 l2 : list Transaction) :
  votes_of v (l1 ++ l2) = votes_of v l1 ++ votes_of v l2.
Proof. apply filter_app. Qed.

Lemma votes_of_vote v voter_id candidate now :
  votes_of v [TVote voter_id candidate now]
  = if decide (voter_id = v) then [TVote voter_id candidate now] else [].
Proof.
  unfold votes_of. destruct (decide (voter_id = v)) as [->|Hne].
  - now rewrite filter_cons_True.
  - rewrite filter_cons_False; [reflexivity | simpl; congruence].
Qed.

Lemma standalone_reachable_one_vote `{Externals} (vs : Standalone.VotingSystem.t) :
  standalone_reachable vs -> standalone_one_vote vs.
Proof.
  revert vs. apply standalone_reachable_cases; unfold standalone_one_vote, standalone_records;
    simpl.
  - intros g (_ & _ & Hg & _) v. unfold chain_transactions. simpl. rewrite Hg. simpl.
    unfold votes_of. rewrite filter_cons_False by (simpl; congruence).
    rewrite filter_nil. simpl. split; [lia | congruence].
  - intros bc voters cands pv voter_id token IH Hnone v.
    destruct (IH v) as [Hle Hvoted]. split; [exact Hle|].
    intros Hne. destruct (Hvoted Hne) as (x & Hx & Hxv).
    exists x. split; [|exact Hxv].
    rewrite lookup_insert_ne; [exact Hx | congruence].
  - intros chain d pool voters cands pv voter_id candidate now x IH Hx Hxv _ _ _ v.
    destruct (IH v) as [Hle Hvoted].
    rewrite app_assoc, votes_of_app, votes_of_vote.
    destruct (decide (voter_id = v)) as [<-|Hne].
    + assert (votes_of voter_id (chain_transactions chain ++ pool) = []) as Hnil.
      { destruct (votes_of voter_id (chain_transactions chain ++ pool)) eqn:E; [reflexivity|].
        destruct Hvoted as (y & Hy & Hyv); [congruence|]. congruence. }
      rewrite Hnil. simpl. split; [lia|]. intros _.
      eexists. split; [apply lookup_insert_eq | reflexivity].
    + rewrite app_nil_r. split; [exact Hle|]. intros Hv.
      destruct (Hvoted Hv) as (y & Hy & Hyv). exists y.
      rewrite lookup_insert_ne; [now split | exact Hne].
  - intros chain d pool voters cands pv tail blk IH _ _ _ _ Htx _ _ v.
    rewrite chain_transactions_app, Htx, app_nil_r. apply IH.
Qed.

Lemma app_reachable_one_vote `{Externals} (vs : App.VotingSystem.t) :
  app_reachable vs -> app_one_vote vs.
Proof.
  revert vs. apply app_reachable_cases; unfold app_one_vote, app_records; simpl.
  - intros g (_ & _ & Hg & _) v. unfold chain_transactions. simpl. rewrite Hg. simpl.
    unfold votes_of. rewrite filter_cons_False by (simpl; congruence).
    rewrite filter_nil. simpl. split; [lia | congruence].
  - auto.
  - intros chain d pool voted voters cands voter_id candidate now IH _ Hnot _ v.
    destruct (IH v) as [Hle Hvoted].
    rewrite app_assoc, votes_of_app, votes_of_vote.
    destruct (decide (voter_id = v)) as [<-|Hne].
    + assert (votes_of voter_id (chain_transactions chain ++ pool) = []) as Hnil.
      { destruct (votes_of voter_id (chain_transactions chain ++ pool)) eqn:E; [reflexivity|].
        contradiction Hnot. apply Hvoted. congruence. }
      rewrite Hnil. simpl. split; [lia|]. intros _.
      apply elem_of_union_l, elem_of_singleton. reflexivity.
    + rewrite app_nil_r. split; [exact Hle|]. intros Hv.
      apply elem_of_union_r, Hvoted, Hv.
  - intros chain d pool voted voters cands tail blk IH _ _ _ _ Htx _ _ v.
    rewrite chain_transactions_app, Htx, app_nil_r. apply IH.
Qed.

(** C1. In every state reached from a new system by [register_voter],
    [cast_vote] and [mine_votes], each voter id has at most one vote record
    in the mined blocks and the pending pool together.  A voter whose vote
    is in a mined block cannot vote again: [cast_vote] leaves the system as
    it was and answers with a rejection, which for a valid token and
    candidate is the already-voted one. *)
Theorem one_vote_per_voter `{Externals} (voter_id : string)
    (svs : Standalone.VotingSystem.t) (avs : App.VotingSystem.t) :
  (standalone_reachable svs ->
   (length (votes_of voter_id (standalone_records svs)) <= 1)%nat /\
   (votes_of voter_id
      (chain_transactions (Standalone.Blockchain.chain (Standalone.VotingSystem.blockchain svs)))
    <> [] ->
    forall now token candidate,
      let r := Standalone.VotingSystem.cast_vote now voter_id token candidate svs in
      fst r = svs /\
      snd r <> Standalone.VotingSystem.msg_vote_cast /\
      (Standalone.VotingSystem.verify_token voter_id token svs = true ->
       candidate ∈ Standalone.VotingSystem.candidates svs ->
       snd r = "Voter has already cast a vote"))) /\
  (app_reachable avs ->
   (length (votes_of voter_id (app_records avs)) <= 1)%nat /\
   (votes_of voter_id
      (chain_transactions (App.Blockchain.chain (App.VotingSystem.blockchain avs)))
    <> [] ->
    forall now token candidate,
      let r := App.VotingSystem.cast_vote now voter_id token candidate avs in
      fst r = avs /\
      fst (snd r) = false /\
      (fst (App.VotingSystem.verify_voter voter_id token avs) = true ->
       candidate ∈ App.VotingSystem.candidates avs ->
       snd r = (false, "This voter has already voted")))).
Proof.
  split; intros Hr.
  - pose proof (standalone_reachable_one_vote svs Hr voter_id) as [Hle Hvoted].
    split; [exact Hle|]. intros Hmined now token candidate. cbv zeta.
    destruct Hvoted as (v & Hv & Hvv).
    { unfold standalone_records. rewrite votes_of_app. intros Happ.
      apply app_eq_nil in Happ as [Hn _]. contradiction. }
    unfold Standalone.VotingSystem.cast_vote. rewrite Hv.
    destruct (Standalone.VotingSystem.verify_token voter_id token svs); simpl;
      [|repeat split; [discriminate | discriminate]].
    destruct (bool_decide (candidate ∈ _)) eqn:Hc; simpl.
    + rewrite Hvv. simpl. repeat split; discriminate.
    + apply bool_decide_eq_false in Hc. repeat split; [discriminate | contradiction].
  - pose proof (app_reachable_one_vote avs Hr voter_id) as [Hle Hvoted].
    split; [exact Hle|]. intros Hmined now token candidate. cbv zeta.
    assert (voter_id ∈ App.Blockchain.voted_voters (App.VotingSystem.blockchain avs)) as Hin.
    { apply Hvoted. unfold app_records. rewrite votes_of_app. intros Happ.
      apply app_eq_nil in Happ as [Hn _]. contradiction. }
    unfold App.VotingSystem.cast_vote.
    destruct (App.VotingSystem.verify_voter voter_id token avs) as [[|] m]; simpl;
      [|repeat split; discriminate].
    destruct (bool_decide (candidate ∈ _)) eqn:Hc; simpl.
    + unfold App.Blockchain.add_vote. rewrite bool_decide_eq_true_2 by exact Hin.
      destruct avs. repeat split.
    + apply bool_decide_eq_false in Hc. repeat split. contradiction.
Qed.

Lemma one_vote_per_voter_witness :
  (length (votes_of "V1" (standalone_records demo_standalone_mined)) <= 1)%nat /\
  Standalone.VotingSystem.cast_vote 5.5%float "V1" "01abcdefabcd" "Bob" demo_standalone_mined
  = (demo_standalone_mined, "Voter has already cast a vote") /\
  (length (votes_of "V1" (app_records demo_app_mined)) <= 1)%nat /\
  App.VotingSystem.cast_vote 5.5%float "V1" "01abcdefabcd" "Bob" demo_app_mined
  = (demo_app_mined, (false, "This voter has already voted")).
Proof.
  destruct (one_vote_per_voter (H := demo_externals) "V1" demo_standalone_mined demo_app_mined)
    as [Hs Ha].
  destruct (Hs demo_standalone_mined_reachable) as [Hs1 Hs2].
  destruct (Ha demo_app_mined_reachable) as [Ha1 Ha2].
  split; [exact Hs1|]. split; [|split; [exact Ha1|]].
  - destruct (Hs2 ltac:(vm_compute; discriminate) 5.5%float "01abcdefabcd" "Bob")
      as (Hfst & _ & Hsnd).
    rewrite (surjective_pairing (Standalone.VotingSystem.cast_vote _ _ _ _ _)).
    rewrite Hfst, Hsnd; [reflexivity | vm_compute; reflexivity |].
    apply (bool_decide_eq_true_1 _). vm_compute. reflexivity.
  - destruct (Ha2 ltac:(vm_compute; discriminate) 5.5%float "01abcdefabcd" "Bob")
      as (Hfst & _ & Hsnd).
    rewrite (surjective_pairing (App.VotingSystem.cast_vote _ _ _ _ _)).
    rewrite Hfst, Hsnd; [reflexivity | vm_compute; reflexivity |].
    apply (bool_decide_eq_true_1 _). vm_compute. reflexivity.
Defined.

(** ** The two pending stores of voting_system.py *)

Lemma standalone_reachable_in_sync `{Externals} (vs : Standalone.VotingSystem.t) :
  standalone_reachable vs -> pending_in_sync vs.
Proof.
  revert vs. apply standalone_reachable_cases; unfold pending_in_sync; simpl.
  - intros g _ v tx. rewrite lookup_empty. split; [discriminate|].
    intros [Hin _]. now apply elem_of_nil in Hin.
  - auto.
  - intros chain d pool voters cands pv voter_id candidate now x IH _ _ _ Hpv _ v tx.
    rewrite elem_of_app, list_elem_of_singleton. split.
    + destruct (decide (voter_id = v)) as [<-|Hne].
      * rewrite lookup_insert_eq. intros [= <-]. split; [now right | reflexivity].
      * rewrite lookup_insert_ne by exact Hne. intros Hl.
        apply IH in Hl as [Hin Hv]. split; [now left | exact Hv].
    + intros [[Hin | ->] Hv].
      * assert (pv !! v = Some tx) as Hl by (apply IH; now split).
        rewrite lookup_insert_ne; [exact Hl | congruence].
      * simpl in Hv. injection Hv as <-. apply lookup_insert_eq.
  - intros chain d pool voters cands pv tail blk _ _ _ _ _ _ _ _ v tx.
    rewrite lookup_empty. split; [discriminate|].
    intros [Hin _]. now apply elem_of_nil in Hin.
Qed.

(** C10. In every state reached through [VotingSystem]'s operations the
    keys of [pending_votes] are the voter ids of the records in the
    ledger's pending pool, and each key holds the very record the pool
    holds for that voter.  [mine_votes] empties [pending_votes] exactly
    when [mine_pending_transactions] reported success, and then the pool
    is empty too. *)
Theorem pending_stores_in_sync `{Externals} (svs : Standalone.VotingSystem.t) :
  standalone_reachable svs ->
  let bc := Standalone.VotingSystem.blockchain svs in
  (dom (Standalone.VotingSystem.pending_votes svs) : gset string)
  = list_to_set (omap tx_voter_id (Standalone.Blockchain.pending_transactions bc)) /\
  pending_in_sync svs /\
  (forall fuel now bc' ok,
     Standalone.Blockchain.mine_pending_transactions fuel now bc = Ret (bc', ok) ->
     exists svs' msg,
       Standalone.VotingSystem.mine_votes fuel now svs = Ret (svs', msg) /\
       Standalone.VotingSystem.blockchain svs' = bc' /\
       Standalone.VotingSystem.pending_votes svs'
       = (if ok then ∅ else Standalone.VotingSystem.pending_votes svs) /\
       (ok = true -> Standalone.Blockchain.pending_transactions bc' = []) /\
       (ok = false -> bc' = bc)).
Proof.
  intros Hr bc. pose proof (standalone_reachable_in_sync svs Hr) as Hsync.
  split; [|split; [exact Hsync|]].
  - apply set_eq. intros v.
    rewrite elem_of_dom, elem_of_list_to_set, list_elem_of_omap. split.
    + intros [tx Htx]. exists tx. now apply Hsync.
    + intros (tx & Hin & Hv). exists tx. apply Hsync. now split.
  - intros fuel now bc' ok Hm. unfold Standalone.VotingSystem.mine_votes.
    fold bc. rewrite Hm. simpl.
    unfold Standalone.Blockchain.mine_pending_transactions in Hm.
    destruct ok; eexists; eexists; (split; [reflexivity|]); simpl;
      (split; [reflexivity|]); (split; [reflexivity|]).
    + split; [|discriminate]. intros _.
      destruct (Standalone.Blockchain.pending_transactions bc); [discriminate|].
      destruct (Standalone.Blockchain.get_latest_block bc); simpl in Hm; try discriminate.
      destruct (Block.mine_block _ _ _); simpl in Hm; try discriminate.
      now injection Hm as <-.
    + split; [discriminate|]. intros _.
      destruct (Standalone.Blockchain.pending_transactions bc); [now injection Hm as <-|].
      destruct (Standalone.Blockchain.get_latest_block bc); simpl in Hm; try discriminate.
      destruct (Block.mine_block _ _ _); simpl in Hm; discriminate.
Qed.

Lemma pending_stores_in_sync_witness :
  (dom (Standalone.VotingSystem.pending_votes demo_standalone_system) : gset string)
  = list_to_set (omap tx_voter_id [TVote "V1" "Alice" 3.5%float]) /\
  pending_in_sync demo_standalone_system.
Proof.
  destruct (pending_stores_in_sync (H := demo_externals) demo_standalone_system
              demo_standalone_system_reachable) as (Hdom & Hsync & _).
  split; [exact Hdom | exact Hsync].
Defined.

(** ** Validating the chain *)

Section Validation.
Context `{Externals}.

(** What [check_block] answers at an index inside the chain. *)
Lemma check_block_spec (chain : list Block.t) (i : nat) :
  (1 <= i < length chain)%nat ->
  (Standalone.Blockchain.check_block chain i = None /\ ~ fails_at chain i) \/
  (Standalone.Blockchain.check_block chain i = Some (Standalone.Blockchain.msg_hash_invalid i) /\
   hash_mismatch chain i) \/
  (Standalone.Blockchain.check_block chain i = Some (Standalone.Blockchain.msg_previous_hash i) /\
   ~ hash_mismatch chain i /\ link_mismatch chain i).
Proof.
  intros Hi. unfold Standalone.Blockchain.check_block.
  destruct (lookup_lt_is_Some_2 chain i) as [cur Hcur]; [lia|].
  destruct (lookup_lt_is_Some_2 chain (i - 1)) as [prev Hprev]; [lia|].
  rewrite Hcur, Hprev.
  destruct (String.eqb_spec (Block.hash cur) (Block.calculate_hash cur)) as [Hh|Hh]; simpl.
  - destruct (String.eqb_spec (Block.previous_hash cur) (Block.hash prev)) as [Hl|Hl]; simpl.
    + left. split; [reflexivity|]. intros [(c & Hc & Hne) | (c & p & Hc & Hp & Hne)];
        congruence.
    + right. right. split; [reflexivity|]. split.
      * intros (c & Hc & Hne). congruence.
      * now exists cur, prev.
  - right. left. split; [reflexivity|]. now exists cur.
Qed.

(** The loop over the indices [a, a + 1, ..., a + n - 1]. *)
Lemma is_chain_valid_loop_seq (chain : list Block.t) (a n : nat) :
  (Standalone.Blockchain.is_chain_valid_loop chain (seq a n) = (true, []) /\
   forall i, (a <= i < a + n)%nat -> Standalone.Blockchain.check_block chain i = None) \/
  (exists i msg,
     (a <= i < a + n)%nat /\
     (forall j, (a <= j < i)%nat -> Standalone.Blockchain.check_block chain j = None) /\
     Standalone.Blockchain.check_block chain i = Some msg /\
     Standalone.Blockchain.is_chain_valid_loop chain (seq a n) = (false, [msg])).
Proof.
  revert a; induction n as [|n IH]; intros a; simpl.
  - left. split; [reflexivity|]. intros i Hi. lia.
  - destruct (Standalone.Blockchain.check_block chain a) as [msg|] eqn:Ha.
    + right. exists a, msg. repeat split; [lia | lia | | exact Ha].
      intros j Hj. lia.
    + destruct (IH (S a)) as [[Hv Hall] | (i & msg & Hi & Hpre & Hc & Hv)].
      * left. split; [exact Hv|]. intros i Hi.
        destruct (decide (i = a)) as [->|Hne]; [exact Ha | apply Hall; lia].
      * right. exists i, msg. repeat split; [lia | lia | | exact Hc | exact Hv].
        intros j Hj. destruct (decide (j = a)) as [->|Hne]; [exact Ha | apply Hpre; lia].
Qed.

(** [app.py]'s loop computes the boolean of [blockchain.py]'s loop. *)
Lemma app_loop_is_standalone_loop (chain : list Block.t) (range : list nat) :
  App.Blockchain.is_chain_valid_loop chain range
  = fst (Standalone.Blockchain.is_chain_valid_loop chain range).
Proof.
  induction range as [|i range IH]; [reflexivity|]. simpl.
  unfold App.Blockchain.block_fails, Standalone.Blockchain.check_block.
  destruct (chain !! i) as [cur|]; [|exact IH].
  destruct (chain !! (i - 1)%nat) as [prev|]; [|exact IH].
  destruct (negb (Block.hash cur =? Block.calculate_hash cur)%string); [reflexivity|].
  destruct (negb (Block.previous_hash cur =? Block.hash prev)%string); [reflexivity|].
  exact IH.
Qed.

(** [is_chain_valid] on a chain: valid, or stopped at the first failing
    index with the message of the check that failed there. *)
Lemma standalone_is_chain_valid_cases (bc : Standalone.Blockchain.t) :
  let chain := Standalone.Blockchain.chain bc in
  (Standalone.Blockchain.is_chain_valid bc = (true, []) /\
   forall i, (1 <= i < length chain)%nat -> ~ fails_at chain i) \/
  (exists i,
     first_failing_index chain i /\
     ((hash_mismatch chain i /\
       Standalone.Blockchain.is_chain_valid bc
       = (false, [Standalone.Blockchain.msg_hash_invalid i])) \/
      (~ hash_mismatch chain i /\ link_mismatch chain i /\
       Standalone.Blockchain.is_chain_valid bc
       = (false, [Standalone.Blockchain.msg_previous_hash i])))).
Proof.
  intros chain. unfold Standalone.Blockchain.is_chain_valid. fold chain.
  destruct (is_chain_valid_loop_seq chain 1 (length chain - 1))
    as [[Hv Hall] | (i & msg & Hi & Hpre & Hc & Hv)].
  - left. split; [exact Hv|]. intros i Hi.
    destruct (check_block_spec chain i Hi) as [[_ Hok] | [[Hc _] | [Hc _]]];
      [exact Hok | | ]; rewrite Hall in Hc by lia; discriminate.
  - right. exists i. assert (1 <= i < length chain)%nat as Hi' by lia.
    assert (forall j, (1 <= j < i)%nat -> ~ fails_at chain j) as Hfirst.
    { intros j Hj. destruct (check_block_spec chain j ltac:(lia)) as [[_ Hok] | [[Hcj _] | [Hcj _]]];
        [exact Hok | | ]; rewrite Hpre in Hcj by lia; discriminate. }
    destruct (check_block_spec chain i Hi') as [[Hn _] | [[Hm Hh] | [Hm [Hnh Hl]]]].
    + congruence.
    + split; [split; [exact Hi' | split; [now left | exact Hfirst]]|].
      left. split; [exact Hh|]. congruence.
    + split; [split; [exact Hi' | split; [now right | exact Hfirst]]|].
      right. split; [exact Hnh|]. split; [exact Hl|]. congruence.
Qed.

End Validation.

Lemma first_failing_index_unique `{Externals} (chain : list Block.t) (i j : nat) :
  first_failing_index chain i -> first_failing_index chain j -> i = j.
Proof.
  intros (Hi & Hfi & Hbi) (Hj & Hfj & Hbj).
  destruct (Nat.lt_trichotomy i j) as [Hlt | [Heq | Hgt]]; [|exact Heq|].
  - exfalso. apply (Hbj i); [lia | exact Hfi].
  - exfalso. apply (Hbi j); [lia | exact Hfj].
Qed.

(** Overwrite the nonce of block [i >= 1] of a valid chain: if the digest
    changes with the nonce, validation fails, and [blockchain.py] names
    block [i]. *)
Lemma tampered_nonce_is_reported `{Externals} (bc : Standalone.Blockchain.t)
    (i : nat) (b : Block.t) (n : Z) (d : Z) (pool : list Transaction) :
  fst (Standalone.Blockchain.is_chain_valid bc) = true ->
  (1 <= i)%nat ->
  Standalone.Blockchain.chain bc !! i = Some b ->
  Block.calculate_hash (Block.set_nonce n b) <> Block.hash b ->
  let chain' := <[i := Block.set_nonce n b]> (Standalone.Blockchain.chain bc) in
  Standalone.Blockchain.is_chain_valid (Standalone.Blockchain.mk chain' d pool)
  = (false, ["Block " +:+ pretty i +:+ " hash is invalid!"]) /\
  App.Blockchain.is_chain_valid (App.Blockchain.mk chain' d pool ∅) = false.
Proof.
  intros Hvalid Hi Hb Hne chain'.
  assert (i < length (Standalone.Blockchain.chain bc))%nat as Hlt
    by (eapply lookup_lt_Some; exact Hb).
  assert (forall j, (1 <= j < length (Standalone.Blockchain.chain bc))%nat ->
                    ~ fails_at (Standalone.Blockchain.chain bc) j) as Hall.
  { destruct (standalone_is_chain_valid_cases bc)
      as [[_ Hall] | (j & _ & [[_ Hv] | (_ & _ & Hv)])];
      [exact Hall | |]; rewrite Hv in Hvalid; discriminate. }
  assert (hash_mismatch chain' i) as Hmis.
  { exists (Block.set_nonce n b). split.
    - unfold chain'. now apply list_lookup_insert_eq.
    - simpl. congruence. }
  assert (first_failing_index chain' i) as Hfirst.
  { split; [unfold chain'; rewrite length_insert; lia|]. split; [now left|].
    intros j Hj Hf. apply (Hall j); [lia|]. unfold chain' in Hf.
    destruct Hf as [(c & Hc & Hh) | (c & p & Hc & Hp & Hl)].
    - left. exists c. rewrite list_lookup_insert_ne in Hc by lia. now split.
    - right. exists c, p. rewrite list_lookup_insert_ne in Hc, Hp by lia. now repeat split. }
  assert (Standalone.Blockchain.is_chain_valid (Standalone.Blockchain.mk chain' d pool)
          = (false, [Standalone.Blockchain.msg_hash_invalid i])) as Hres.
  { destruct (standalone_is_chain_valid_cases (Standalone.Blockchain.mk chain' d pool))
      as [[_ Hok] | (j & Hj & [[_ Hv] | (Hnh & _ & _)])]; simpl in *.
    - destruct Hfirst as (Hr & Hf & _). now apply Hok in Hf.
    - now rewrite (first_failing_index_unique chain' i j Hfirst Hj).
    - rewrite <- (first_failing_index_unique chain' i j Hfirst Hj) in Hnh. contradiction. }
  split; [exact Hres|].
  unfold App.Blockchain.is_chain_valid. simpl. rewrite app_loop_is_standalone_loop.
  unfold Standalone.Blockchain.is_chain_valid in Hres. simpl in Hres. now rewrite Hres.
Qed.

(** The loop reads nothing of block 0 but its hash: overwriting the nonce
    of the genesis block changes no answer. *)
Lemma check_block_genesis_nonce `{Externals} (chain : list Block.t) (b : Block.t) (n : Z)
    (j : nat) :
  chain !! 0%nat = Some b ->
  (1 <= j)%nat ->
  Standalone.Blockchain.check_block (<[0%nat := Block.set_nonce n b]> chain) j
  = Standalone.Blockchain.check_block chain j.
Proof.
  intros Hb Hj. unfold Standalone.Blockchain.check_block.
  rewrite list_lookup_insert_ne by lia.
  destruct (chain !! j) as [cur|]; [|reflexivity].
  destruct (decide (j = 1%nat)) as [->|Hne].
  - simpl. rewrite Hb, list_lookup_insert_eq by (eapply lookup_lt_Some; exact Hb).
    reflexivity.
  - rewrite list_lookup_insert_ne by lia. reflexivity.
Qed.

Lemma is_chain_valid_loop_ext `{Externals} (c1 c2 : list Block.t) (range : list nat) :
  (forall j, j ∈ range ->
     Standalone.Blockchain.check_block c1 j = Standalone.Blockchain.check_block c2 j) ->
  Standalone.Blockchain.is_chain_valid_loop c1 range
  = Standalone.Blockchain.is_chain_valid_loop c2 range.
Proof.
  induction range as [|i range IH]; intros Hext; [reflexivity|]. simpl.
  rewrite (Hext i) by apply list_elem_of_here.
  destruct (Standalone.Blockchain.check_block c2 i); [reflexivity|].
  apply IH. intros j Hj. apply Hext. now apply list_elem_of_further.
Qed.

Lemma genesis_nonce_is_not_checked `{Externals} (bc : Standalone.Blockchain.t)
    (b : Block.t) (n : Z) (d : Z) (pool : list Transaction) :
  Standalone.Blockchain.chain bc !! 0%nat = Some b ->
  let chain' := <[0%nat := Block.set_nonce n b]> (Standalone.Blockchain.chain bc) in
  Standalone.Blockchain.is_chain_valid (Standalone.Blockchain.mk chain' d pool)
  = Standalone.Blockchain.is_chain_valid bc /\
  App.Blockchain.is_chain_valid (App.Blockchain.mk chain' d pool ∅)
  = fst (Standalone.Blockchain.is_chain_valid bc).
Proof.
  intros Hb chain'.
  assert (Standalone.Blockchain.is_chain_valid (Standalone.Blockchain.mk chain' d pool)
          = Standalone.Blockchain.is_chain_valid bc) as Hres.
  { unfold Standalone.Blockchain.is_chain_valid, chain'. simpl. rewrite length_insert.
    apply is_chain_valid_loop_ext. intros j Hj. apply elem_of_seq in Hj.
    apply check_block_genesis_nonce; [exact Hb | lia]. }
  split; [exact Hres|].
  unfold App.Blockchain.is_chain_valid. simpl. rewrite app_loop_is_standalone_loop.
  unfold Standalone.Blockchain.is_chain_valid in Hres. simpl in Hres. now rewrite Hres.
Qed.

(** C4, as the code has it.  [is_chain_valid] depends on the chain only.
    It returns [True] exactly when, for every index from 1 to the end, the
    stored hash is the digest of the stored fields and [previous_hash] is
    the hash of the block before; otherwise it returns [False] at the first
    index where a check fails.  [blockchain.py] prints one line naming that
    index, the hash message when the hash check fails there and the link
    message otherwise; [app.py] returns the bare boolean and reports no
    index.  Overwriting the nonce of a block at index 1 or later of a
    valid chain is detected when the digest changes with it; the genesis
    block's own hash is never recomputed, so overwriting its nonce changes
    no answer. *)
Theorem chain_validation `{Externals}
    (sbc : Standalone.Blockchain.t) (abc : App.Blockchain.t) :
  let sc := Standalone.Blockchain.chain sbc in
  let ac := App.Blockchain.chain abc in
  (fst (Standalone.Blockchain.is_chain_valid sbc) = true <->
   forall i, (1 <= i < length sc)%nat -> ~ fails_at sc i) /\
  (fst (Standalone.Blockchain.is_chain_valid sbc) = true ->
   snd (Standalone.Blockchain.is_chain_valid sbc) = []) /\
  (fst (Standalone.Blockchain.is_chain_valid sbc) = false ->
   exists i, first_failing_index sc i) /\
  (forall i, first_failing_index sc i ->
     (hash_mismatch sc i ->
      Standalone.Blockchain.is_chain_valid sbc
      = (false, ["Block " +:+ pretty i +:+ " hash is invalid!"])) /\
     (~ hash_mismatch sc i ->
      Standalone.Blockchain.is_chain_valid sbc
      = (false, ["Block " +:+ pretty i +:+ " previous hash doesn't match!"]))) /\
  (App.Blockchain.is_chain_valid abc = true <->
   forall i, (1 <= i < length ac)%nat -> ~ fails_at ac i) /\
  (App.Blockchain.is_chain_valid abc = false -> exists i, first_failing_index ac i) /\
  (forall d pool,
     Standalone.Blockchain.is_chain_valid (Standalone.Blockchain.mk sc d pool)
     = Standalone.Blockchain.is_chain_valid sbc) /\
  (forall d pool voted,
     App.Blockchain.is_chain_valid (App.Blockchain.mk ac d pool voted)
     = App.Blockchain.is_chain_valid abc) /\
  (forall i b n d pool,
     fst (Standalone.Blockchain.is_chain_valid sbc) = true ->
     (1 <= i)%nat ->
     sc !! i = Some b ->
     Block.calculate_hash (Block.set_nonce n b) <> Block.hash b ->
     Standalone.Blockchain.is_chain_valid
       (Standalone.Blockchain.mk (<[i := Block.set_nonce n b]> sc) d pool)
     = (false, ["Block " +:+ pretty i +:+ " hash is invalid!"])) /\
  (forall i b n d pool,
     App.Blockchain.is_chain_valid abc = true ->
     (1 <= i)%nat ->
     ac !! i = Some b ->
     Block.calculate_hash (Block.set_nonce n b) <> Block.hash b ->
     App.Blockchain.is_chain_valid
       (App.Blockchain.mk (<[i := Block.set_nonce n b]> ac) d pool ∅) = false) /\
  (forall b n d pool,
     sc !! 0%nat = Some b ->
     Standalone.Blockchain.is_chain_valid
       (Standalone.Blockchain.mk (<[0%nat := Block.set_nonce n b]> sc) d pool)
     = Standalone.Blockchain.is_chain_valid sbc) /\
  (forall b n d pool,
     ac !! 0%nat = Some b ->
     App.Blockchain.is_chain_valid
       (App.Blockchain.mk (<[0%nat := Block.set_nonce n b]> ac) d pool ∅)
     = App.Blockchain.is_chain_valid abc).
Proof.
  intros sc ac.
  assert (App.Blockchain.is_chain_valid abc
          = fst (Standalone.Blockchain.is_chain_valid (Standalone.Blockchain.mk ac 2 [])))
    as Happ by apply app_loop_is_standalone_loop.
  pose proof (standalone_is_chain_valid_cases sbc) as Hs.
  pose proof (standalone_is_chain_valid_cases (Standalone.Blockchain.mk ac 2 [])) as Ha.
  cbv zeta in Hs, Ha. simpl in Ha. fold sc in Hs. fold ac in Ha.
  repeat apply conj.
  - intros Ht. destruct Hs as [[_ Hall] | (i & _ & [[_ Hv] | (_ & _ & Hv)])];
      [exact Hall | |]; rewrite Hv in Ht; discriminate.
  - intros Hall. destruct Hs as [[Hv _] | (i & (Hi & Hf & _) & _)];
      [now rewrite Hv | now apply Hall in Hf].
  - intros Ht. destruct Hs as [[Hv _] | (i & _ & [[_ Hv] | (_ & _ & Hv)])];
      rewrite Hv in *; [reflexivity | discriminate | discriminate].
  - intros Hf. destruct Hs as [[Hv _] | (i & Hi & _)]; [|now exists i].
    rewrite Hv in Hf. discriminate.
  - intros i Hfirst. split.
    + intros Hh. destruct Hs as [[_ Hall] | (j & Hj & [[_ Hv] | (Hnh & _ & Hv)])].
      * destruct Hfirst as (Hi & Hf & _). now apply Hall in Hf.
      * now rewrite (first_failing_index_unique sc i j Hfirst Hj).
      * rewrite <- (first_failing_index_unique sc i j Hfirst Hj) in Hnh. contradiction.
    + intros Hnh. destruct Hs as [[_ Hall] | (j & Hj & [[Hh _] | (_ & _ & Hv)])].
      * destruct Hfirst as (Hi & Hf & _). now apply Hall in Hf.
      * rewrite <- (first_failing_index_unique sc i j Hfirst Hj) in Hh. contradiction.
      * now rewrite (first_failing_index_unique sc i j Hfirst Hj).
  - rewrite Happ. intros Ht. destruct Ha as [[_ Hall] | (i & _ & [[_ Hv] | (_ & _ & Hv)])];
      [exact Hall | |]; rewrite Hv in Ht; discriminate.
  - rewrite Happ. intros Hall. destruct Ha as [[Hv _] | (i & (Hi & Hf & _) & _)];
      [now rewrite Hv | now apply Hall in Hf].
  - rewrite Happ. intros Hf. destruct Ha as [[Hv _] | (i & Hi & _)]; [|now exists i].
    rewrite Hv in Hf. discriminate.
  - reflexivity.
  - reflexivity.
  - intros i b n d pool Hv Hi Hb Hne.
    apply (tampered_nonce_is_reported sbc i b n d pool Hv Hi Hb Hne).
  - intros i b n d pool Hv Hi Hb Hne. rewrite Happ in Hv.
    apply (tampered_nonce_is_reported (Standalone.Blockchain.mk ac 2 []) i b n d pool Hv Hi Hb Hne).
  - intros b n d pool Hb. apply (genesis_nonce_is_not_checked sbc b n d pool Hb).
  - intros b n d pool Hb. rewrite Happ.
    apply (genesis_nonce_is_not_checked (Standalone.Blockchain.mk ac 2 []) b n d pool Hb).
Qed.

Lemma chain_validation_witness :
  fst (Standalone.Blockchain.is_chain_valid (H := demo_externals)
         (Standalone.VotingSystem.blockchain demo_standalone_mined)) = true /\
  ~ fails_at (H := demo_externals) [demo_genesis (TStr "Genesis Block"); demo_vote_block] 1 /\
  (exists i, first_failing_index (H := demo_externals)
               (demo_chain_bad_2 (TStr "Genesis Block")) i) /\
  (exists i, first_failing_index (H := demo_externals)
               (demo_chain_bad_2 (TMessage "Genesis Block")) i).
Proof.
  destruct (chain_validation (H := demo_externals)
              (Standalone.VotingSystem.blockchain demo_standalone_mined)
              (App.VotingSystem.blockchain demo_app_mined)) as (Hiff & _).
  destruct (chain_validation (H := demo_externals)
              (Standalone.Blockchain.mk (demo_chain_bad_2 (TStr "Genesis Block")) 2 [])
              (App.Blockchain.mk (demo_chain_bad_2 (TMessage "Genesis Block")) 2 [] ∅))
    as (_ & _ & Hsf & _ & _ & Haf & _).
  assert (fst (Standalone.Blockchain.is_chain_valid (H := demo_externals)
                 (Standalone.VotingSystem.blockchain demo_standalone_mined)) = true) as Hv
    by (vm_compute; reflexivity).
  split; [exact Hv|]. split; [|split].
  - apply (proj1 Hiff Hv 1%nat). simpl. lia.
  - apply Hsf. vm_compute. reflexivity.
  - apply Haf. vm_compute. reflexivity.
Defined.

(** C4, against the claim as written.  [app.py]'s [is_chain_valid] answers
    the same bare [False] for a chain whose first bad block is block 1 and
    for a chain whose first bad block is block 2 ([blockchain.py] prints the
    index), and neither implementation notices that the nonce of the
    genesis block was overwritten. *)
Lemma validation_reports_no_index :
  App.Blockchain.is_chain_valid (H := demo_externals)
    (App.Blockchain.mk (demo_chain_bad_1 (TMessage "Genesis Block")) 2 [] ∅) = false /\
  App.Blockchain.is_chain_valid (H := demo_externals)
    (App.Blockchain.mk (demo_chain_bad_2 (TMessage "Genesis Block")) 2 [] ∅) = false /\
  Standalone.Blockchain.is_chain_valid (H := demo_externals)
    (Standalone.Blockchain.mk (demo_chain_bad_1 (TStr "Genesis Block")) 2 [])
  = (false, ["Block 1 hash is invalid!"]) /\
  Standalone.Blockchain.is_chain_valid (H := demo_externals)
    (Standalone.Blockchain.mk (demo_chain_bad_2 (TStr "Genesis Block")) 2 [])
  = (false, ["Block 2 hash is invalid!"]) /\
  Block.hash (Block.set_nonce 5 (demo_genesis (TStr "Genesis Block")))
  <> Block.calculate_hash (H := demo_externals)
       (Block.set_nonce 5 (demo_genesis (TStr "Genesis Block"))) /\
  Standalone.Blockchain.is_chain_valid (H := demo_externals)
    (Standalone.Blockchain.mk (demo_chain_bad_genesis (TStr "Genesis Block")) 2 [])
  = (true, []) /\
  App.Blockchain.is_chain_valid (H := demo_externals)
    (App.Blockchain.mk (demo_chain_bad_genesis (TMessage "Genesis Block")) 2 [] ∅) = true.
Proof.
  do 4 (split; [vm_compute; reflexivity|]).
  split; [intros Heq; vm_compute in Heq; discriminate|].
  split; vm_compute; reflexivity.
Qed.

(** * Further properties of the code *)

(** ** The nonce search of [mine_block] *)

Section NonceSearch.
Context `{Externals}.

Lemma mine_step_with_nonce (b : Block.t) :
  Block.mine_step b = Block.with_nonce (Block.nonce b + 1) b.
Proof. reflexivity. Qed.

Lemma mine_step_of_with_nonce (k : Z) (b : Block.t) :
  Block.mine_step (Block.with_nonce k b) = Block.with_nonce (k + 1) b.
Proof. reflexivity. Qed.

(** After [S n] passes the block holds nonce [nonce + S n] and its digest. *)
Lemma mine_iter_with_nonce (n : nat) (b : Block.t) :
  Nat.iter (S n) Block.mine_step b = Block.with_nonce (Block.nonce b + Z.of_nat (S n)) b.
Proof.
  induction n as [|n IH].
  - simpl. rewrite mine_step_with_nonce. reflexivity.
  - change (Nat.iter (S (S n)) Block.mine_step b)
      with (Block.mine_step (Nat.iter (S n) Block.mine_step b)).
    rewrite IH, mine_step_of_with_nonce. f_equal. lia.
Qed.

Lemma mine_iter_nonce (n : nat) (b : Block.t) :
  Block.nonce (Nat.iter n Block.mine_step b) = Block.nonce b + Z.of_nat n.
Proof.
  destruct n as [|n]; [simpl; lia|]. now rewrite mine_iter_with_nonce.
Qed.

(** The three ways a run of [mine_block] ends, by the passes it made. *)
Lemma mine_block_search (fuel : nat) (d : Z) (b : Block.t) :
  (exists n,
     (n <= fuel)%nat /\
     Block.mine_block fuel d b = Ret (Nat.iter n Block.mine_step b) /\
     Block.meets_target d (Nat.iter n Block.mine_step b) = true /\
     forall m, (m < n)%nat -> Block.meets_target d (Nat.iter m Block.mine_step b) = false) \/
  (Block.mine_block fuel d b = OutOfFuel /\
   forall m, (m <= fuel)%nat -> Block.meets_target d (Nat.iter m Block.mine_step b) = false).
Proof.
  revert b; induction fuel as [|fuel IH]; intros b; simpl.
  - destruct (Block.meets_target d b) eqn:Ht.
    + left. exists O. repeat split; [lia | exact Ht | intros m Hm; lia].
    + right. split; [reflexivity|]. intros m Hm. assert (m = O) as -> by lia. exact Ht.
  - destruct (Block.meets_target d b) eqn:Ht.
    + left. exists O. repeat split; [lia | exact Ht | intros m Hm; lia].
    + destruct (IH (Block.mine_step b)) as [(n & Hn & Hr & Hm & Hlt) | [Hr Hall]].
      * left. exists (S n). rewrite Nat.iter_succ_r.
        repeat split; [lia | exact Hr | exact Hm |].
        intros [|m] Hlm; [exact Ht|]. rewrite Nat.iter_succ_r. apply Hlt. lia.
      * right. split; [exact Hr|].
        intros [|m] Hlm; [exact Ht|]. rewrite Nat.iter_succ_r. apply Hall. lia.
Qed.

End NonceSearch.

(** X1. [mine_block] returns the first block of the sequence nonce,
    nonce + 1, nonce + 2, ... whose hash meets the target: the block a
    finished call leaves has made [n] passes, its nonce is the old nonce
    plus [n], for [n > 0] its hash is the digest at that nonce, and no
    smaller number of passes meets the target. *)
Theorem mine_block_finds_first_nonce `{Externals} (fuel : nat) (d : Z) (b b' : Block.t) :
  Block.mine_block fuel d b = Ret b' ->
  exists n,
    (n <= fuel)%nat /\
    b' = Nat.iter n Block.mine_step b /\
    Block.nonce b' = Block.nonce b + Z.of_nat n /\
    (n <> O -> b' = Block.with_nonce (Block.nonce b + Z.of_nat n) b) /\
    Block.meets_target d b' = true /\
    forall m, (m < n)%nat -> Block.meets_target d (Nat.iter m Block.mine_step b) = false.
Proof.
  intros Hr. destruct (mine_block_search fuel d b) as [(n & Hn & Hr' & Hm & Hlt) | [Hr' _]];
    [|congruence].
  exists n. assert (b' = Nat.iter n Block.mine_step b) as -> by congruence.
  repeat split; [exact Hn | apply mine_iter_nonce | | exact Hm | exact Hlt].
  intros Hne. destruct n as [|n]; [contradiction | apply mine_iter_with_nonce].
Qed.

Lemma mine_block_finds_first_nonce_witness :
  exists n,
    (n <= 5)%nat /\
    demo_vote_block
    = Nat.iter n (Block.mine_step (H := demo_externals))
        (Block.init (H := demo_externals) 1 [TVote "V1" "Alice" 3.5%float] 4.5%float
           "00abcdefabcdefabcdefabcdefabcdefabcdefabcdefabcdefabcdefabcdefab") /\
    Block.nonce demo_vote_block = 0 + Z.of_nat n.
Proof.
  destruct (mine_block_finds_first_nonce (H := demo_externals) 5 2
              (Block.init (H := demo_externals) 1 [TVote "V1" "Alice" 3.5%float] 4.5%float
                 "00abcdefabcdefabcdefabcdefabcdefabcdefabcdefabcdefabcdefabcdefab")
              demo_vote_block) as (n & Hn & Hb & Hnonce & _).
  - vm_compute. reflexivity.
  - exists n. split; [exact Hn|]. split; [exact Hb | exact Hnonce].
Defined.

(** ** The chain of a reachable state *)

Section ReachableChain.
Context `{Externals}.

(** Appending a mined block keeps a chain well formed. *)
Lemma chain_well_formed_snoc (d : Z) (chain : list Block.t) (tail blk : Block.t) :
  0 <= d ->
  chain_well_formed d chain ->
  last chain = Some tail ->
  Block.index blk = Z.of_nat (length chain) ->
  Block.previous_hash blk = Block.hash tail ->
  Block.hash blk = Block.calculate_hash blk ->
  Block.meets_target d blk = true ->
  chain_well_formed d (chain ++ [blk]).
Proof.
  intros Hd Hwf Hlast Hidx Hprev Hhash Hmeets i b Hb.
  destruct (decide (i < length chain)%nat) as [Hlt|Hge].
  - rewrite lookup_app_l in Hb by exact Hlt.
    destruct (Hwf i b Hb) as (Hi & Hh & Hz & Hl). repeat split; auto.
    destruct i as [|j]; [exact Hl|].
    destruct Hl as (p & Hp & Hpl). exists p. split; [|exact Hpl].
    rewrite lookup_app_l by lia. exact Hp.
  - assert (i = length chain) as ->.
    { apply lookup_lt_Some in Hb. rewrite length_app in Hb. simpl in Hb. lia. }
    rewrite lookup_app_r, Nat.sub_diag in Hb by lia. injection Hb as <-.
    repeat split; auto.
    + unfold Block.meets_target in Hmeets. apply String.eqb_eq in Hmeets.
      now apply slice_zeros.
    + rewrite last_lookup in Hlast.
      destruct (length chain) as [|j] eqn:Hlen; [destruct chain; simpl in *; congruence|].
      exists tail. split; [|exact Hprev].
      rewrite lookup_app_l by lia. exact Hlast.
Qed.

Lemma genesis_chain_well_formed (marker : Transaction) (g : Block.t) :
  is_genesis 2 marker g -> chain_well_formed 2 [g].
Proof.
  intros (Hi & Hp & _ & Hh & Hz) i b Hb.
  destruct i as [|i]; [|now rewrite lookup_cons, lookup_nil in Hb].
  injection Hb as <-. now repeat split.
Qed.

Lemma standalone_reachable_chain (vs : Standalone.VotingSystem.t) :
  standalone_reachable vs ->
  Standalone.Blockchain.difficulty (Standalone.VotingSystem.blockchain vs) = 2 /\
  chain_well_formed 2 (Standalone.Blockchain.chain (Standalone.VotingSystem.blockchain vs)).
Proof.
  revert vs. apply standalone_reachable_cases; simpl; auto.
  - intros g Hg. split; [reflexivity | eapply genesis_chain_well_formed, Hg].
  - intros chain d pool voters cands pv tail blk [-> Hwf] _ Hl Hi Hp _ Hh Hm.
    split; [reflexivity|]. eapply chain_well_formed_snoc; eauto. lia.
Qed.

Lemma app_reachable_chain (vs : App.VotingSystem.t) :
  app_reachable vs ->
  App.Blockchain.difficulty (App.VotingSystem.blockchain vs) = 2 /\
  chain_well_formed 2 (App.Blockchain.chain (App.VotingSystem.blockchain vs)).
Proof.
  revert vs. apply app_reachable_cases; simpl; auto.
  - intros g Hg. split; [reflexivity | eapply genesis_chain_well_formed, Hg].
  - intros chain d pool voted voters cands tail blk [-> Hwf] _ Hl Hi Hp _ Hh Hm.
    split; [reflexivity|]. eapply chain_well_formed_snoc; eauto. lia.
Qed.

(** No check of the validation loop fails on a well-formed chain. *)
Lemma chain_well_formed_no_failure (d : Z) (chain : list Block.t) (i : nat) :
  chain_well_formed d chain -> (1 <= i)%nat -> ~ fails_at chain i.
Proof.
  intros Hwf Hi [(c & Hc & Hne) | (c & p & Hc & Hp & Hne)].
  - destruct (Hwf i c Hc) as (_ & Hh & _). contradiction.
  - destruct (Hwf i c Hc) as (_ & _ & _ & Hl).
    destruct i as [|j]; [lia|]. destruct Hl as (p' & Hp' & Hl).
    simpl in Hp. rewrite Nat.sub_0_r in Hp. congruence.
Qed.

Lemma chain_well_formed_valid (d : Z) (bc : Standalone.Blockchain.t) :
  chain_well_formed d (Standalone.Blockchain.chain bc) ->
  Standalone.Blockchain.is_chain_valid bc = (true, []).
Proof.
  intros Hwf.
  destruct (standalone_is_chain_valid_cases bc) as [[Hv _] | (i & (Hi & Hf & _) & _)];
    [exact Hv|].
  exfalso. eapply chain_well_formed_no_failure; [exact Hwf | | exact Hf]. lia.
Qed.

End ReachableChain.

(** X2. The chain of every reachable state is well formed: block [i]
    carries index [i], its hash is the digest of its fields and starts
    with two zeros, block 0 has [previous_hash] ["0"] and every later block
    has the hash of the block before it as [previous_hash].  The
    difficulty stays 2. *)
Theorem reachable_chain_is_well_formed `{Externals}
    (svs : Standalone.VotingSystem.t) (avs : App.VotingSystem.t) :
  (standalone_reachable svs ->
   Standalone.Blockchain.difficulty (Standalone.VotingSystem.blockchain svs) = 2 /\
   chain_well_formed 2 (Standalone.Blockchain.chain (Standalone.VotingSystem.blockchain svs))) /\
  (app_reachable avs ->
   App.Blockchain.difficulty (App.VotingSystem.blockchain avs) = 2 /\
   chain_well_formed 2 (App.Blockchain.chain (App.VotingSystem.blockchain avs))).
Proof. split; [apply standalone_reachable_chain | apply app_reachable_chain]. Qed.

Lemma reachable_chain_is_well_formed_witness :
  chain_well_formed (H := demo_externals) 2
    [demo_genesis (TStr "Genesis Block"); demo_vote_block] /\
  chain_well_formed (H := demo_externals) 2
    [demo_genesis (TMessage "Genesis Block"); demo_vote_block].
Proof.
  destruct (reachable_chain_is_well_formed (H := demo_externals)
              demo_standalone_mined demo_app_mined) as [Hs Ha].
  split.
  - apply (Hs demo_standalone_mined_reachable).
  - apply (Ha demo_app_mined_reachable).
Defined.

(** X3. A chain the system built itself validates: in every reachable
    state [is_chain_valid] returns [True], and [blockchain.py] prints
    nothing. *)
Theorem reachable_chain_is_valid `{Externals}
    (svs : Standalone.VotingSystem.t) (avs : App.VotingSystem.t) :
  (standalone_reachable svs ->
   Standalone.Blockchain.is_chain_valid (Standalone.VotingSystem.blockchain svs) = (true, [])) /\
  (app_reachable avs ->
   App.Blockchain.is_chain_valid (App.VotingSystem.blockchain avs) = true).
Proof.
  split; intros Hr.
  - apply (chain_well_formed_valid 2), standalone_reachable_chain, Hr.
  - unfold App.Blockchain.is_chain_valid. rewrite app_loop_is_standalone_loop.
    pose proof (chain_well_formed_valid 2
                  (Standalone.Blockchain.mk
                     (App.Blockchain.chain (App.VotingSystem.blockchain avs)) 2 [])) as Hv.
    unfold Standalone.Blockchain.is_chain_valid in Hv. simpl in Hv.
    rewrite Hv; [reflexivity|]. apply app_reachable_chain, Hr.
Qed.

Lemma reachable_chain_is_valid_witness :
  Standalone.Blockchain.is_chain_valid (H := demo_externals)
    (Standalone.VotingSystem.blockchain demo_standalone_mined) = (true, []) /\
  App.Blockchain.is_chain_valid (H := demo_externals)
    (App.VotingSystem.blockchain demo_app_mined) = true.
Proof.
  destruct (reachable_chain_is_valid (H := demo_externals)
              demo_standalone_mined demo_app_mined) as [Hs Ha].
  split.
  - apply (Hs demo_standalone_mined_reachable).
  - apply (Ha demo_app_mined_reachable).
Defined.

(** ** What a call never undoes *)

Section Steps.
Context `{Externals}.

(** One returning call of [voting_system.py]: the chain grows at its end
    by at most one block, registered voters keep their token, a set
    [voted] flag stays set, the candidates stay. *)
Lemma standalone_step_keeps (vs vs' : Standalone.VotingSystem.t) :
  standalone_step vs vs' ->
  (exists rest,
     Standalone.Blockchain.chain (Standalone.VotingSystem.blockchain vs')
     = Standalone.Blockchain.chain (Standalone.VotingSystem.blockchain vs) ++ rest /\
     (length rest <= 1)%nat) /\
  (forall v x,
     Standalone.VotingSystem.voters vs !! v = Some x ->
     exists x',
       Standalone.VotingSystem.voters vs' !! v = Some x' /\
       Standalone.VotingSystem.token x' = Standalone.VotingSystem.token x /\
       (Standalone.VotingSystem.voted x = true -> Standalone.VotingSystem.voted x' = true)) /\
  Standalone.VotingSystem.candidates vs' = Standalone.VotingSystem.candidates vs.
Proof.
  assert (forall vs0 : Standalone.VotingSystem.t,
            (exists rest,
               Standalone.Blockchain.chain (Standalone.VotingSystem.blockchain vs0)
               = Standalone.Blockchain.chain (Standalone.VotingSystem.blockchain vs0) ++ rest /\
               (length rest <= 1)%nat)) as Hsame.
  { intros vs0. exists []. rewrite app_nil_r. split; [reflexivity | simpl; lia]. }
  assert (forall (vs0 : Standalone.VotingSystem.t) v x,
            Standalone.VotingSystem.voters vs0 !! v = Some x ->
            exists x',
              Standalone.VotingSystem.voters vs0 !! v = Some x' /\
              Standalone.VotingSystem.token x' = Standalone.VotingSystem.token x /\
              (Standalone.VotingSystem.voted x = true ->
               Standalone.VotingSystem.voted x' = true)) as Hkeep.
  { intros vs0 v x Hx. exists x. auto. }
  intros [now voter_id vs0 vs1 token Hreg | now voter_id token candidate vs0
         | fuel now vs0 vs1 msg Hm].
  - unfold Standalone.VotingSystem.register_voter in Hreg.
    destruct (Standalone.VotingSystem.voters vs0 !! voter_id) eqn:Hv; [discriminate|].
    destruct (str_encodes _); [|discriminate].
    injection Hreg as <- _. simpl. split; [apply Hsame|]. split; [|reflexivity].
    intros v x Hx. exists x. rewrite lookup_insert_ne by congruence. auto.
  - unfold Standalone.VotingSystem.cast_vote.
    destruct (Standalone.VotingSystem.voters vs0 !! voter_id) as [v0|] eqn:Hv;
      [|simpl; auto].
    destruct (negb (Standalone.VotingSystem.verify_token _ _ _)); [simpl; auto|].
    destruct (negb (bool_decide _)); [simpl; auto|].
    destruct (_ || _ || _); [simpl; auto|]. simpl.
    split; [apply Hsame|]. split; [|reflexivity].
    intros v x Hx. destruct (decide (voter_id = v)) as [<-|Hne].
    + rewrite lookup_insert_eq. eexists. split; [reflexivity|]. simpl.
      split; [congruence | auto].
    + exists x. rewrite lookup_insert_ne by exact Hne. auto.
  - unfold Standalone.VotingSystem.mine_votes,
      Standalone.Blockchain.mine_pending_transactions in Hm.
    destruct (Standalone.Blockchain.pending_transactions _) as [|t0 pool].
    + simpl in Hm. injection Hm as <- _. simpl. auto.
    + destruct (Standalone.Blockchain.get_latest_block _); simpl in Hm; try discriminate.
      destruct (Block.mine_block _ _ _) as [blk| |]; simpl in Hm; try discriminate.
      injection Hm as <- _. simpl. split; [|split; [apply Hkeep | reflexivity]].
      exists [blk]. split; [reflexivity | simpl; lia].
Qed.

(** The same for one returning call of [app.py]. *)
Lemma app_step_keeps (vs vs' : App.VotingSystem.t) :
  app_step vs vs' ->
  (exists rest,
     App.Blockchain.chain (App.VotingSystem.blockchain vs')
     = App.Blockchain.chain (App.VotingSystem.blockchain vs) ++ rest /\
     (length rest <= 1)%nat) /\
  (forall v token,
     App.VotingSystem.registered_voters vs !! v = Some token ->
     App.VotingSystem.registered_voters vs' !! v = Some token) /\
  App.Blockchain.voted_voters (App.VotingSystem.blockchain vs)
    ⊆ App.Blockchain.voted_voters (App.VotingSystem.blockchain vs') /\
  App.VotingSystem.candidates vs' = App.VotingSystem.candidates vs.
Proof.
  assert (forall vs0 : App.VotingSystem.t,
            (exists rest,
               App.Blockchain.chain (App.VotingSystem.blockchain vs0)
               = App.Blockchain.chain (App.VotingSystem.blockchain vs0) ++ rest /\
               (length rest <= 1)%nat)) as Hsame.
  { intros vs0. exists []. rewrite app_nil_r. split; [reflexivity | simpl; lia]. }
  intros [now voter_id vs0 vs1 r Hreg | now voter_id token candidate vs0
         | fuel now vs0 vs1 r Hm].
  - unfold App.VotingSystem.register_voter in Hreg.
    destruct (App.VotingSystem.registered_voters vs0 !! voter_id) eqn:Hv;
      [injection Hreg as <- _; repeat split; auto|].
    destruct (str_encodes _); [|discriminate].
    injection Hreg as <- _. simpl.
    split; [apply Hsame|]. split; [|split; [reflexivity | reflexivity]].
    intros v tok Hx. rewrite lookup_insert_ne by congruence. exact Hx.
  - unfold App.VotingSystem.cast_vote, App.VotingSystem.verify_voter, App.Blockchain.add_vote.
    destruct (App.VotingSystem.registered_voters vs0 !! voter_id) as [stored|];
      [|simpl; repeat split; auto].
    destruct (negb (stored =? token)%string); [simpl; repeat split; auto|]. simpl.
    destruct (negb (bool_decide (candidate ∈ _))); [simpl; repeat split; auto|].
    destruct (bool_decide (voter_id ∈ _)); simpl; [repeat split; auto|].
    split; [apply Hsame|]. split; [auto|]. split; [|reflexivity].
    apply union_subseteq_r.
  - unfold App.VotingSystem.mine_votes, App.Blockchain.mine_pending_transactions in Hm.
    destruct (App.Blockchain.pending_transactions _) as [|t0 pool].
    + simpl in Hm. injection Hm as <- _. simpl. repeat split; auto.
    + destruct (App.Blockchain.get_latest_block _); simpl in Hm; try discriminate.
      destruct (Block.mine_block _ _ _) as [blk| |]; simpl in Hm; try discriminate.
      injection Hm as <- _. simpl. split; [|repeat split; auto].
      exists [blk]. split; [reflexivity | simpl; lia].
Qed.

Lemma standalone_steps_keep (vs vs' : Standalone.VotingSystem.t) :
  rtc standalone_step vs vs' ->
  Standalone.Blockchain.chain (Standalone.VotingSystem.blockchain vs)
    `prefix_of` Standalone.Blockchain.chain (Standalone.VotingSystem.blockchain vs') /\
  (forall v x,
     Standalone.VotingSystem.voters vs !! v = Some x ->
     exists x',
       Standalone.VotingSystem.voters vs' !! v = Some x' /\
       Standalone.VotingSystem.token x' = Standalone.VotingSystem.token x /\
       (Standalone.VotingSystem.voted x = true -> Standalone.VotingSystem.voted x' = true)) /\
  Standalone.VotingSystem.candidates vs' = Standalone.VotingSystem.candidates vs.
Proof.
  induction 1 as [vs | vs vs1 vs2 Hstep _ (Hp & Hv & Hc)].
  - split; [reflexivity|]. split; [|reflexivity]. intros v x Hx. exists x. auto.
  - destruct (standalone_step_keeps vs vs1 Hstep) as ((rest & Hrest & _) & Hv1 & Hc1).
    split; [|split; [|congruence]].
    + etransitivity; [|exact Hp]. rewrite Hrest. now apply prefix_app_r.
    + intros v x Hx. destruct (Hv1 v x Hx) as (x1 & Hx1 & Ht1 & Hvd1).
      destruct (Hv v x1 Hx1) as (x2 & Hx2 & Ht2 & Hvd2).
      exists x2. split; [exact Hx2|]. split; [congruence | auto].
Qed.

Lemma app_steps_keep (vs vs' : App.VotingSystem.t) :
  rtc app_step vs vs' ->
  App.Blockchain.chain (App.VotingSystem.blockchain vs)
    `prefix_of` App.Blockchain.chain (App.VotingSystem.blockchain vs') /\
  (forall v token,
     App.VotingSystem.registered_voters vs !! v = Some token ->
     App.VotingSystem.registered_voters vs' !! v = Some token) /\
  App.Blockchain.voted_voters (App.VotingSystem.blockchain vs)
    ⊆ App.Blockchain.voted_voters (App.VotingSystem.blockchain vs') /\
  App.VotingSystem.candidates vs' = App.VotingSystem.candidates vs.
Proof.
  induction 1 as [vs | vs vs1 vs2 Hstep _ (Hp & Hv & Hs & Hc)].
  - repeat split; auto.
  - destruct (app_step_keeps vs vs1 Hstep) as ((rest & Hrest & _) & Hv1 & Hs1 & Hc1).
    split; [|split; [|split; [|congruence]]].
    + etransitivity; [|exact Hp]. rewrite Hrest. now apply prefix_app_r.
    + auto.
    + etransitivity; eassumption.
Qed.

(** Steps lead from reachable states to reachable states. *)
Lemma standalone_steps_reachable (vs vs' : Standalone.VotingSystem.t) :
  standalone_reachable vs -> rtc standalone_step vs vs' -> standalone_reachable vs'.
Proof.
  intros Hr Hs. induction Hs as [vs | vs vs1 vs2 Hstep _ IH]; [exact Hr|].
  apply IH. destruct Hstep.
  - eapply sr_register; eauto.
  - now apply sr_cast_vote.
  - eapply sr_mine_votes; eauto.
Qed.

Lemma app_steps_reachable (vs vs' : App.VotingSystem.t) :
  app_reachable vs -> rtc app_step vs vs' -> app_reachable vs'.
Proof.
  intros Hr Hs. induction Hs as [vs | vs vs1 vs2 Hstep _ IH]; [exact Hr|].
  apply IH. destruct Hstep.
  - eapply ar_register; eauto.
  - now apply ar_cast_vote.
  - eapply ar_mine_votes; eauto.
Qed.

End Steps.

(** X4. The ledger is append-only: whatever calls of [register_voter],
    [cast_vote] and [mine_votes] follow, the chain of the earlier state is
    a prefix of the chain of the later one, and one call appends at most
    one block. *)
Theorem ledger_is_append_only `{Externals}
    (svs svs' : Standalone.VotingSystem.t) (avs avs' : App.VotingSystem.t) :
  (rtc standalone_step svs svs' ->
   Standalone.Blockchain.chain (Standalone.VotingSystem.blockchain svs)
     `prefix_of` Standalone.Blockchain.chain (Standalone.VotingSystem.blockchain svs')) /\
  (standalone_step svs svs' ->
   (length (Standalone.Blockchain.chain (Standalone.VotingSystem.blockchain svs'))
    <= S (length (Standalone.Blockchain.chain (Standalone.VotingSystem.blockchain svs))))%nat) /\
  (rtc app_step avs avs' ->
   App.Blockchain.chain (App.VotingSystem.blockchain avs)
     `prefix_of` App.Blockchain.chain (App.VotingSystem.blockchain avs')) /\
  (app_step avs avs' ->
   (length (App.Blockchain.chain (App.VotingSystem.blockchain avs'))
    <= S (length (App.Blockchain.chain (App.VotingSystem.blockchain avs))))%nat).
Proof.
  split; [|split; [|split]].
  - intros Hs. apply (standalone_steps_keep _ _ Hs).
  - intros Hs. destruct (standalone_step_keeps _ _ Hs) as ((rest & -> & Hlen) & _).
    rewrite length_app. lia.
  - intros Hs. apply (app_steps_keep _ _ Hs).
  - intros Hs. destruct (app_step_keeps _ _ Hs) as ((rest & -> & Hlen) & _).
    rewrite length_app. lia.
Qed.

Lemma ledger_is_append_only_witness :
  [demo_genesis (TStr "Genesis Block")]
    `prefix_of` [demo_genesis (TStr "Genesis Block"); demo_vote_block] /\
  [demo_genesis (TMessage "Genesis Block")]
    `prefix_of` [demo_genesis (TMessage "Genesis Block"); demo_vote_block].
Proof.
  destruct (ledger_is_append_only (H := demo_externals)
              demo_standalone_system demo_standalone_mined
              demo_app_system demo_app_mined) as (Hs & _ & Ha & _).
  split.
  - apply Hs. apply rtc_once.
    apply (ss_mine_votes 5 4.5%float _ _ "Votes mined successfully!").
    vm_compute. reflexivity.
  - apply Ha. apply rtc_once.
    apply (as_mine_votes 5 4.5%float _ _ (true, "Mined 1 votes into block #1")).
    vm_compute. reflexivity.
Defined.

(** X5. A token, once issued, verifies for good: after [register_voter]
    has returned a token for a voter, in every later state the check of
    that voter with that token succeeds and with any other token fails
    ([verify_token] in [voting_system.py], [verify_voter] in [app.py]). *)
Theorem issued_token_keeps_verifying `{Externals} (now : float) (voter_id token : string)
    (svs svs1 svs2 : Standalone.VotingSystem.t) (avs avs1 avs2 : App.VotingSystem.t)
    (ok : bool) (msg : string) :
  (Standalone.VotingSystem.register_voter now voter_id svs = Ret (svs1, token) ->
   rtc standalone_step svs1 svs2 ->
   Standalone.VotingSystem.verify_token voter_id token svs2 = true /\
   forall other, other <> token ->
     Standalone.VotingSystem.verify_token voter_id other svs2 = false) /\
  (App.VotingSystem.register_voter now voter_id avs = Ret (avs1, (ok, msg, Some token)) ->
   rtc app_step avs1 avs2 ->
   App.VotingSystem.verify_voter voter_id token avs2 = (true, "Verification successful") /\
   forall other, other <> token ->
     App.VotingSystem.verify_voter voter_id other avs2 = (false, "Invalid token")).
Proof.
  split.
  - intros Hreg Hs. unfold Standalone.VotingSystem.register_voter in Hreg.
    destruct (Standalone.VotingSystem.voters svs !! voter_id) eqn:Hv; [discriminate|].
    destruct (str_encodes _); [|discriminate].
    injection Hreg as <- <-.
    destruct (standalone_steps_keep _ _ Hs) as (_ & Hkeep & _).
    destruct (Hkeep voter_id _ (lookup_insert_eq _ _ _)) as (x' & Hx' & Ht & _).
    simpl in Ht. unfold Standalone.VotingSystem.verify_token. rewrite Hx', Ht.
    split; [apply String.eqb_refl|].
    intros other Hne. apply String.eqb_neq. congruence.
  - unfold App.VotingSystem.register_voter.
    destruct (App.VotingSystem.registered_voters avs !! voter_id) eqn:Hv;
      [discriminate|].
    destruct (str_encodes _); [|discriminate].
    intros [= <- _ _ <-] Hs.
    destruct (app_steps_keep _ _ Hs) as (_ & Hkeep & _).
    pose proof (Hkeep voter_id _ (lookup_insert_eq _ _ _)) as Hx'.
    unfold App.VotingSystem.verify_voter. rewrite Hx'.
    split; [now rewrite String.eqb_refl|].
    intros other Hne. apply not_eq_sym, String.eqb_neq in Hne. now rewrite Hne.
Qed.

Lemma issued_token_keeps_verifying_witness :
  Standalone.VotingSystem.verify_token "V1" "01abcdefabcd" demo_standalone_system = true /\
  App.VotingSystem.verify_voter "V1" "01abcdefabcd" demo_app_system
  = (true, "Verification successful").
Proof.
  destruct (issued_token_keeps_verifying (H := demo_externals) 2.5%float "V1" "01abcdefabcd"
              demo_standalone_fresh demo_standalone_registered demo_standalone_system
              demo_app_fresh demo_app_registered demo_app_system
              true "Registration successful") as [Hs Ha].
  split.
  - apply Hs; [vm_compute; reflexivity|]. apply rtc_once.
    pose proof (ss_cast_vote (H := demo_externals) 3.5%float "V1" "01abcdefabcd" "Alice"
                  demo_standalone_registered) as Hstep.
    replace (fst _) with demo_standalone_system in Hstep by (vm_compute; reflexivity).
    exact Hstep.
  - apply Ha; [vm_compute; reflexivity|]. apply rtc_once.
    pose proof (as_cast_vote (H := demo_externals) 3.5%float "V1" "01abcdefabcd" "Alice"
                  demo_app_registered) as Hstep.
    replace (fst _) with demo_app_system in Hstep by (vm_compute; reflexivity).
    exact Hstep.
Defined.

(** X6. Voting is final: once [cast_vote] has accepted a vote of a voter,
    every later [cast_vote] for that voter, in whatever later state and
    with whatever token and candidate, is rejected and changes nothing. *)
Theorem accepted_voter_is_rejected_afterwards `{Externals}
    (now now' : float) (voter_id token candidate token' candidate' : string)
    (svs svs2 : Standalone.VotingSystem.t) (avs avs2 : App.VotingSystem.t) :
  (snd (Standalone.VotingSystem.cast_vote now voter_id token candidate svs)
   = Standalone.VotingSystem.msg_vote_cast ->
   rtc standalone_step
     (fst (Standalone.VotingSystem.cast_vote now voter_id token candidate svs)) svs2 ->
   fst (Standalone.VotingSystem.cast_vote now' voter_id token' candidate' svs2) = svs2 /\
   snd (Standalone.VotingSystem.cast_vote now' voter_id token' candidate' svs2)
   <> Standalone.VotingSystem.msg_vote_cast) /\
  (fst (snd (App.VotingSystem.cast_vote now voter_id token candidate avs)) = true ->
   rtc app_step (fst (App.VotingSystem.cast_vote now voter_id token candidate avs)) avs2 ->
   fst (App.VotingSystem.cast_vote now' voter_id token' candidate' avs2) = avs2 /\
   fst (snd (App.VotingSystem.cast_vote now' voter_id token' candidate' avs2)) = false).
Proof.
  split.
  - intros Hacc Hs.
    assert (exists x, Standalone.VotingSystem.voters
                        (fst (Standalone.VotingSystem.cast_vote now voter_id token candidate svs))
                      !! voter_id = Some x /\
                      Standalone.VotingSystem.voted x = true) as (x & Hx & Hvoted).
    { revert Hacc. unfold Standalone.VotingSystem.cast_vote.
      destruct (Standalone.VotingSystem.voters svs !! voter_id) as [v0|]; [|discriminate].
      destruct (negb (Standalone.VotingSystem.verify_token _ _ _)); [discriminate|].
      destruct (negb (bool_decide _)); [discriminate|].
      destruct (_ || _ || _); [discriminate|]. simpl. intros _.
      eexists. split; [apply lookup_insert_eq | reflexivity]. }
    destruct (standalone_steps_keep _ _ Hs) as (_ & Hkeep & _).
    destruct (Hkeep voter_id x Hx) as (x' & Hx' & _ & Hv'). specialize (Hv' Hvoted).
    unfold Standalone.VotingSystem.cast_vote. rewrite Hx'.
    destruct (negb (Standalone.VotingSystem.verify_token _ _ _)); [split; [reflexivity | discriminate]|].
    destruct (negb (bool_decide _)); [split; [reflexivity | discriminate]|].
    rewrite Hv'. simpl. split; [reflexivity | discriminate].
  - intros Hacc Hs.
    assert (voter_id ∈ App.Blockchain.voted_voters
              (App.VotingSystem.blockchain
                 (fst (App.VotingSystem.cast_vote now voter_id token candidate avs)))) as Hin.
    { revert Hacc. unfold App.VotingSystem.cast_vote, App.VotingSystem.verify_voter,
        App.Blockchain.add_vote.
      destruct (App.VotingSystem.registered_voters avs !! voter_id) as [stored|];
        [|discriminate].
      destruct (negb (stored =? token)%string); [discriminate|]. simpl.
      destruct (negb (bool_decide (candidate ∈ _))); [discriminate|].
      destruct (bool_decide (voter_id ∈ _)); simpl; [discriminate|]. intros _.
      apply elem_of_union_l, elem_of_singleton. reflexivity. }
    destruct (app_steps_keep _ _ Hs) as (_ & _ & Hsub & _). apply Hsub in Hin.
    unfold App.VotingSystem.cast_vote, App.Blockchain.add_vote.
    destruct (App.VotingSystem.verify_voter voter_id token' avs2) as [[|] m]; simpl;
      [|split; reflexivity].
    destruct (negb (bool_decide (candidate' ∈ _))); [split; reflexivity|].
    rewrite bool_decide_eq_true_2 by exact Hin. destruct avs2. split; reflexivity.
Qed.

Lemma accepted_voter_is_rejected_afterwards_witness :
  fst (Standalone.VotingSystem.cast_vote 5.5%float "V1" "01abcdefabcd" "Bob"
         demo_standalone_mined) = demo_standalone_mined /\
  fst (snd (App.VotingSystem.cast_vote 5.5%float "V1" "01abcdefabcd" "Bob" demo_app_mined))
  = false.
Proof.
  destruct (accepted_voter_is_rejected_afterwards (H := demo_externals) 3.5%float 5.5%float
              "V1" "01abcdefabcd" "Alice" "01abcdefabcd" "Bob"
              demo_standalone_registered demo_standalone_mined
              demo_app_registered demo_app_mined) as [Hs Ha].
  split.
  - apply Hs; [vm_compute; reflexivity|]. apply rtc_once.
    apply (ss_mine_votes 5 4.5%float _ _ "Votes mined successfully!").
    vm_compute. reflexivity.
  - apply Ha; [vm_compute; reflexivity|]. apply rtc_once.
    apply (as_mine_votes 5 4.5%float _ _ (true, "Mined 1 votes into block #1")).
    vm_compute. reflexivity.
Defined.

(** ** Who voted for whom: [get_voter_votes] and [has_voter_voted] *)

Lemma votes_of_cons v (t : Transaction) (l : list Transaction) :
  votes_of v (t :: l)
  = if decide (tx_voter_id t = Some v) then t :: votes_of v l else votes_of v l.
Proof.
  unfold votes_of. destruct (decide (tx_voter_id t = Some v)) as [Heq|Hne].
  - now rewrite filter_cons_True.
  - now rewrite filter_cons_False.
Qed.

(** The fold of [get_voter_votes]: a voter's entry is the candidate of the
    voter's last record, or what the dictionary held when there is none. *)
Lemma voter_votes_fold (txs : list Transaction) (votes : gmap string string) (v : string) :
  foldl (fun votes t =>
           match tx_voter_id t with
           | Some v => <[v := default "Unknown" (tx_candidate t)]> votes
           | None => votes
           end) votes txs !! v
  = match last (votes_of v txs) with
    | Some t => Some (default "Unknown" (tx_candidate t))
    | None => votes !! v
    end.
Proof.
  revert votes; induction txs as [|t txs IH]; intros votes; [reflexivity|].
  simpl. rewrite IH, votes_of_cons.
  destruct (tx_voter_id t) as [v'|] eqn:Hv.
  - destruct (decide (Some v' = Some v)) as [[= ->]|Hne].
    + rewrite lookup_insert_eq.
      destruct (votes_of v txs) as [|t' rest] eqn:Hrest; [reflexivity|].
      change (last (t :: t' :: rest)) with (last (t' :: rest)).
      destruct (last (t' :: rest)) eqn:Hl; [reflexivity|].
      apply last_None in Hl. discriminate.
    + rewrite lookup_insert_ne by congruence. reflexivity.
  - destruct (decide (None = Some v)); [discriminate | reflexivity].
Qed.

Lemma get_voter_votes_lookup (bc : Standalone.Blockchain.t) (voter_id : string) :
  Standalone.Blockchain.get_voter_votes bc !! voter_id
  = (fun t => default "Unknown" (tx_candidate t))
      <$> last (votes_of voter_id (chain_transactions (Standalone.Blockchain.chain bc))).
Proof.
  unfold Standalone.Blockchain.get_voter_votes. rewrite voter_votes_fold, lookup_empty.
  destruct (last _); reflexivity.
Qed.

Lemma has_voter_voted_mined (bc : Standalone.Blockchain.t) (voter_id : string) :
  Standalone.Blockchain.has_voter_voted voter_id bc = true <->
  votes_of voter_id (chain_transactions (Standalone.Blockchain.chain bc)) <> [].
Proof.
  unfold Standalone.Blockchain.has_voter_voted.
  rewrite bool_decide_eq_true, get_voter_votes_lookup.
  destruct (votes_of voter_id _) as [|t rest] eqn:Hv.
  - simpl. split; [intros [x Hx]; discriminate | congruence].
  - split; [congruence|]. intros _.
    destruct (last (t :: rest)) eqn:Hl; [simpl; eauto|].
    apply last_None in Hl. discriminate.
Qed.

(** X7. [get_voter_votes] maps a voter id to the candidate of the last
    vote record with that id in the mined blocks, in chain order, and has
    no entry for a voter id without one; the pending pool is not read. *)
Theorem get_voter_votes_last_record (bc : Standalone.Blockchain.t) (voter_id : string) :
  Standalone.Blockchain.get_voter_votes bc !! voter_id
  = (fun t => default "Unknown" (tx_candidate t))
      <$> last (votes_of voter_id (chain_transactions (Standalone.Blockchain.chain bc))).
Proof. apply get_voter_votes_lookup. Qed.

(** X8. [has_voter_voted] answers [True] exactly for the voter ids that
    have a vote record in a mined block; a vote that is still in the
    pending pool does not count. *)
Theorem has_voter_voted_iff_mined (bc : Standalone.Blockchain.t) (voter_id : string) :
  (Standalone.Blockchain.has_voter_voted voter_id bc = true <->
   votes_of voter_id (chain_transactions (Standalone.Blockchain.chain bc)) <> []) /\
  (forall transaction,
     Standalone.Blockchain.has_voter_voted voter_id
       (fst (Standalone.Blockchain.add_transaction transaction bc))
     = Standalone.Blockchain.has_voter_voted voter_id bc).
Proof. split; [apply has_voter_voted_mined | reflexivity]. Qed.

(** ** The records of a reachable state *)

Lemma is_vote_mono cands (ids ids' : gset string) t :
  ids ⊆ ids' -> is_vote cands ids t -> is_vote cands ids' t.
Proof. intros Hsub (v & c & ts & -> & Hc & Hv). exists v, c, ts. auto. Qed.

Lemma records_are_votes_mono marker cands (ids ids' : gset string) chain pool :
  ids ⊆ ids' ->
  records_are_votes marker cands ids chain pool ->
  records_are_votes marker cands ids' chain pool.
Proof.
  intros Hsub [Hp Hc]. split.
  - intros t Ht. eapply is_vote_mono; eauto.
  - intros t Ht. destruct (Hc t Ht) as [-> | Hv]; [now left | right].
    eapply is_vote_mono; eauto.
Qed.

Lemma records_are_votes_cast marker cands (ids : gset string) chain pool v c ts :
  c ∈ cands -> v ∈ ids ->
  records_are_votes marker cands ids chain pool ->
  records_are_votes marker cands ids chain (pool ++ [TVote v c ts]).
Proof.
  intros Hc Hv [Hp Hch]. split; [|exact Hch].
  intros t Ht. apply elem_of_app in Ht as [Ht | Ht]; [now apply Hp|].
  apply list_elem_of_singleton in Ht as ->. now exists v, c, ts.
Qed.

Lemma records_are_votes_mine marker cands (ids : gset string) chain pool blk :
  Block.transactions blk = pool ->
  records_are_votes marker cands ids chain pool ->
  records_are_votes marker cands ids (chain ++ [blk]) [].
Proof.
  intros Htx [Hp Hch]. split.
  - intros t Ht. now apply elem_of_nil in Ht.
  - intros t Ht. rewrite chain_transactions_app, Htx in Ht.
    apply elem_of_app in Ht as [Ht | Ht]; [now apply Hch | right; now apply Hp].
Qed.

Lemma standalone_reachable_records `{Externals} (vs : Standalone.VotingSystem.t) :
  standalone_reachable vs ->
  Standalone.VotingSystem.candidates vs = ["Alice"; "Bob"; "Charlie"; "Diana"] /\
  records_are_votes (TStr "Genesis Block") (Standalone.VotingSystem.candidates vs)
    (dom (Standalone.VotingSystem.voters vs))
    (Standalone.Blockchain.chain (Standalone.VotingSystem.blockchain vs))
    (Standalone.Blockchain.pending_transactions (Standalone.VotingSystem.blockchain vs)).
Proof.
  revert vs. apply standalone_reachable_cases; simpl.
  - intros g (_ & _ & Hg & _). split; [reflexivity|]. split.
    + intros t Ht. now apply elem_of_nil in Ht.
    + intros t Ht. unfold chain_transactions in Ht. simpl in Ht. rewrite Hg in Ht.
      simpl in Ht. apply list_elem_of_singleton in Ht. now left.
  - intros bc voters cands pv voter_id token [Hc Hr] _. split; [exact Hc|].
    eapply records_are_votes_mono; [|exact Hr]. rewrite dom_insert_L.
    apply union_subseteq_r.
  - intros chain d pool voters cands pv voter_id candidate now v [Hc Hr] Hv _ _ _ Hcand.
    split; [exact Hc|].
    assert (voter_id ∈ dom voters) as Hin by (apply elem_of_dom; eauto).
    apply records_are_votes_cast;
      [exact Hcand | rewrite dom_insert_L; now apply elem_of_union_r|].
    eapply records_are_votes_mono; [|exact Hr]. rewrite dom_insert_L.
    apply union_subseteq_r.
  - intros chain d pool voters cands pv tail blk [Hc Hr] _ _ _ _ Htx _ _.
    split; [exact Hc|]. eapply records_are_votes_mine; eauto.
Qed.

Lemma app_reachable_records `{Externals} (vs : App.VotingSystem.t) :
  app_reachable vs ->
  App.VotingSystem.candidates vs = ["Alice"; "Bob"; "Charlie"; "Diana"; "Edward"] /\
  records_are_votes (TMessage "Genesis Block") (App.VotingSystem.candidates vs)
    (dom (App.VotingSystem.registered_voters vs))
    (App.Blockchain.chain (App.VotingSystem.blockchain vs))
    (App.Blockchain.pending_transactions (App.VotingSystem.blockchain vs)).
Proof.
  revert vs. apply app_reachable_cases; simpl.
  - intros g (_ & _ & Hg & _). split; [reflexivity|]. split.
    + intros t Ht. now apply elem_of_nil in Ht.
    + intros t Ht. unfold chain_transactions in Ht. simpl in Ht. rewrite Hg in Ht.
      simpl in Ht. apply list_elem_of_singleton in Ht. now left.
  - intros bc voters cands voter_id token [Hc Hr] _. split; [exact Hc|].
    eapply records_are_votes_mono; [|exact Hr]. rewrite dom_insert_L.
    apply union_subseteq_r.
  - intros chain d pool voted voters cands voter_id candidate now [Hc Hr] Hv _ Hcand.
    split; [exact Hc|].
    apply records_are_votes_cast; [exact Hcand | now apply elem_of_dom | exact Hr].
  - intros chain d pool voted voters cands tail blk [Hc Hr] _ _ _ _ Htx _ _.
    split; [exact Hc|]. eapply records_are_votes_mine; eauto.
Qed.

(** In [app.py] the voters in [voted_voters] are the voters with a record. *)
Lemma app_reachable_voted `{Externals} (vs : App.VotingSystem.t) :
  app_reachable vs ->
  forall v, v ∈ App.Blockchain.voted_voters (App.VotingSystem.blockchain vs) <->
            votes_of v (app_records vs) <> [].
Proof.
  intros Hr v. split; [|apply (app_reachable_one_vote vs Hr v)].
  revert vs Hr v. apply (app_reachable_cases
    (fun vs => forall v, v ∈ App.Blockchain.voted_voters (App.VotingSystem.blockchain vs) ->
                         votes_of v (app_records vs) <> [])); unfold app_records; simpl.
  - intros g _ v Hv. now apply not_elem_of_empty in Hv.
  - auto.
  - intros chain d pool voted voters cands voter_id candidate now IH _ _ _ v Hv.
    rewrite app_assoc, votes_of_app, votes_of_vote.
    apply elem_of_union in Hv as [Hv | Hv].
    + apply elem_of_singleton in Hv as ->. rewrite decide_True by reflexivity.
      intros Hnil. apply app_eq_nil in Hnil as [_ Hnil]. discriminate.
    + intros Hnil. apply app_eq_nil in Hnil as [Hnil _]. now apply (IH v).
  - intros chain d pool voted voters cands tail blk IH _ _ _ _ Htx _ _ v Hv.
    rewrite chain_transactions_app, Htx, app_nil_r. now apply IH.
Qed.

(** ** Admitting a vote *)

(** X9. A registered voter who has not voted is admitted: in a reachable
    state, [cast_vote] with the voter's token and a configured candidate
    returns the success result, appends the vote record to the pending
    pool and marks the voter as having voted; the chain is untouched. *)
Theorem eligible_vote_is_accepted `{Externals} (now : float) (voter_id token candidate : string)
    (svs : Standalone.VotingSystem.t) (avs : App.VotingSystem.t) :
  (standalone_reachable svs ->
   Standalone.VotingSystem.voters svs !! voter_id
   = Some (Standalone.VotingSystem.mkVoter token false) ->
   candidate ∈ Standalone.VotingSystem.candidates svs ->
   Standalone.VotingSystem.cast_vote now voter_id token candidate svs
   = (Standalone.VotingSystem.mk
        (Standalone.Blockchain.mk
           (Standalone.Blockchain.chain (Standalone.VotingSystem.blockchain svs))
           (Standalone.Blockchain.difficulty (Standalone.VotingSystem.blockchain svs))
           (Standalone.Blockchain.pending_transactions (Standalone.VotingSystem.blockchain svs)
            ++ [TVote voter_id candidate now]))
        (<[voter_id := Standalone.VotingSystem.mkVoter token true]>
           (Standalone.VotingSystem.voters svs))
        (Standalone.VotingSystem.candidates svs)
        (<[voter_id := TVote voter_id candidate now]>
           (Standalone.VotingSystem.pending_votes svs)),
      "Vote cast successfully! It will be added to blockchain when mined.")) /\
  (app_reachable avs ->
   App.VotingSystem.registered_voters avs !! voter_id = Some token ->
   candidate ∈ App.VotingSystem.candidates avs ->
   votes_of voter_id (app_records avs) = [] ->
   App.VotingSystem.cast_vote now voter_id token candidate avs
   = (App.VotingSystem.mk
        (App.Blockchain.mk
           (App.Blockchain.chain (App.VotingSystem.blockchain avs))
           (App.Blockchain.difficulty (App.VotingSystem.blockchain avs))
           (App.Blockchain.pending_transactions (App.VotingSystem.blockchain avs)
            ++ [TVote voter_id candidate now])
           ({[voter_id]} ∪ App.Blockchain.voted_voters (App.VotingSystem.blockchain avs)))
        (App.VotingSystem.registered_voters avs)
        (App.VotingSystem.candidates avs),
      (true, "Vote added successfully"))).
Proof.
  split.
  - intros Hr Hv Hc.
    destruct (standalone_reachable_one_vote svs Hr voter_id) as [_ Hvoted].
    assert (votes_of voter_id (standalone_records svs) = []) as Hnone.
    { destruct (votes_of voter_id (standalone_records svs)) eqn:E; [reflexivity|].
      destruct Hvoted as (x & Hx & Hxv); [congruence|].
      rewrite Hv in Hx. injection Hx as <-. discriminate. }
    unfold standalone_records in Hnone. rewrite votes_of_app in Hnone.
    apply app_eq_nil in Hnone as [Hchain Hpool].
    assert (Standalone.Blockchain.has_voter_voted voter_id
              (Standalone.VotingSystem.blockchain svs) = false) as Hbc.
    { apply not_true_is_false. intros Ht. now apply has_voter_voted_mined in Ht. }
    assert (Standalone.VotingSystem.pending_votes svs !! voter_id = None) as Hpv.
    { destruct (Standalone.VotingSystem.pending_votes svs !! voter_id) as [tx|] eqn:E;
        [|reflexivity].
      apply (standalone_reachable_in_sync svs Hr) in E as [Hin Hid].
      assert (tx ∈ votes_of voter_id
                (Standalone.Blockchain.pending_transactions
                   (Standalone.VotingSystem.blockchain svs))) as Hmem
        by (apply list_elem_of_filter; now split).
      rewrite Hpool in Hmem. now apply elem_of_nil in Hmem. }
    unfold Standalone.VotingSystem.cast_vote, Standalone.VotingSystem.verify_token.
    rewrite Hv. simpl. rewrite String.eqb_refl. simpl.
    rewrite bool_decide_eq_true_2 by exact Hc. simpl.
    rewrite Hbc, Hpv. simpl. reflexivity.
  - intros Hr Hv Hc Hnone.
    assert (voter_id ∉ App.Blockchain.voted_voters (App.VotingSystem.blockchain avs)) as Hnot.
    { intros Hin. now apply (app_reachable_voted avs Hr) in Hin. }
    unfold App.VotingSystem.cast_vote, App.VotingSystem.verify_voter, App.Blockchain.add_vote.
    rewrite Hv, String.eqb_refl. simpl.
    rewrite bool_decide_eq_true_2 by exact Hc. simpl.
    rewrite bool_decide_eq_false_2 by exact Hnot. reflexivity.
Qed.

Lemma eligible_vote_is_accepted_witness :
  snd (Standalone.VotingSystem.cast_vote 3.5%float "V1" "01abcdefabcd" "Alice"
         demo_standalone_registered)
  = "Vote cast successfully! It will be added to blockchain when mined." /\
  snd (App.VotingSystem.cast_vote 3.5%float "V1" "01abcdefabcd" "Alice" demo_app_registered)
  = (true, "Vote added successfully").
Proof.
  destruct (eligible_vote_is_accepted (H := demo_externals) 3.5%float "V1" "01abcdefabcd"
              "Alice" demo_standalone_registered demo_app_registered) as [Hs Ha].
  split.
  - rewrite Hs; [reflexivity | | vm_compute; reflexivity |].
    + apply (sr_register 2.5%float "V1" demo_standalone_fresh _ "01abcdefabcd").
      * apply (sr_init 3 1.5%float). vm_compute. reflexivity.
      * vm_compute. reflexivity.
    + apply (bool_decide_eq_true_1 _). vm_compute. reflexivity.
  - rewrite Ha; [reflexivity | | vm_compute; reflexivity | | vm_compute; reflexivity].
    + apply demo_app_registered_reachable.
    + apply (bool_decide_eq_true_1 _). vm_compute. reflexivity.
Defined.

(** ** More on the tally *)

Lemma votes_for_pos (c : string) (l : list Transaction) :
  votes_for c l <> O -> exists t, t ∈ l /\ tx_candidate t = Some c.
Proof.
  unfold votes_for. intros Hne.
  destruct (filter (fun t => tx_candidate t = Some c) l) as [|t rest] eqn:Hf; [done|].
  assert (t ∈ filter (fun t => tx_candidate t = Some c) l) as Hin
    by (rewrite Hf; apply list_elem_of_here).
  apply list_elem_of_filter in Hin as [Hc Hin]. eauto.
Qed.

Lemma tally_entry_some (n k : nat) : tally_entry n = Some k -> n = k /\ (1 <= k)%nat.
Proof. destruct n; simpl; [discriminate|]. intros [= <-]. lia. Qed.

(** X10. The tally names configured candidates only: in a reachable
    state every key of the dictionary [get_results] returns is one of the
    candidates, and its count is at least 1. *)
Theorem tally_keys_are_candidates `{Externals} (c : string) (n : nat)
    (svs : Standalone.VotingSystem.t) (avs : App.VotingSystem.t) :
  (standalone_reachable svs ->
   Standalone.VotingSystem.get_results svs !! c = Some n ->
   c ∈ ["Alice"; "Bob"; "Charlie"; "Diana"] /\ (1 <= n)%nat) /\
  (app_reachable avs ->
   App.VotingSystem.get_results avs !! c = Some n ->
   c ∈ ["Alice"; "Bob"; "Charlie"; "Diana"; "Edward"] /\ (1 <= n)%nat).
Proof.
  split; intros Hr Hl.
  - destruct (standalone_reachable_records svs Hr) as [Hcands [_ Hchain]].
    unfold Standalone.VotingSystem.get_results in Hl.
    rewrite standalone_get_vote_counts_lookup in Hl.
    apply tally_entry_some in Hl as [Hn Hpos]. split; [|exact Hpos].
    destruct (votes_for_pos c _ ltac:(rewrite Hn; lia)) as (t & Ht & Hc).
    destruct (Hchain t Ht) as [-> | (v & c' & ts & -> & Hc' & _)]; [discriminate|].
    simpl in Hc. injection Hc as ->. now rewrite <- Hcands.
  - destruct (app_reachable_records avs Hr) as [Hcands [Hpool Hchain]].
    unfold App.VotingSystem.get_results in Hl. rewrite app_get_results_lookup in Hl.
    apply tally_entry_some in Hl as [Hn Hpos]. split; [|exact Hpos].
    rewrite <- votes_for_app in Hn.
    destruct (votes_for_pos c _ ltac:(rewrite Hn; lia)) as (t & Ht & Hc).
    assert (is_vote (App.VotingSystem.candidates avs)
              (dom (App.VotingSystem.registered_voters avs)) t) as (v & c' & ts & -> & Hc' & _).
    { apply elem_of_app in Ht as [Ht | Ht]; [|now apply Hpool].
      assert (t ∈ chain_transactions (App.Blockchain.chain (App.VotingSystem.blockchain avs)))
        as Ht'.
      { destruct (App.Blockchain.chain (App.VotingSystem.blockchain avs)) as [|g rest];
          [exact Ht|]. simpl in Ht. unfold chain_transactions. simpl.
        apply elem_of_app. now right. }
      destruct (Hchain t Ht') as [-> | Hv]; [discriminate | exact Hv]. }
    simpl in Hc. injection Hc as ->. now rewrite <- Hcands.
Qed.

Lemma tally_keys_are_candidates_witness :
  "Alice" ∈ ["Alice"; "Bob"; "Charlie"; "Diana"] /\
  "Alice" ∈ ["Alice"; "Bob"; "Charlie"; "Diana"; "Edward"].
Proof.
  destruct (tally_keys_are_candidates (H := demo_externals) "Alice" 1
              demo_standalone_mined demo_app_system) as [Hs Ha].
  split.
  - apply Hs; [apply demo_standalone_mined_reachable | vm_compute; reflexivity].
  - apply Ha; [apply demo_app_system_reachable | vm_compute; reflexivity].
Defined.

(** X11. Mining and the tally.  In [app.py] a mining call that returns
    leaves [get_results] as it was: a vote counts once, pending or mined.
    In [blockchain.py] a successful mining call adds the votes of the
    pool to [get_vote_counts], and a failed one changes nothing. *)
Theorem mining_and_the_tally `{Externals} (fuel : nat) (now : float)
    (sbc sbc' : Standalone.Blockchain.t) (ok : bool)
    (abc abc' : App.Blockchain.t) (r : bool * string) :
  (App.Blockchain.mine_pending_transactions fuel now abc = Ret (abc', r) ->
   App.Blockchain.get_results abc' = App.Blockchain.get_results abc) /\
  (Standalone.Blockchain.mine_pending_transactions fuel now sbc = Ret (sbc', ok) ->
   forall c,
     Standalone.Blockchain.get_vote_counts sbc' !! c
     = tally_entry
         (votes_for c (chain_transactions (Standalone.Blockchain.chain sbc))
          + votes_for c (Standalone.Blockchain.pending_transactions sbc))).
Proof.
  split.
  - intros Hm. unfold App.Blockchain.mine_pending_transactions in Hm.
    destruct (App.Blockchain.pending_transactions abc) as [|t0 pool] eqn:Hpool;
      [now injection Hm as <-|].
    unfold App.Blockchain.get_latest_block in Hm.
    destruct (last (App.Blockchain.chain abc)) as [tail|] eqn:Hl; simpl in Hm;
      [|discriminate].
    destruct (Block.mine_block _ _ _) as [blk| |] eqn:Hb; simpl in Hm; try discriminate.
    injection Hm as <- _. apply mine_block_ret in Hb as (_ & Htx & _). simpl in Htx.
    apply map_eq. intros c. rewrite !app_get_results_lookup. simpl. rewrite Hpool.
    assert (1 <= length (App.Blockchain.chain abc))%nat as Hlen
      by (destruct (App.Blockchain.chain abc); [discriminate | simpl; lia]).
    rewrite drop_app_le by exact Hlen.
    rewrite chain_transactions_app, votes_for_app, Htx. f_equal.
    unfold votes_for at 3. simpl. lia.
  - intros Hm c. rewrite standalone_get_vote_counts_lookup.
    unfold Standalone.Blockchain.mine_pending_transactions in Hm.
    destruct (Standalone.Blockchain.pending_transactions sbc) as [|t0 pool] eqn:Hpool.
    + injection Hm as <- _. f_equal. unfold votes_for. simpl. lia.
    + destruct (Standalone.Blockchain.get_latest_block sbc); simpl in Hm; try discriminate.
      destruct (Block.mine_block _ _ _) as [blk| |] eqn:Hb; simpl in Hm; try discriminate.
      injection Hm as <- _. apply mine_block_ret in Hb as (_ & Htx & _). simpl in Htx.
      simpl. now rewrite chain_transactions_app, votes_for_app, Htx.
Qed.

Lemma mining_and_the_tally_witness :
  App.Blockchain.get_results (App.VotingSystem.blockchain demo_app_mined)
  = App.Blockchain.get_results demo_app_ledger /\
  Standalone.Blockchain.get_vote_counts (Standalone.VotingSystem.blockchain demo_standalone_mined)
    !! "Alice"
  = tally_entry (0 + 1).
Proof.
  destruct (mining_and_the_tally (H := demo_externals) 5 4.5%float
              demo_standalone_ledger
              (Standalone.VotingSystem.blockchain demo_standalone_mined) true
              demo_app_ledger (App.VotingSystem.blockchain demo_app_mined)
              (true, "Mined 1 votes into block #1")) as [Ha Hs].
  split.
  - apply Ha. vm_compute. reflexivity.
  - apply (Hs ltac:(vm_compute; reflexivity) "Alice").
Defined.

(** ** Counting: [get_chain_data] and [get_pending_votes_count] *)

Lemma sum_list_lengths (chain : list Block.t) :
  sum_list (map (fun block => length (Block.transactions block)) chain)
  = length (chain_transactions chain).
Proof.
  unfold chain_transactions. induction chain as [|b chain IH]; [reflexivity|].
  simpl. rewrite length_app, IH. reflexivity.
Qed.

Lemma sum_list_snoc (l : list nat) (x : nat) :
  sum_list (l ++ [x]) = (sum_list l + x)%nat.
Proof. induction l as [|y l IH]; simpl; [lia | rewrite IH; lia]. Qed.

(** X12. [get_chain_data] reports one entry per block, the size of the
    pool as [pending_count] and, as [total_votes], the number of
    transactions after the genesis block plus the pool; in a reachable
    state that total is the number of voters who have voted. *)
Theorem chain_data_counts `{Externals} `{Datetime} (avs : App.VotingSystem.t) :
  let bc := App.VotingSystem.blockchain avs in
  let data := App.Blockchain.get_chain_data bc in
  length (App.Blockchain.blocks data) = length (App.Blockchain.chain bc) /\
  App.Blockchain.pending_count data = length (App.Blockchain.pending_transactions bc) /\
  App.Blockchain.total_votes data
  = (length (chain_transactions (drop 1 (App.Blockchain.chain bc)))
     + length (App.Blockchain.pending_transactions bc))%nat /\
  (app_reachable avs ->
   App.Blockchain.total_votes data = size (App.Blockchain.voted_voters bc)).
Proof.
  intros bc data. unfold data, App.Blockchain.get_chain_data. simpl.
  split; [apply length_map|]. split; [reflexivity|]. split; [now rewrite sum_list_lengths|].
  unfold bc. clear bc data. revert avs. apply app_reachable_cases;
    cbn [App.VotingSystem.blockchain App.Blockchain.chain
         App.Blockchain.pending_transactions App.Blockchain.voted_voters].
  - intros g _. rewrite size_empty. reflexivity.
  - auto.
  - intros chain d pool voted voters cands voter_id candidate now IH _ Hnot _.
    rewrite length_app, size_union, size_singleton
      by (apply disjoint_singleton_l; exact Hnot).
    simpl. lia.
  - intros chain d pool voted voters cands tail blk IH _ Hl _ _ Htx _ _.
    assert (1 <= length chain)%nat as Hlen
      by (destruct chain; [discriminate | simpl; lia]).
    rewrite drop_app_le, map_app by exact Hlen.
    change (map _ [blk]) with [length (Block.transactions blk)].
    rewrite sum_list_snoc, Htx. simpl in *. lia.
Qed.

Lemma chain_data_counts_witness :
  App.Blockchain.total_votes
    (App.Blockchain.get_chain_data (H := demo_datetime) (App.VotingSystem.blockchain demo_app_mined))
  = size (App.Blockchain.voted_voters (App.VotingSystem.blockchain demo_app_mined)).
Proof.
  destruct (chain_data_counts (H := demo_externals) (H0 := demo_datetime) demo_app_mined)
    as (_ & _ & _ & Hr).
  apply Hr, demo_app_mined_reachable.
Defined.

(** X13. [get_pending_votes_count] is the size of the ledger's pending
    pool in every reachable state. *)
Theorem pending_votes_count_is_pool_size `{Externals} (svs : Standalone.VotingSystem.t) :
  standalone_reachable svs ->
  Standalone.VotingSystem.get_pending_votes_count svs
  = length (Standalone.Blockchain.pending_transactions
              (Standalone.VotingSystem.blockchain svs)).
Proof.
  unfold Standalone.VotingSystem.get_pending_votes_count.
  revert svs. apply standalone_reachable_cases; simpl.
  - intros g _. apply map_size_empty.
  - auto.
  - intros chain d pool voters cands pv voter_id candidate now v IH _ _ _ Hpv _.
    rewrite map_size_insert_None by exact Hpv. rewrite length_app, IH. simpl. lia.
  - intros. apply map_size_empty.
Qed.

Lemma pending_votes_count_is_pool_size_witness :
  Standalone.VotingSystem.get_pending_votes_count demo_standalone_system = 1%nat.
Proof.
  rewrite (pending_votes_count_is_pool_size (H := demo_externals) demo_standalone_system
             demo_standalone_system_reachable).
  reflexivity.
Defined.

(** ** Tokens and errors *)

Lemma py_slice_to_length (s : string) (d : Z) :
  0 <= d <= Z.of_nat (String.length s) ->
  String.length (py_slice_to s d) = Z.to_nat d.
Proof.
  intros Hd. unfold py_slice_to. destruct (Z.ltb_spec d 0) as [?|_]; [lia|].
  rewrite substring_0_length. lia.
Qed.

(** X14. A token has 12 characters: whatever the voter id and the time,
    the token [register_voter] returns is 12 characters long. *)
Theorem issued_token_has_12_characters `{Externals} (now : float) (voter_id token : string)
    (svs svs' : Standalone.VotingSystem.t) (avs avs' : App.VotingSystem.t)
    (ok : bool) (msg : string) :
  (Standalone.VotingSystem.register_voter now voter_id svs = Ret (svs', token) ->
   String.length token = 12%nat) /\
  (App.VotingSystem.register_voter now voter_id avs = Ret (avs', (ok, msg, Some token)) ->
   String.length token = 12%nat).
Proof.
  assert (String.length (py_slice_to (sha256_hexdigest (voter_id +:+ str_of_float now)) 12)
          = 12%nat) as Hlen.
  { rewrite py_slice_to_length; [reflexivity|]. rewrite sha256_hexdigest_length. lia. }
  split.
  - unfold Standalone.VotingSystem.register_voter.
    destruct (Standalone.VotingSystem.voters svs !! voter_id); [discriminate|].
    destruct (str_encodes _); [|discriminate].
    intros [= _ <-]. exact Hlen.
  - unfold App.VotingSystem.register_voter.
    destruct (App.VotingSystem.registered_voters avs !! voter_id); [discriminate|].
    destruct (str_encodes _); [|discriminate].
    intros [= _ _ _ <-]. exact Hlen.
Qed.

Lemma issued_token_has_12_characters_witness :
  String.length "01abcdefabcd" = 12%nat.
Proof.
  destruct (issued_token_has_12_characters (H := demo_externals) 2.5%float "V1" "01abcdefabcd"
              demo_standalone_fresh demo_standalone_registered demo_app_fresh
              demo_app_registered true "Registration successful") as [Hs _].
  apply Hs. vm_compute. reflexivity.
Defined.

(** X15. Mining needs a chain to append to: on a ledger with an empty
    chain and a pool that is not empty, [mine_pending_transactions] raises
    [IndexError] (from [get_latest_block]) whatever the fuel.  No
    reachable state has an empty chain, and [mine_votes] never raises in
    one. *)
Theorem mining_raises_only_without_chain `{Externals} (fuel : nat) (now : float)
    (sbc : Standalone.Blockchain.t) (abc : App.Blockchain.t)
    (svs : Standalone.VotingSystem.t) (avs : App.VotingSystem.t) :
  (Standalone.Blockchain.chain sbc = [] ->
   Standalone.Blockchain.pending_transactions sbc <> [] ->
   Standalone.Blockchain.mine_pending_transactions fuel now sbc = Raise IndexError) /\
  (App.Blockchain.chain abc = [] ->
   App.Blockchain.pending_transactions abc <> [] ->
   App.Blockchain.mine_pending_transactions fuel now abc = Raise IndexError) /\
  (standalone_reachable svs ->
   Standalone.Blockchain.chain (Standalone.VotingSystem.blockchain svs) <> [] /\
   forall e, Standalone.VotingSystem.mine_votes fuel now svs <> Raise e) /\
  (app_reachable avs ->
   App.Blockchain.chain (App.VotingSystem.blockchain avs) <> [] /\
   forall e, App.VotingSystem.mine_votes fuel now avs <> Raise e).
Proof.
  split; [|split; [|split]].
  - intros Hc Hp. unfold Standalone.Blockchain.mine_pending_transactions,
      Standalone.Blockchain.get_latest_block.
    destruct (Standalone.Blockchain.pending_transactions sbc); [done|]. now rewrite Hc.
  - intros Hc Hp. unfold App.Blockchain.mine_pending_transactions,
      App.Blockchain.get_latest_block.
    destruct (App.Blockchain.pending_transactions abc); [done|]. now rewrite Hc.
  - intros Hr. destruct (standalone_reachable_ledger svs Hr) as [[tail Hl] _].
    split; [intros Hnil; rewrite Hnil in Hl; discriminate|]. intros e.
    unfold Standalone.VotingSystem.mine_votes, Standalone.Blockchain.mine_pending_transactions,
      Standalone.Blockchain.get_latest_block.
    destruct (Standalone.Blockchain.pending_transactions _); [discriminate|].
    rewrite Hl. simpl.
    destruct (Block.mine_block _ _ _) eqn:Hm; simpl; try discriminate.
    exfalso. eapply mine_block_no_raise, Hm.
  - intros Hr. destruct (app_reachable_ledger avs Hr) as [[tail Hl] _].
    split; [intros Hnil; rewrite Hnil in Hl; discriminate|]. intros e.
    unfold App.VotingSystem.mine_votes, App.Blockchain.mine_pending_transactions,
      App.Blockchain.get_latest_block.
    destruct (App.Blockchain.pending_transactions _); [discriminate|].
    rewrite Hl. simpl.
    destruct (Block.mine_block _ _ _) eqn:Hm; simpl; try discriminate.
    exfalso. eapply mine_block_no_raise, Hm.
Qed.

Lemma mining_raises_only_without_chain_witness :
  Standalone.Blockchain.mine_pending_transactions (H := demo_externals) 5 4.5%float
    (Standalone.Blockchain.mk [] 2 [TVote "V1" "Alice" 3.5%float]) = Raise IndexError /\
  App.Blockchain.mine_pending_transactions (H := demo_externals) 5 4.5%float
    (App.Blockchain.mk [] 2 [TVote "V1" "Alice" 3.5%float] ∅) = Raise IndexError /\
  Standalone.VotingSystem.mine_votes (H := demo_externals) 5 4.5%float demo_standalone_system
  <> Raise IndexError /\
  Standalone.Blockchain.chain (Standalone.VotingSystem.blockchain demo_standalone_system) <> [] /\
  App.Blockchain.chain (App.VotingSystem.blockchain demo_app_system) <> [].
Proof.
  destruct (mining_raises_only_without_chain (H := demo_externals) 5 4.5%float
              (Standalone.Blockchain.mk [] 2 [TVote "V1" "Alice" 3.5%float])
              (App.Blockchain.mk [] 2 [TVote "V1" "Alice" 3.5%float] ∅)
              demo_standalone_system demo_app_system) as (Hs & Ha & Hr & Hra).
  split; [|split; [|split; [|split]]].
  - apply Hs; [reflexivity | discriminate].
  - apply Ha; [reflexivity | discriminate].
  - apply (Hr demo_standalone_system_reachable).
  - apply (Hr demo_standalone_system_reachable).
  - apply (Hra demo_app_system_reachable).
Defined.

(** ** The status of the voters: [get_voter_status] *)

Lemma votes_of_nonempty (v : string) (l : list Transaction) :
  votes_of v l <> [] <-> exists t, t ∈ l /\ tx_voter_id t = Some v.
Proof.
  unfold votes_of. split.
  - intros Hne. destruct (filter _ l) as [|t rest] eqn:Hf; [done|].
    assert (t ∈ filter (fun t => tx_voter_id t = Some v) l) as Hin
      by (rewrite Hf; apply list_elem_of_here).
    apply list_elem_of_filter in Hin as [Hv Hin]. eauto.
  - intros (t & Hin & Hv) Hnil.
    assert (t ∈ filter (fun t => tx_voter_id t = Some v) l) as Hmem
      by (apply list_elem_of_filter; now split).
    rewrite Hnil in Hmem. now apply elem_of_nil in Hmem.
Qed.

(** In [voting_system.py] a voter flagged as having voted has a record. *)
Lemma standalone_reachable_voted `{Externals} (vs : Standalone.VotingSystem.t) :
  standalone_reachable vs ->
  forall v x, Standalone.VotingSystem.voters vs !! v = Some x ->
              (Standalone.VotingSystem.voted x = true <->
               votes_of v (standalone_records vs) <> []).
Proof.
  intros Hr v x Hx. split.
  - revert vs Hr v x Hx. apply (standalone_reachable_cases
      (fun vs => forall v x, Standalone.VotingSystem.voters vs !! v = Some x ->
                             Standalone.VotingSystem.voted x = true ->
                             votes_of v (standalone_records vs) <> []));
      unfold standalone_records; simpl.
    + intros g _ v x Hx. now rewrite lookup_empty in Hx.
    + intros bc voters cands pv voter_id token IH Hnone v x Hx Hv.
      destruct (decide (voter_id = v)) as [<-|Hne].
      * rewrite lookup_insert_eq in Hx. injection Hx as <-. discriminate.
      * rewrite lookup_insert_ne in Hx by exact Hne. eapply IH; eauto.
    + intros chain d pool voters cands pv voter_id candidate now x0 IH _ _ _ _ _ v x Hx Hv.
      rewrite app_assoc, votes_of_app, votes_of_vote.
      destruct (decide (voter_id = v)) as [<-|Hne].
      * intros Hnil. apply app_eq_nil in Hnil as [_ Hnil]. discriminate.
      * rewrite lookup_insert_ne in Hx by exact Hne. rewrite app_nil_r. eapply IH; eauto.
    + intros chain d pool voters cands pv tail blk IH _ _ _ _ Htx _ _ v x Hx Hv.
      rewrite chain_transactions_app, Htx, app_nil_r. eapply IH; eauto.
  - intros Hne. destruct (standalone_reachable_one_vote vs Hr v) as [_ Hvoted].
    destruct (Hvoted Hne) as (y & Hy & Hyv). congruence.
Qed.

(** X16. [voting_system.py]'s [get_voter_status] has an entry for exactly
    the registered voters.  In a reachable state the entry's [has_voted]
    is the voter's [voted] flag and is true exactly when the voter has a
    vote record, pending or mined; [voted_for] is the candidate of the
    voter's mined vote and ["Not voted yet"] as long as the vote is not
    mined; [token] is the first four characters of the token and
    ["..."]. *)
Theorem standalone_voter_status `{Externals} (svs : Standalone.VotingSystem.t) (voter_id : string) :
  (Standalone.VotingSystem.voters svs !! voter_id = None ->
   Standalone.VotingSystem.get_voter_status svs !! voter_id = None) /\
  (standalone_reachable svs ->
   forall x, Standalone.VotingSystem.voters svs !! voter_id = Some x ->
   exists entry,
     Standalone.VotingSystem.get_voter_status svs !! voter_id = Some entry /\
     Standalone.VotingSystem.Status.registered entry = true /\
     Standalone.VotingSystem.Status.has_voted entry = Standalone.VotingSystem.voted x /\
     (Standalone.VotingSystem.Status.has_voted entry = true <->
      votes_of voter_id (standalone_records svs) <> []) /\
     Standalone.VotingSystem.Status.token entry
     = py_slice_to (Standalone.VotingSystem.token x) 4 +:+ "..." /\
     (forall candidate ts,
        TVote voter_id candidate ts
          ∈ chain_transactions (Standalone.Blockchain.chain (Standalone.VotingSystem.blockchain svs)) ->
        Standalone.VotingSystem.Status.voted_for entry = candidate) /\
     (votes_of voter_id
        (chain_transactions (Standalone.Blockchain.chain (Standalone.VotingSystem.blockchain svs)))
      = [] ->
      Standalone.VotingSystem.Status.voted_for entry = "Not voted yet")).
Proof.
  split.
  - intros Hx. unfold Standalone.VotingSystem.get_voter_status.
    now rewrite map_lookup_imap, Hx.
  - intros Hr x Hx. unfold Standalone.VotingSystem.get_voter_status.
    rewrite map_lookup_imap, Hx. simpl. eexists. split; [reflexivity|]. simpl.
    pose proof (standalone_reachable_voted svs Hr voter_id x Hx) as Hvoted.
    destruct (standalone_reachable_one_vote svs Hr voter_id) as [Hle _].
    unfold standalone_records in Hvoted, Hle. rewrite votes_of_app in Hvoted, Hle.
    assert (Standalone.VotingSystem.voted x
            || bool_decide (is_Some (Standalone.Blockchain.get_voter_votes
                                       (Standalone.VotingSystem.blockchain svs) !! voter_id))
            || bool_decide (is_Some (Standalone.VotingSystem.pending_votes svs !! voter_id))
            = Standalone.VotingSystem.voted x) as Hhas.
    { destruct (Standalone.VotingSystem.voted x) eqn:Hv; [reflexivity|]. simpl.
      assert (votes_of voter_id
                (chain_transactions
                   (Standalone.Blockchain.chain (Standalone.VotingSystem.blockchain svs)))
              ++ votes_of voter_id
                   (Standalone.Blockchain.pending_transactions
                      (Standalone.VotingSystem.blockchain svs)) = []) as Hnil.
      { destruct (_ ++ _) eqn:E; [reflexivity|].
        assert (false = true) by (apply Hvoted; discriminate). discriminate. }
      apply app_eq_nil in Hnil as [Hchain Hpool].
      rewrite bool_decide_eq_false_2, bool_decide_eq_false_2; [reflexivity | |].
      - intros [tx Htx].
        apply (standalone_reachable_in_sync svs Hr) in Htx as [Hin Hid].
        assert (votes_of voter_id
                  (Standalone.Blockchain.pending_transactions
                     (Standalone.VotingSystem.blockchain svs)) <> []) as Hne
          by (apply votes_of_nonempty; eauto).
        contradiction.
      - intros Hsome.
        assert (Standalone.Blockchain.has_voter_voted voter_id
                  (Standalone.VotingSystem.blockchain svs) = true) as Ht
          by (apply bool_decide_eq_true_2; exact Hsome).
        apply has_voter_voted_mined in Ht. contradiction. }
    split; [reflexivity|]. split; [exact Hhas|].
    split; [rewrite Hhas; unfold standalone_records; rewrite votes_of_app; exact Hvoted|].
    split; [reflexivity|]. rewrite get_voter_votes_lookup. split.
    + intros candidate ts Hin.
      assert (TVote voter_id candidate ts
                ∈ votes_of voter_id
                    (chain_transactions
                       (Standalone.Blockchain.chain (Standalone.VotingSystem.blockchain svs))))
        as Hmem by (apply list_elem_of_filter; now split).
      destruct (votes_of voter_id (chain_transactions _)) as [|t [|t' rest]].
      * now apply elem_of_nil in Hmem.
      * apply list_elem_of_singleton in Hmem as <-. reflexivity.
      * simpl in Hle. lia.
    + intros ->. reflexivity.
Qed.

Lemma standalone_voter_status_witness :
  exists entry,
    Standalone.VotingSystem.get_voter_status demo_standalone_system !! "V1" = Some entry /\
    Standalone.VotingSystem.Status.has_voted entry = true /\
    Standalone.VotingSystem.Status.voted_for entry = "Not voted yet".
Proof.
  destruct (standalone_voter_status (H := demo_externals) demo_standalone_system "V1")
    as [_ Hr].
  destruct (Hr demo_standalone_system_reachable
              (Standalone.VotingSystem.mkVoter "01abcdefabcd" true))
    as (entry & He & _ & Hv & _ & _ & _ & Hnot).
  - vm_compute. reflexivity.
  - exists entry. split; [exact He|]. split; [exact Hv|]. apply Hnot. reflexivity.
Defined.

Lemma mapM_get_voter_id (pool : list Transaction) :
  (forall t, t ∈ pool -> forall s, t <> TStr s) ->
  mapM App.VotingSystem.tx_get_voter_id pool = Some (tx_voter_id <$> pool).
Proof.
  intros Hvotes. apply mapM_Some. apply Forall2_fmap_r, Forall_Forall2_diag.
  apply Forall_forall. intros t Ht. specialize (Hvotes t Ht).
  destruct t; simpl; [now contradiction (Hvotes s) | reflexivity | reflexivity].
Qed.

Lemma pending_voter_id (v : string) (pool : list Transaction) :
  Some v ∈ (tx_voter_id <$> pool) <-> votes_of v pool <> [].
Proof.
  rewrite votes_of_nonempty, list_elem_of_fmap. split.
  - intros (t & Hv & Hin). eauto.
  - intros (t & Hin & Hv). eauto.
Qed.

(** X17. [app.py]'s [get_voter_status] does not raise in a reachable state
    and has an entry for exactly the registered voters, with the first
    four characters of the token and ["****"] as preview.  [has_voted] is
    true exactly when the voter has a vote record, and [voted_at] is
    ["Pending"] exactly when that record is in the pending pool, ["Mined"]
    exactly when it is in a mined block, ["Not voted"] exactly when there
    is none. *)
Theorem app_voter_status `{Externals} (avs : App.VotingSystem.t) :
  app_reachable avs ->
  let bc := App.VotingSystem.blockchain avs in
  exists status,
    App.VotingSystem.get_voter_status avs = Some status /\
    forall voter_id,
      match App.VotingSystem.registered_voters avs !! voter_id with
      | None => status !! voter_id = None
      | Some token =>
          exists entry,
            status !! voter_id = Some entry /\
            App.VotingSystem.Status.registered entry = true /\
            App.VotingSystem.Status.token_preview entry = py_slice_to token 4 +:+ "****" /\
            (App.VotingSystem.Status.has_voted entry = true <->
             votes_of voter_id (app_records avs) <> []) /\
            (App.VotingSystem.Status.voted_at entry = "Pending" <->
             votes_of voter_id (App.Blockchain.pending_transactions bc) <> []) /\
            (App.VotingSystem.Status.voted_at entry = "Mined" <->
             votes_of voter_id (chain_transactions (App.Blockchain.chain bc)) <> []) /\
            (App.VotingSystem.Status.voted_at entry = "Not voted" <->
             votes_of voter_id (app_records avs) = [])
      end.
Proof.
  intros Hr bc. subst bc. set (bc := App.VotingSystem.blockchain avs).
  destruct (app_reachable_records avs Hr) as [_ [Hpool _]]. fold bc in Hpool.
  assert (mapM App.VotingSystem.tx_get_voter_id (App.Blockchain.pending_transactions bc)
          = Some (tx_voter_id <$> App.Blockchain.pending_transactions bc)) as HmapM.
  { apply mapM_get_voter_id. intros t Ht s ->.
    destruct (Hpool _ Ht) as (v & c & ts & Heq & _). discriminate. }
  assert (forall v token,
            App.VotingSystem.voter_status bc v token
            = Some (App.VotingSystem.Status.mk true
                      (bool_decide (v ∈ App.Blockchain.voted_voters bc))
                      (py_slice_to token 4 +:+ "****")
                      (if bool_decide (v ∈ App.Blockchain.voted_voters bc)
                       then if bool_decide
                                 (Some v ∈ (tx_voter_id <$> App.Blockchain.pending_transactions bc))
                            then "Pending" else "Mined"
                       else "Not voted"))) as Hentry.
  { intros v token. unfold App.VotingSystem.voter_status, App.Blockchain.validate_voter.
    rewrite negb_involutive, HmapM.
    destruct (bool_decide (v ∈ App.Blockchain.voted_voters bc)); reflexivity. }
  unfold App.VotingSystem.get_voter_status. fold bc.
  rewrite bool_decide_eq_true_2.
  2:{ apply map_Forall_lookup_2. intros v e He. rewrite map_lookup_imap in He.
      destruct (App.VotingSystem.registered_voters avs !! v) as [token|]; [|discriminate].
      simpl in He. injection He as <-. rewrite Hentry. eauto. }
  eexists. split; [reflexivity|]. intros v.
  rewrite lookup_omap, map_lookup_imap.
  destruct (App.VotingSystem.registered_voters avs !! v) as [token|]; [|reflexivity].
  simpl. rewrite Hentry. simpl. eexists. split; [reflexivity|]. simpl.
  split; [reflexivity|]. split; [reflexivity|].
  pose proof (app_reachable_voted avs Hr v) as Hvoted.
  destruct (app_reachable_one_vote avs Hr v) as [Hle _].
  pose proof (pending_voter_id v (App.Blockchain.pending_transactions bc)) as Hpend.
  unfold app_records in *. fold bc in Hvoted, Hle |- *. rewrite votes_of_app in *.
  destruct (votes_of v (chain_transactions (App.Blockchain.chain bc))) as [|a la];
    destruct (votes_of v (App.Blockchain.pending_transactions bc)) as [|b lb];
    simpl in *.
  - rewrite bool_decide_eq_false_2 by (intros Hin; now apply Hvoted in Hin).
    repeat split; intros; try discriminate; try congruence.
  - rewrite bool_decide_eq_true_2 by (apply Hvoted; discriminate).
    rewrite bool_decide_eq_true_2 by (apply Hpend; discriminate).
    repeat split; intros; try discriminate; try congruence.
  - rewrite bool_decide_eq_true_2 by (apply Hvoted; discriminate).
    rewrite bool_decide_eq_false_2 by (intros Hin; now apply Hpend in Hin).
    repeat split; intros; try discriminate; try congruence.
  - rewrite length_app in Hle. simpl in Hle. lia.
Qed.

Lemma app_voter_status_witness :
  exists status,
    App.VotingSystem.get_voter_status demo_app_mined = Some status /\
    exists entry,
      status !! "V1" = Some entry /\
      App.VotingSystem.Status.voted_at entry = "Mined".
Proof.
  destruct (app_voter_status (H := demo_externals) demo_app_mined demo_app_mined_reachable)
    as (status & Hs & Hall).
  exists status. split; [exact Hs|].
  specialize (Hall "V1").
  replace (App.VotingSystem.registered_voters demo_app_mined !! "V1")
    with (Some "01abcdefabcd") in Hall by (vm_compute; reflexivity).
  destruct Hall as (entry & He & _ & _ & _ & _ & Hm & _).
  exists entry. split; [exact He|]. apply Hm. vm_compute. discriminate.
Defined.

(** ** The answers of [cast_vote] *)

(** In a reachable state of [voting_system.py] the three-way check of
    [cast_vote] comes down to the voter's [voted] flag. *)
Lemma standalone_has_voted_flag `{Externals} (vs : Standalone.VotingSystem.t) v x :
  standalone_reachable vs ->
  Standalone.VotingSystem.voters vs !! v = Some x ->
  Standalone.VotingSystem.voted x
  || Standalone.Blockchain.has_voter_voted v (Standalone.VotingSystem.blockchain vs)
  || bool_decide (is_Some (Standalone.VotingSystem.pending_votes vs !! v))
  = Standalone.VotingSystem.voted x.
Proof.
  intros Hr Hx. destruct (Standalone.VotingSystem.voted x) eqn:Hv; [reflexivity|]. simpl.
  assert (votes_of v (standalone_records vs) = []) as Hnil.
  { destruct (votes_of v (standalone_records vs)) eqn:E; [reflexivity|].
    assert (Standalone.VotingSystem.voted x = true) as Ht
      by (apply (standalone_reachable_voted vs Hr v x Hx); congruence).
    congruence. }
  unfold standalone_records in Hnil. rewrite votes_of_app in Hnil.
  apply app_eq_nil in Hnil as [Hchain Hpool].
  assert (Standalone.Blockchain.has_voter_voted v (Standalone.VotingSystem.blockchain vs)
          = false) as ->.
  { apply not_true_is_false. intros Ht. now apply has_voter_voted_mined in Ht. }
  simpl. apply bool_decide_eq_false_2. intros [tx Htx].
  apply (standalone_reachable_in_sync vs Hr) in Htx as [Hin Hid].
  assert (votes_of v (Standalone.Blockchain.pending_transactions
                        (Standalone.VotingSystem.blockchain vs)) <> []) as Hne
    by (apply votes_of_nonempty; eauto).
  contradiction.
Qed.

(** X18. The answer of [cast_vote] in a reachable state, check by check
    and in this order: an unknown voter id, a token that is not the
    stored one, a candidate that is not configured, a voter who has
    voted, and otherwise success.  [app.py] names the five candidates in
    its message for a wrong candidate. *)
Theorem cast_vote_answers `{Externals} (now : float) (voter_id token candidate : string)
    (svs : Standalone.VotingSystem.t) (avs : App.VotingSystem.t) :
  (standalone_reachable svs ->
   snd (Standalone.VotingSystem.cast_vote now voter_id token candidate svs)
   = match Standalone.VotingSystem.voters svs !! voter_id with
     | None => "Voter not registered"
     | Some x =>
         if negb (String.eqb (Standalone.VotingSystem.token x) token) then "Invalid token"
         else if negb (bool_decide (candidate ∈ ["Alice"; "Bob"; "Charlie"; "Diana"]))
         then "Invalid candidate"
         else if Standalone.VotingSystem.voted x then "Voter has already cast a vote"
         else "Vote cast successfully! It will be added to blockchain when mined."
     end) /\
  (app_reachable avs ->
   snd (App.VotingSystem.cast_vote now voter_id token candidate avs)
   = match App.VotingSystem.registered_voters avs !! voter_id with
     | None => (false, "Voter not registered")
     | Some stored =>
         if negb (String.eqb stored token) then (false, "Invalid token")
         else if negb (bool_decide (candidate ∈ ["Alice"; "Bob"; "Charlie"; "Diana"; "Edward"]))
         then (false, "Invalid candidate. Choose from: Alice, Bob, Charlie, Diana, Edward")
         else if bool_decide (votes_of voter_id (app_records avs) <> [])
         then (false, "This voter has already voted")
         else (true, "Vote added successfully")
     end).
Proof.
  split; intros Hr.
  - destruct (standalone_reachable_records svs Hr) as [Hcands _].
    unfold Standalone.VotingSystem.cast_vote, Standalone.VotingSystem.verify_token.
    destruct (Standalone.VotingSystem.voters svs !! voter_id) as [x|] eqn:Hx; [|reflexivity].
    destruct (negb (Standalone.VotingSystem.token x =? token)%string); [reflexivity|].
    rewrite Hcands.
    destruct (negb (bool_decide (candidate ∈ _))); [reflexivity|].
    rewrite (standalone_has_voted_flag svs voter_id x Hr Hx).
    destruct (Standalone.VotingSystem.voted x); reflexivity.
  - destruct (app_reachable_records avs Hr) as [Hcands _].
    unfold App.VotingSystem.cast_vote, App.VotingSystem.verify_voter, App.Blockchain.add_vote.
    destruct (App.VotingSystem.registered_voters avs !! voter_id) as [stored|]; [|reflexivity].
    destruct (negb (stored =? token)%string); [reflexivity|]. simpl.
    rewrite Hcands.
    destruct (negb (bool_decide (candidate ∈ _))); [reflexivity|].
    rewrite (bool_decide_ext _ _ (app_reachable_voted avs Hr voter_id)).
    destruct (bool_decide (votes_of voter_id (app_records avs) <> [])); reflexivity.
Qed.

Lemma cast_vote_answers_witness :
  snd (Standalone.VotingSystem.cast_vote 5.5%float "V1" "wrong" "Alice" demo_standalone_mined)
  = "Invalid token" /\
  snd (App.VotingSystem.cast_vote 5.5%float "V2" "01abcdefabcd" "Zed" demo_app_mined)
  = (false, "Voter not registered").
Proof.
  destruct (cast_vote_answers (H := demo_externals) 5.5%float "V1" "wrong" "Alice"
              demo_standalone_mined demo_app_mined) as [Hs _].
  destruct (cast_vote_answers (H := demo_externals) 5.5%float "V2" "01abcdefabcd" "Zed"
              demo_standalone_mined demo_app_mined) as [_ Ha].
  split.
  - rewrite (Hs demo_standalone_mined_reachable). vm_compute. reflexivity.
  - rewrite (Ha demo_app_mined_reachable). vm_compute. reflexivity.
Defined.

(** ** What [get_chain_data] shows *)

Lemma leading_zeros_preview (s : string) :
  (2 <= leading_zeros s)%nat ->
  (2 <= leading_zeros (py_slice_to s 16 +:+ "..."))%nat.
Proof.
  intros Hz. destruct s as [|c0 [|c1 rest]]; simpl in Hz; [lia | |].
  - destruct (Ascii.eqb c0 "0"); simpl in Hz; lia.
  - destruct (Ascii.eqb c0 "0") eqn:E0; [|lia].
    destruct (Ascii.eqb c1 "0") eqn:E1; [|lia].
    unfold py_slice_to. change (16 <? 0) with false. cbv iota.
    destruct (Z.to_nat (Z.min 16 (Z.of_nat (String.length (String c0 (String c1 rest))))))
      as [|[|k]] eqn:Ek;
      [simpl String.length in Ek; lia | simpl String.length in Ek; lia |].
    simpl. rewrite E0, E1. lia.
Qed.

Lemma py_slice_to_substring (s : string) (d : Z) :
  0 <= d <= Z.of_nat (String.length s) ->
  py_slice_to s d = substring 0 (Z.to_nat d) s.
Proof.
  intros Hd. unfold py_slice_to. destruct (Z.ltb_spec d 0) as [?|_]; [lia|].
  f_equal. lia.
Qed.

(** X19. In the blocks [get_chain_data] lists for a reachable state, the
    entry at position [i] shows block [i] of the chain: its index [i], its
    transactions and nonce, and as hash preview the first 16 characters
    of the block's hash and ["..."] (19 characters, starting with two
    zeros).  The genesis entry shows [previous_hash] ["0..."], and from
    block 1 on the [previous_hash] preview is the hash preview of the
    entry before. *)
Theorem chain_data_blocks_link `{Externals} `{Datetime} (avs : App.VotingSystem.t)
    (i : nat) (entry : Block.dict) :
  app_reachable avs ->
  App.Blockchain.blocks (App.Blockchain.get_chain_data (App.VotingSystem.blockchain avs)) !! i
  = Some entry ->
  (exists b,
     App.Blockchain.chain (App.VotingSystem.blockchain avs) !! i = Some b /\
     Block.dict_transactions entry = Block.transactions b /\
     Block.dict_nonce entry = Block.nonce b /\
     Block.dict_timestamp entry = strftime_hms (Block.timestamp b) /\
     Block.dict_previous_hash entry = py_slice_to (Block.previous_hash b) 16 +:+ "..." /\
     Block.dict_hash entry = substring 0 16 (Block.hash b) +:+ "...") /\
  Block.dict_index entry = Z.of_nat i /\
  String.length (Block.dict_hash entry) = 19%nat /\
  (2 <= leading_zeros (Block.dict_hash entry))%nat /\
  match i with
  | O => Block.dict_previous_hash entry = "0..."
  | S j =>
      exists previous,
        App.Blockchain.blocks (App.Blockchain.get_chain_data (App.VotingSystem.blockchain avs))
          !! j = Some previous /\
        Block.dict_previous_hash entry = Block.dict_hash previous
  end.
Proof.
  intros Hr He. destruct (app_reachable_chain avs Hr) as [_ Hwf].
  unfold App.Blockchain.get_chain_data in *. simpl in *.
  rewrite list_lookup_fmap in He.
  destruct (App.Blockchain.chain (App.VotingSystem.blockchain avs) !! i) as [b|] eqn:Hb;
    [|discriminate].
  simpl in He. injection He as <-.
  destruct (Hwf i b Hb) as (Hi & Hh & Hz & Hl). simpl.
  assert (String.length (Block.hash b) = 64%nat) as Hlen
    by (rewrite Hh; apply sha256_hexdigest_length).
  split; [|split; [exact Hi | split; [|split]]].
  - exists b. repeat split.
    rewrite py_slice_to_substring by (rewrite Hlen; lia). reflexivity.
  - rewrite str_append_length, py_slice_to_length by (rewrite Hlen; lia). reflexivity.
  - apply leading_zeros_preview. lia.
  - destruct i as [|j]; [now rewrite Hl|].
    destruct Hl as (p & Hp & Hl). exists (Block.to_dict p).
    split; [now rewrite list_lookup_fmap, Hp|]. simpl. now rewrite Hl.
Qed.

Lemma chain_data_blocks_link_witness :
  exists entry,
    App.Blockchain.blocks
      (App.Blockchain.get_chain_data (H := demo_datetime)
         (App.VotingSystem.blockchain demo_app_mined)) !! 1%nat = Some entry /\
    Block.dict_index entry = 1 /\
    Block.dict_hash entry = "00abcdefabcdefab...".
Proof.
  eexists. split; [vm_compute; reflexivity|].
  destruct (chain_data_blocks_link (H := demo_externals) (H0 := demo_datetime)
              demo_app_mined 1 (Block.to_dict (H := demo_datetime) demo_vote_block)
              demo_app_mined_reachable) as (_ & Hi & _).
  - vm_compute. reflexivity.
  - split; [exact Hi | vm_compute; reflexivity].
Defined.
